(** * SOC dashboard: report generator and API server

    A shallow embedding of the two programs that make up the telemetry
    core of the dashboard:

    - [Report]: the threat scoring of the report generator
      (generate_report.sh, function calculate_threat_level);
    - [Json]: the JSON values the server handles, with the text format
      produced by JSON.stringify and read by JSON.parse;
    - [Server]: api_server.js: the data cache, readJSONFile, the sample
      data generator, runMonitoringScript, the dashboard endpoint, the
      WebSocket push messages and the RealTimeScanner.

    Console logging is not part of the state: a call of logger.info,
    logger.warn or logger.error prints a line, stamped with a reading of
    the clock of its own that the server never looks at. The readings
    the state counts are those the server uses: Date.now() in the cache
    and the timestamps of the answers. *)

From Stdlib Require Import ZArith List String Ascii Bool Lia.
From Stdlib Require Import Decimal DecimalString DecimalN DecimalPos DecimalFacts.
From stdpp Require Import base option gmap strings list.

Local Open Scope string_scope.
Local Open Scope Z_scope.

(* ===================================================================== *)
(** * generate_report.sh *)
(* ===================================================================== *)

Module Report.

(** A text file is the list of its lines. *)
Definition text := list string.

(** The four files of $OUTPUT_DIR that calculate_threat_level looks at;
    [None] when the test [[ -f file ]] fails. *)
Record output_dir := OutputDir {
  login_summary_json : option text;
  suspicious_processes_json : option text;
  portscans_json : option text;
  recent_changes_json : option text
}.

(** ** Text tools: grep, cut, tr *)

Definition dquote : ascii := Eval cbv in ascii_of_nat 34.

(** A JSON key as it stands in a file: the name between double quotes. *)
Definition quoted (name : string) : string :=
  String dquote (name ++ String dquote EmptyString).

(** [contains needle s]: the fixed string [needle] occurs in [s]. The
    patterns given to grep -c have no regular-expression operators. *)
Fixpoint contains (needle s : string) : bool :=
  String.prefix needle s
  || match s with
     | EmptyString => false
     | String _ s' => contains needle s'
     end.

(** grep -c: the number of lines that match. *)
Definition grep_c (needle : string) (file : text) : Z :=
  Z.of_nat (length (List.filter (contains needle) file)).

Fixpoint strip_prefix (p s : string) : option string :=
  match p, s with
  | EmptyString, _ => Some s
  | String a p', String b s' =>
      if Ascii.eqb a b then strip_prefix p' s' else None
  | String _ _, EmptyString => None
  end.

Definition is_digit (c : ascii) : bool :=
  let n := nat_of_ascii c in (48 <=? n)%nat && (n <=? 57)%nat.

Fixpoint skip_spaces (s : string) : string :=
  match s with
  | String " " s' => skip_spaces s'
  | _ => s
  end.

Fixpoint take_digits (s : string) : string :=
  match s with
  | String c s' => if is_digit c then String c (take_digits s') else EmptyString
  | EmptyString => EmptyString
  end.

(** grep -o '"total_failed_logins": *[0-9]*' | cut -d':' -f2 | tr -d ' '
    on one line: for every match, the digits that follow the key and the
    blanks. A match cannot start inside another one. *)
Fixpoint failed_logins_matches (line : string) : list string :=
  match strip_prefix (quoted "total_failed_logins" ++ ":") line with
  | Some after => [take_digits (skip_spaces after)]
  | None => []
  end ++
  match line with
  | EmptyString => []
  | String _ rest => failed_logins_matches rest
  end.

(** ** Captured output and arithmetic tests *)

(** The output of a command substitution, as the list of its words (the
    lines that are not empty). *)
Definition words := list string.

Definition nonempty (s : string) : bool :=
  match s with EmptyString => false | _ => true end.

(** $(grep -o ... file | cut -d':' -f2 | tr -d ' ' || echo "0"): the
    status of a pipeline is that of tr, so echo never runs. *)
Definition failed_logins_output (file : text) : words :=
  List.filter nonempty (concat (map failed_logins_matches file)).

Definition decimal (n : Z) : string :=
  NilZero.string_of_uint (N.to_uint (Z.to_N n)).

(** $(grep -c pattern file || echo "0"): grep prints the count and fails
    when it is zero, and then echo adds a second line. *)
Definition grep_c_output (needle : string) (file : text) : words :=
  let c := grep_c needle file in
  if c =? 0 then ["0"; "0"] else [decimal c].

Definition digit_value (c : ascii) : option Z :=
  if is_digit c then Some (Z.of_nat (nat_of_ascii c) - 48) else None.

(** The digits of a constant in the given base, most significant first. *)
Fixpoint strlong (base acc : Z) (s : string) : option Z :=
  match s with
  | EmptyString => Some acc
  | String c s' =>
      match digit_value c with
      | Some d => if d <? base then strlong base (acc * base + d) s' else None
      | None => None
      end
  end.

(** Shell arithmetic is done on signed 64-bit integers. *)
Definition wrap64 (z : Z) : Z := (z + 2 ^ 63) mod 2 ^ 64 - 2 ^ 63.

(** An integer constant of shell arithmetic: a leading 0 announces an
    octal constant; a digit too great for the base is an error. *)
Definition constant (w : string) : option Z :=
  match w with
  | String "0" EmptyString => Some 0
  | String "0" rest => wrap64 <$> strlong 8 0 rest
  | _ => wrap64 <$> strlong 10 0 w
  end.

(** The value of a captured output inside [[ ... -gt ... ]]: the empty
    string is 0, one constant is its value, and two constants in a row
    are a syntax error ([None]). *)
Definition arith (out : words) : option Z :=
  match out with
  | [] => Some 0
  | [w] => constant w
  | _ => None
  end.

(** [[ "$var" -gt k ]]: false when the expression is in error. *)
Definition test_gt (out : words) (k : Z) : bool :=
  match arith out with
  | Some n => k <? n
  | None => false
  end.

(** ** calculate_threat_level *)

Inductive threat_level := LOW | MEDIUM | HIGH | CRITICAL.

(** "Determine threat level based on score". *)
Definition level_of_score (threat_score : Z) : threat_level :=
  if 70 <=? threat_score then CRITICAL
  else if 50 <=? threat_score then HIGH
  else if 30 <=? threat_score then MEDIUM
  else LOW.

Definition calculate_threat_level (d : output_dir) : Z * threat_level :=
  let threat_score := 0 in
  (* Check failed login attempts *)
  let threat_score :=
    match login_summary_json d with
    | Some file =>
        let failed_logins := failed_logins_output file in
        if test_gt failed_logins 100 then threat_score + 30
        else if test_gt failed_logins 50 then threat_score + 20
        else if test_gt failed_logins 10 then threat_score + 10
        else threat_score
    | None => threat_score
    end in
  (* Check for suspicious processes *)
  let threat_score :=
    match suspicious_processes_json d with
    | Some file =>
        let suspicious_count := grep_c_output (quoted "process_name") file in
        if test_gt suspicious_count 0 then threat_score + 40 else threat_score
    | None => threat_score
    end in
  (* Check port scan attempts *)
  let threat_score :=
    match portscans_json d with
    | Some file =>
        let scan_count := grep_c_output (quoted "source_ip") file in
        if test_gt scan_count 5 then threat_score + 25
        else if test_gt scan_count 0 then threat_score + 15
        else threat_score
    | None => threat_score
    end in
  (* Check file integrity issues *)
  let threat_score :=
    match recent_changes_json d with
    | Some file =>
        let recent_changes := grep_c_output (quoted "file") file in
        if test_gt recent_changes 20 then threat_score + 20
        else if test_gt recent_changes 10 then threat_score + 10
        else threat_score
    | None => threat_score
    end in
  (threat_score, level_of_score threat_score).

(** ** The documented scoring *)

(** The bands as the documentation words them: LOW below 30, MEDIUM from
    30 to 49, HIGH from 50 to 69, CRITICAL from 70. *)
Definition documented_level (score : Z) : threat_level :=
  if score <? 30 then LOW
  else if score <? 50 then MEDIUM
  else if score <? 70 then HIGH
  else CRITICAL.

(** The volumes the score is computed from: what the arithmetic tests
    see of each file, 0 when the file is absent or the expression is in
    error. *)
Definition volume (out : option words) : Z :=
  match out with
  | Some o => default 0 (arith o)
  | None => 0
  end.

Definition failed_login_volume (d : output_dir) : Z :=
  volume (failed_logins_output <$> login_summary_json d).
Definition suspicious_process_count (d : output_dir) : Z :=
  volume (grep_c_output (quoted "process_name") <$> suspicious_processes_json d).
Definition port_scan_count (d : output_dir) : Z :=
  volume (grep_c_output (quoted "source_ip") <$> portscans_json d).
Definition recent_change_volume (d : output_dir) : Z :=
  volume (grep_c_output (quoted "file") <$> recent_changes_json d).

(** The weight of each volume. *)
Definition login_weight (v : Z) : Z :=
  if 100 <? v then 30 else if 50 <? v then 20 else if 10 <? v then 10 else 0.
Definition process_weight (v : Z) : Z := if 0 <? v then 40 else 0.
Definition scan_weight (v : Z) : Z :=
  if 5 <? v then 25 else if 0 <? v then 15 else 0.
Definition change_weight (v : Z) : Z :=
  if 20 <? v then 20 else if 10 <? v then 10 else 0.

(** The weighted sum of the four volumes. *)
Definition weighted_sum (d : output_dir) : Z :=
  login_weight (failed_login_volume d)
  + process_weight (suspicious_process_count d)
  + scan_weight (port_scan_count d)
  + change_weight (recent_change_volume d).

(** ** Numbers read from JSON text, for any key *)



(** grep -o '"key": *[0-9]*' | cut -d':' -f2 | tr -d ' ' on one line,
    for any key. *)
Fixpoint key_matches (key : string) (line : string) : list string :=
  match strip_prefix (quoted key ++ ":") line with
  | Some after => [take_digits (skip_spaces after)]
  | None => []
  end ++
  match line with
  | EmptyString => []
  | String _ rest => key_matches key rest
  end.

Definition number_output (key : string) (file : text) : words :=
  List.filter nonempty (concat (map (key_matches key) file)).

(** A key without double quote and without colon. *)
Definition plain_key (key : string) : bool :=
  forallb (fun c => negb (Ascii.eqb c dquote) && negb (Ascii.eqb c ":"))
    (list_ascii_of_string key).

(** A text without double quote. *)
Definition unquoted (s : string) : bool :=
  forallb (fun c => negb (Ascii.eqb c dquote)) (list_ascii_of_string s).

Definition no_digit_first (s : string) : bool :=
  match s with
  | String c _ => negb (is_digit c)
  | EmptyString => true
  end.

Fixpoint spaces (n : nat) : string :=
  match n with
  | O => EmptyString
  | S n' => String " " (spaces n')
  end.

(** A line that holds a key and its number, as JSON text has it:
    [indent "key": n rest]. *)
Definition number_line (indent key : string) (gap : nat) (n : Z) (rest : string) : string :=
  indent ++ quoted key ++ ":" ++ spaces gap ++ decimal n ++ rest.

(** The lines of a file where a key does not occur. *)
Definition without (key : string) (lines : text) : bool :=
  forallb (fun l => negb (contains (quoted key ++ ":") l)) lines.

(** ** generate_soc_status *)

(** $status and $message, from alert_summary.json. *)
Definition soc_status_of (alert_summary_json : option text) : string * string :=
  let operational := ("operational", "All systems operational") in
  match alert_summary_json with
  | Some file =>
      let critical_alerts := number_output "critical_alerts" file in
      if test_gt critical_alerts 0
      then ("critical", "Critical alerts detected - immediate attention required")
      else operational
  | None => operational
  end.

(** The lines written to soc_status.json; [date] is what date prints. *)
Definition generate_soc_status (alert_summary_json : option text) (date : string) : text :=
  let '(status, message) := soc_status_of alert_summary_json in
  ["{";
   "    " ++ quoted "status" ++ ": " ++ quoted status ++ ",";
   "    " ++ quoted "message" ++ ": " ++ quoted message ++ ",";
   "    " ++ quoted "timestamp" ++ ": " ++ quoted date;
   "}"].

Definition linefeed : ascii := Eval cbv in ascii_of_nat 10.

(** A file as one string: every line ends with a newline. *)
Fixpoint unlines (t : text) : string :=
  match t with
  | [] => EmptyString
  | l :: t' => l ++ String linefeed (unlines t')
  end.

(** A text that stands for itself between the quotes of a JSON string:
    printable ASCII without double quote and backslash. *)
Definition printable (s : string) : bool :=
  forallb (fun c => let n := nat_of_ascii c in
                    (32 <=? n)%nat && (n <=? 126)%nat && negb (n =? 34)%nat
                    && negb (n =? 92)%nat)
    (list_ascii_of_string s).

(** ** generate_alert_summary *)

(** $((a + var)): the value of the variable is read as an expression.
    [None] when it is in error: the shell then gives up the function it
    is running, and goes on with the next command of the script. *)
Definition add_var (a : Z) (var : words) : option Z :=
  (fun v => wrap64 (a + v)) <$> arith var.

(** A number as the shell prints it. *)
Definition shell_number (z : Z) : string :=
  if z <? 0 then String "-" (decimal (- z)) else decimal z.

Record alerts := Alerts {
  critical_alerts : Z;
  high_alerts : Z;
  medium_alerts : Z;
  low_alerts : Z
}.

(** The counters when the here-document is reached; [None] when the
    function is given up before. *)
Definition count_alerts (suspicious_processes_json portscans_json login_summary_json
                           : option text) : option alerts :=
  let critical_alerts := 0 in
  let high_alerts := 0 in
  let medium_alerts := 0 in
  let low_alerts := 0 in
  high_alerts ←
    match suspicious_processes_json with
    | Some file =>
        let suspicious_count := grep_c_output (quoted "process_name") file in
        add_var high_alerts suspicious_count
    | None => Some high_alerts
    end;
  '(critical_alerts, high_alerts) ←
    match portscans_json with
    | Some file =>
        let scan_count := grep_c_output (quoted "source_ip") file in
        if test_gt scan_count 5 then Some (wrap64 (critical_alerts + 1), high_alerts)
        else pair critical_alerts <$> add_var high_alerts scan_count
    | None => Some (critical_alerts, high_alerts)
    end;
  '(critical_alerts, high_alerts, medium_alerts) ←
    match login_summary_json with
    | Some file =>
        let failed_logins := failed_logins_output file in
        if test_gt failed_logins 50
        then Some (wrap64 (critical_alerts + 1), high_alerts, medium_alerts)
        else if test_gt failed_logins 10
        then Some (critical_alerts, wrap64 (high_alerts + 1), medium_alerts)
        else pair (critical_alerts, high_alerts) <$> add_var medium_alerts failed_logins
    | None => Some (critical_alerts, high_alerts, medium_alerts)
    end;
  Some (Alerts critical_alerts high_alerts medium_alerts low_alerts).

Definition total_alerts (a : alerts) : Z :=
  wrap64 (critical_alerts a + high_alerts a + medium_alerts a + low_alerts a).

(** The here-document of alert_summary.json; [date] is what date
    prints. *)
Definition alert_summary_lines (a : alerts) (date : string) : text :=
  ["{";
   "    " ++ quoted "total_alerts" ++ ": " ++ shell_number (total_alerts a) ++ ",";
   "    " ++ quoted "critical_alerts" ++ ": " ++ shell_number (critical_alerts a) ++ ",";
   "    " ++ quoted "high_alerts" ++ ": " ++ shell_number (high_alerts a) ++ ",";
   "    " ++ quoted "medium_alerts" ++ ": " ++ shell_number (medium_alerts a) ++ ",";
   "    " ++ quoted "low_alerts" ++ ": " ++ shell_number (low_alerts a) ++ ",";
   "    " ++ quoted "timestamp" ++ ": " ++ quoted date;
   "}"].

(** The lines written to alert_summary.json, when they are written. *)
Definition generate_alert_summary
    (suspicious_processes_json portscans_json login_summary_json : option text)
    (date : string) : option text :=
  a ← count_alerts suspicious_processes_json portscans_json login_summary_json;
  Some (alert_summary_lines a date).

(** A file that is there and where no line holds the needle. *)
Definition mentions_none (needle : string) (file : option text) : bool :=
  match file with
  | Some f => grep_c needle f =? 0
  | None => false
  end.

(** ** generate_executive_summary *)

(** $threat_level as calculate_threat_level sets it. *)
Definition level_name (l : threat_level) : string :=
  match l with
  | LOW => "LOW"
  | MEDIUM => "MEDIUM"
  | HIGH => "HIGH"
  | CRITICAL => "CRITICAL"
  end.

(** What calculate_threat_level prints: the two lines of its echo
    commands. *)
Definition calculate_threat_level_output (d : output_dir) : text :=
  let '(threat_score, threat_level) := calculate_threat_level d in
  ["Calculating overall threat level...";
   "{" ++ quoted "threat_score" ++ ": " ++ shell_number threat_score ++ ", "
       ++ quoted "threat_level" ++ ": " ++ quoted (level_name threat_level) ++ "}"].

(** $(command): the lines of the output, without the empty lines at the
    end. *)
Fixpoint strip_trailing_empty (out : text) : text :=
  match out with
  | [] => []
  | l :: rest =>
      match strip_trailing_empty rest with
      | [] => if nonempty l then [l] else []
      | rest' => l :: rest'
      end
  end.

(** The lines of a value, as one string. *)
Fixpoint join_lines (t : text) : string :=
  match t with
  | [] => EmptyString
  | [l] => l
  | l :: rest => l ++ String linefeed (join_lines rest)
  end.

(** The value of a variable that is set to $(command). *)
Definition captured (out : text) : string := join_lines (strip_trailing_empty out).

(** [^"]*" : the text before the next double quote, and the text after
    it. *)
Fixpoint until_quote (s : string) : option (string * string) :=
  match s with
  | EmptyString => None
  | String c rest =>
      if Ascii.eqb c dquote then Some (EmptyString, rest)
      else '(v, after) ← until_quote rest; Some (String c v, after)
  end.

(** A match of '"threat_level": *"[^"]*"' at the start of a line: its
    fourth field for cut -d'"', and its length. *)
Definition level_match_at (line : string) : option (string * nat) :=
  after ← strip_prefix (quoted "threat_level" ++ ":") line;
  match skip_spaces after with
  | String c rest =>
      if Ascii.eqb c dquote
      then '(v, rest') ← until_quote rest;
           Some (v, (String.length line - String.length rest')%nat)
      else None
  | EmptyString => None
  end.

(** grep -o '"threat_level": *"[^"]*"' | cut -d'"' -f4 on one line: the
    search goes on after the end of a match; [skip] characters are still
    part of the last match. *)
Fixpoint level_scan (skip : nat) (line : string) : list string :=
  match line with
  | EmptyString => []
  | String _ rest =>
      match skip with
      | S k => level_scan k rest
      | O =>
          match level_match_at line with
          | Some (v, len) => v :: level_scan (len - 1) rest
          | None => level_scan O rest
          end
      end
  end.

Record incidents := Incidents {
  total_incidents : Z;
  critical_incidents : Z;
  high_priority_incidents : Z
}.

(** The counters when the here-document is reached; [None] when the
    function is given up before. *)
Definition count_incidents (d : output_dir) (threat_level : string) : option incidents :=
  let total_incidents := 0 in
  let critical_incidents := 0 in
  let high_priority_incidents := 0 in
  total_incidents ←
    match login_summary_json d with
    | Some file =>
        let failed_logins := failed_logins_output file in
        add_var total_incidents failed_logins
    | None => Some total_incidents
    end;
  total_incidents ←
    match portscans_json d with
    | Some file =>
        let scan_count := grep_c_output (quoted "source_ip") file in
        add_var total_incidents scan_count
    | None => Some total_incidents
    end;
  '(total_incidents, high_priority_incidents) ←
    match suspicious_processes_json d with
    | Some file =>
        let suspicious_count := grep_c_output (quoted "process_name") file in
        total_incidents ← add_var total_incidents suspicious_count;
        high_priority_incidents ← add_var high_priority_incidents suspicious_count;
        Some (total_incidents, high_priority_incidents)
    | None => Some (total_incidents, high_priority_incidents)
    end;
  let critical_incidents :=
    if String.eqb threat_level "CRITICAL" then wrap64 (critical_incidents + 1)
    else critical_incidents in
  Some (Incidents total_incidents critical_incidents high_priority_incidents).

(** The here-document of executive_summary.json. *)
Definition executive_summary_lines (threat_level threat_score : string) (i : incidents)
    (timestamp : string) : text :=
  ["{";
   "    " ++ quoted "overall_threat_level" ++ ": " ++ quoted threat_level ++ ",";
   "    " ++ quoted "threat_score" ++ ": " ++ threat_score ++ ",";
   "    " ++ quoted "total_incidents" ++ ": " ++ shell_number (total_incidents i) ++ ",";
   "    " ++ quoted "critical_incidents" ++ ": " ++ shell_number (critical_incidents i)
     ++ ",";
   "    " ++ quoted "high_priority_incidents" ++ ": "
     ++ shell_number (high_priority_incidents i) ++ ",";
   "    " ++ quoted "last_updated" ++ ": " ++ quoted timestamp ++ ",";
   "    " ++ quoted "recommendations" ++ ": [";
   "        " ++ quoted "Monitor failed login attempts" ++ ",";
   "        " ++ quoted "Review suspicious processes" ++ ",";
   "        " ++ quoted "Check open ports" ++ ",";
   "        " ++ quoted "Update security policies";
   "    ]";
   "}"].

(** The text written to executive_summary.json, when it is written;
    [date] is what date prints. *)
Definition generate_executive_summary (d : output_dir) (date : string) : option string :=
  let threat_info := strip_trailing_empty (calculate_threat_level_output d) in
  let threat_score := captured (concat (map (key_matches "threat_score") threat_info)) in
  let threat_level := captured (concat (map (level_scan 0) threat_info)) in
  let timestamp := date in
  i ← count_incidents d threat_level;
  Some (unlines (executive_summary_lines threat_level threat_score i timestamp)).

(** ** The files of the server, as the report reads them *)



End Report.


(* ===================================================================== *)
(** * JSON values and JSON text *)
(* ===================================================================== *)

Module Json.

(** A number is kept as the decimal [mant * 10 ^ expo]. Every double is
    such a decimal. [num_add] and [num_mul] are the exact sum and
    product; the product and the sum of doubles the server computes from
    Math.random() are [double_mul] and [double_add], rounded as binary64
    rounds. *)
Record num := Num { mant : Z; expo : Z }.

#[local] Unset Elimination Schemes.
Inductive json :=
| JNull
| JBool (b : bool)
| JNum (n : num)
| JStr (s : string)
| JArr (items : list json)
| JObj (members : list (string * json)).
#[local] Set Elimination Schemes.

Definition JInt (z : Z) : json := JNum (Num z 0).

(** ** Numbers *)

Definition num_add (a b : num) : num :=
  let e := Z.min (expo a) (expo b) in
  Num (mant a * 10 ^ (expo a - e) + mant b * 10 ^ (expo b - e)) e.

Definition num_mul (a b : num) : num :=
  Num (mant a * mant b) (expo a + expo b).

Definition num_of_Z (z : Z) : num := Num z 0.

(** Math.floor *)
Definition floor (a : num) : Z :=
  if 0 <=? expo a then mant a * 10 ^ expo a else mant a / 10 ^ (- expo a).

(** ** Doubles *)

(** The rounding of binary64 on the whole numbers: [round53 x] is the
    nearest to [x >= 0] of the numbers with 53 significant bits, the
    even one of two that are as near. *)
Definition round53 (x : Z) : Z :=
  let e := Z.log2 x - 52 in
  if e <=? 0 then x
  else
    let q := x / 2 ^ e in
    let r := x mod 2 ^ e in
    let half := 2 ^ (e - 1) in
    (if r <? half then q
     else if half <? r then q + 1
     else if Z.even q then q else q + 1) * 2 ^ e.

(** [x] for the number [x / 2 ^ 53], and back. *)
Definition of_scaled (x : Z) : num := Num (x * 5 ^ 53) (-53).

Definition scaled (a : num) : Z := floor (num_mul a (num_of_Z (2 ^ 53))).

(** [a * n] and [a + k] as doubles, for a multiple [a >= 0] of 2^-53 and
    whole numbers [n] and [k] from 0 to 2^53: the exact result is a
    multiple of 2^-53, far from the subnormal numbers, and is rounded to
    53 significant bits. *)
Definition double_mul (a : num) (n : Z) : num := of_scaled (round53 (scaled a * n)).

Definition double_add (a : num) (k : Z) : num := of_scaled (round53 (scaled a + k * 2 ^ 53)).

(** ** Object and truth tests *)

(** ToBoolean: null, false, 0 and the empty string are falsy; every
    array and every object is truthy. *)
Definition truthy (v : json) : bool :=
  match v with
  | JNull => false
  | JBool b => b
  | JNum n => negb (mant n =? 0)
  | JStr s => negb (String.eqb s EmptyString)
  | JArr _ | JObj _ => true
  end.

Fixpoint assoc (k : string) (l : list (string * json)) : option json :=
  match l with
  | [] => None
  | (k', v) :: l' => if String.eqb k k' then Some v else assoc k l'
  end.

(** Property read [v.k] *)
Definition get (k : string) (v : json) : option json :=
  match v with
  | JObj m => assoc k m
  | _ => None
  end.

Definition has_key (k : string) (v : json) : bool :=
  match get k v with Some _ => true | None => false end.

(** Object.keys *)
Definition keys (v : json) : list string :=
  match v with
  | JObj m => map fst m
  | _ => []
  end.

(** Property write: an existing key keeps its place. *)
Fixpoint obj_set (k : string) (v : json) (l : list (string * json))
  : list (string * json) :=
  match l with
  | [] => [(k, v)]
  | (k', v') :: l' =>
      if String.eqb k k' then (k, v) :: l' else (k', v') :: obj_set k v l'
  end.

(** The members of an object text, in the order of the text; a key that
    comes twice keeps its first place and its last value. *)
Definition members_of_text (l : list (string * json)) : list (string * json) :=
  fold_left (fun acc kv => obj_set (fst kv) (snd kv) acc) l [].

(** An object has every key once. *)
Fixpoint distinct (l : list string) : bool :=
  match l with
  | [] => true
  | k :: r => negb (existsb (String.eqb k) r) && distinct r
  end.

Fixpoint wf (v : json) : bool :=
  match v with
  | JArr items => forallb wf items
  | JObj members =>
      distinct (map fst members)
      && forallb (fun m : string * json => let '(_, y) := m in wf y) members
  | _ => true
  end.

(** ** Characters *)

Definition dquote : ascii := Report.dquote.
Definition backslash : ascii := Eval cbv in ascii_of_nat 92.
Definition newline : ascii := Eval cbv in ascii_of_nat 10.

Definition chr (n : nat) : ascii := ascii_of_nat n.
Definition code (c : ascii) : nat := nat_of_ascii c.

Definition hex_digit (n : nat) : ascii :=
  if (n <? 10)%nat then chr (48 + n) else chr (87 + n).

Definition hex_value (c : ascii) : option nat :=
  let n := code c in
  if (48 <=? n)%nat && (n <=? 57)%nat then Some (n - 48)%nat
  else if (97 <=? n)%nat && (n <=? 102)%nat then Some (n - 87)%nat
  else if (65 <=? n)%nat && (n <=? 70)%nat then Some (n - 55)%nat
  else None.

(** ** JSON.stringify *)

(** QuoteJSONString, one character: the two-character escapes, \u00xx
    for the other control characters, the character itself otherwise.
    A string is the sequence of its UTF-8 bytes, and the bytes from 128
    on stand for themselves. *)
Definition escape (c : ascii) (k : string) : string :=
  let n := code c in
  if Ascii.eqb c dquote then String backslash (String dquote k)
  else if Ascii.eqb c backslash then String backslash (String backslash k)
  else if (n =? 8)%nat then String backslash (String "b" k)
  else if (n =? 9)%nat then String backslash (String "t" k)
  else if (n =? 10)%nat then String backslash (String "n" k)
  else if (n =? 12)%nat then String backslash (String "f" k)
  else if (n =? 13)%nat then String backslash (String "r" k)
  else if (n <? 32)%nat then
    String backslash (String "u" (String "0" (String "0"
      (String (hex_digit (n / 16)) (String (hex_digit (n mod 16)) k)))))
  else String c k.

Fixpoint quote_chars (s : string) (k : string) : string :=
  match s with
  | EmptyString => k
  | String c r => escape c (quote_chars r k)
  end.

Definition quote (s : string) (k : string) : string :=
  String dquote (quote_chars s (String dquote k)).

Definition digits (n : N) : string := NilZero.string_of_uint (N.to_uint n).

Definition print_Z (z : Z) : string :=
  match z with
  | Zneg p => String "-" (digits (Npos p))
  | _ => digits (Z.to_N z)
  end.

(** A number literal: the mantissa, and the exponent when it is not 0.
    Whole numbers are written as JavaScript writes them; for the others
    JavaScript picks another spelling of the same number. *)
Definition print_num (n : num) : string :=
  print_Z (mant n) ++ (if expo n =? 0 then EmptyString else String "e" (print_Z (expo n))).

Fixpoint blanks (n : nat) (k : string) : string :=
  match n with
  | O => k
  | S n' => String " " (blanks n' k)
  end.

(** With a gap, every item goes on a line of its own, indented by the
    gap at each level; without one nothing is added. *)
Definition break (gap depth : nat) (k : string) : string :=
  match gap with
  | O => k
  | S _ => String newline (blanks (gap * depth) k)
  end.

Definition colon (gap : nat) (k : string) : string :=
  String ":" (match gap with O => k | S _ => String " " k end).

(** The items after the first one, each behind a comma. *)
Definition join_to {A} (f : A -> string -> string) : list A -> string -> string :=
  fix join (l : list A) (k : string) : string :=
    match l with
    | [] => k
    | y :: l' => String "," (f y (join l' k))
    end.

(** [serialize gap depth v k] is the text of [v], laid out with [gap]
    blanks per level from level [depth], followed by [k]. *)
Fixpoint serialize (gap depth : nat) (v : json) (k : string) : string :=
  match v with
  | JNull => "null" ++ k
  | JBool true => "true" ++ k
  | JBool false => "false" ++ k
  | JNum n => print_num n ++ k
  | JStr s => quote s k
  | JArr [] => String "[" (String "]" k)
  | JArr (x :: rest) =>
      String "["
        (break gap (S depth) (serialize gap (S depth) x
          (join_to (fun y k' => break gap (S depth) (serialize gap (S depth) y k'))
             rest (break gap depth (String "]" k)))))
  | JObj [] => String "{" (String "}" k)
  | JObj ((key, x) :: rest) =>
      String "{"
        (break gap (S depth) (quote key (colon gap (serialize gap (S depth) x
          (join_to
             (fun (m : string * json) k' =>
                let '(key', y) := m in
                break gap (S depth)
                  (quote key' (colon gap (serialize gap (S depth) y k'))))
             rest (break gap depth (String "}" k)))))))
  end.

(** The text of an array element and of an object member after the
    opening bracket or the comma. *)
Definition item (gap depth : nat) (y : json) (k : string) : string :=
  break gap (S depth) (serialize gap (S depth) y k).

Definition member (gap depth : nat) (m : string * json) (k : string) : string :=
  let '(key, y) := m in
  break gap (S depth) (quote key (colon gap (serialize gap (S depth) y k))).

(** JSON.stringify(v) *)
Definition stringify (v : json) : string := serialize 0 0 v EmptyString.

(** JSON.stringify(v, null, 2) *)
Definition stringify_pretty (v : json) : string := serialize 2 0 v EmptyString.

(** ** JSON.parse *)

Definition is_ws (c : ascii) : bool :=
  let n := code c in
  (n =? 32)%nat || (n =? 9)%nat || (n =? 10)%nat || (n =? 13)%nat.

Fixpoint skip_ws (s : string) : string :=
  match s with
  | String c r => if is_ws c then skip_ws r else s
  | EmptyString => s
  end.

Definition digit_con (c : ascii) : option (uint -> uint) :=
  match c with
  | "0" => Some D0 | "1" => Some D1 | "2" => Some D2 | "3" => Some D3
  | "4" => Some D4 | "5" => Some D5 | "6" => Some D6 | "7" => Some D7
  | "8" => Some D8 | "9" => Some D9
  | _ => None
  end%char.

(** The longest run of digits at the head of [s], and what follows. *)
Fixpoint read_digits (s : string) : uint * string :=
  match s with
  | String c r =>
      match digit_con c with
      | Some d => let '(ds, r') := read_digits r in (d ds, r')
      | None => (Nil, s)
      end
  | EmptyString => (Nil, s)
  end.

(** [starts_with c s]: what follows [c] when [s] starts with it. *)
Definition starts_with (c : ascii) (s : string) : option string :=
  match s with
  | String c' r => if Ascii.eqb c c' then Some r else None
  | EmptyString => None
  end.

Definition is_nil (d : uint) : bool :=
  match d with Nil => true | _ => false end.

(** A number literal: an optional minus sign; an integer part without
    a superfluous leading zero; an optional fraction, a point and at
    least one digit; an optional exponent, e or E, an optional sign and
    at least one digit. *)
Definition parse_number (s : string) : option (num * string) :=
  let '(neg, s1) :=
    match starts_with "-" s with Some r => (true, r) | None => (false, s) end in
  let '(ip, s2) := read_digits s1 in
  if negb (uint_beq ip (unorm ip)) then None
  else
    let frac :=
      match starts_with "." s2 with
      | Some s3 =>
          let '(fp, s4) := read_digits s3 in
          if is_nil fp then None else Some (fp, s4)
      | None => Some (Nil, s2)
      end in
    match frac with
    | None => None
    | Some (fp, s4) =>
        let exponent :=
          match (match starts_with "e" s4 with
                 | Some s5 => Some s5
                 | None => starts_with "E" s4
                 end) with
          | Some s5 =>
              let '(eneg, s6) :=
                match starts_with "-" s5 with
                | Some r => (true, r)
                | None =>
                    match starts_with "+" s5 with
                    | Some r => (false, r)
                    | None => (false, s5)
                    end
                end in
              let '(ep, s7) := read_digits s6 in
              if is_nil ep then None
              else
                let e := Z.of_N (N.of_uint ep) in
                Some (if eneg then - e else e, s7)
          | None => Some (0, s4)
          end in
        match exponent with
        | None => None
        | Some (e, rest) =>
            let m := Z.of_N (N.of_uint (Decimal.app ip fp)) in
            Some (Num (if neg then - m else m) (e - Z.of_nat (nb_digits fp)), rest)
        end
    end.

Definition ncode (c : ascii) : N := N_of_ascii c.
Definition nchr (n : N) : ascii := ascii_of_N n.

Definition hex4 (a b c d : ascii) : option N :=
  match hex_value a, hex_value b, hex_value c, hex_value d with
  | Some x, Some y, Some z, Some t =>
      Some (N.of_nat x * 4096 + N.of_nat y * 256 + N.of_nat z * 16 + N.of_nat t)%N
  | _, _, _, _ => None
  end.

(** The UTF-8 bytes of a code point, followed by [k]. *)
Definition utf8 (cp : N) (k : string) : string :=
  (if cp <? 128 then String (nchr cp) k
   else if cp <? 2048 then
     String (nchr (192 + cp / 64)) (String (nchr (128 + cp mod 64)) k)
   else if cp <? 65536 then
     String (nchr (224 + cp / 4096))
       (String (nchr (128 + (cp / 64) mod 64)) (String (nchr (128 + cp mod 64)) k))
   else
     String (nchr (240 + cp / 262144))
       (String (nchr (128 + (cp / 4096) mod 64))
         (String (nchr (128 + (cp / 64) mod 64)) (String (nchr (128 + cp mod 64)) k))))%N.

Definition is_high_surrogate (u : N) : bool := ((55296 <=? u) && (u <? 56320))%N.
Definition is_low_surrogate (u : N) : bool := ((56320 <=? u) && (u <? 57344))%N.

Definition simple_escape (e : ascii) : option ascii :=
  if Ascii.eqb e dquote then Some dquote
  else if Ascii.eqb e backslash then Some backslash
  else match e with
       | "/" => Some "/"
       | "b" => Some (chr 8)
       | "f" => Some (chr 12)
       | "n" => Some (chr 10)
       | "r" => Some (chr 13)
       | "t" => Some (chr 9)
       | _ => None
       end%char.

Definition prepend {A} (f : string -> string) (r : option (string * A))
  : option (string * A) :=
  match r with
  | Some (s, a) => Some (f s, a)
  | None => None
  end.

(** The characters of a string literal after its opening quote, up to
    the closing quote: the decoded string and the rest of the text. *)
Fixpoint parse_chars (s : string) : option (string * string) :=
  match s with
  | EmptyString => None
  | String c r =>
      if Ascii.eqb c dquote then Some (EmptyString, r)
      else if Ascii.eqb c backslash then
        match r with
        | String e r1 =>
            if Ascii.eqb e "u" then
              match r1 with
              | String h1 (String h2 (String h3 (String h4 r2))) =>
                  match hex4 h1 h2 h3 h4 with
                  | Some u =>
                      if is_high_surrogate u then
                        match r2 with
                        | String b (String e' (String g1 (String g2 (String g3 (String g4 r3))))) =>
                            match hex4 g1 g2 g3 g4 with
                            | Some lo =>
                                if Ascii.eqb b backslash && Ascii.eqb e' "u"
                                   && is_low_surrogate lo
                                then prepend (utf8 (65536 + (u - 55296) * 1024 + (lo - 56320))%N)
                                       (parse_chars r3)
                                else prepend (utf8 u) (parse_chars r2)
                            | None => prepend (utf8 u) (parse_chars r2)
                            end
                        | _ => prepend (utf8 u) (parse_chars r2)
                        end
                      else prepend (utf8 u) (parse_chars r2)
                  | None => None
                  end
              | _ => None
              end
            else
              match simple_escape e with
              | Some ch => prepend (String ch) (parse_chars r1)
              | None => None
              end
        | EmptyString => None
        end
      else if (code c <? 32)%nat then None
      else prepend (String c) (parse_chars r)
  end.

Definition literal (word : string) (v : json) (s : string) : option (json * string) :=
  match Report.strip_prefix word s with
  | Some r => Some (v, r)
  | None => None
  end.

(** Recursive descent; [fuel] bounds the number of nested calls. *)
Fixpoint parse_value (fuel : nat) (s : string) : option (json * string) :=
  match fuel with
  | O => None
  | S fuel' =>
      match skip_ws s with
      | EmptyString => None
      | String c r =>
          if Ascii.eqb c "{" then
            match starts_with "}" (skip_ws r) with
            | Some r' => Some (JObj [], r')
            | None =>
                match parse_members fuel' (skip_ws r) with
                | Some (ms, r') => Some (JObj (members_of_text ms), r')
                | None => None
                end
            end
          else if Ascii.eqb c "[" then
            match starts_with "]" (skip_ws r) with
            | Some r' => Some (JArr [], r')
            | None =>
                match parse_elements fuel' (skip_ws r) with
                | Some (vs, r') => Some (JArr vs, r')
                | None => None
                end
            end
          else if Ascii.eqb c dquote then
            match parse_chars r with
            | Some (str, r') => Some (JStr str, r')
            | None => None
            end
          else if Ascii.eqb c "t" then literal "rue" (JBool true) r
          else if Ascii.eqb c "f" then literal "alse" (JBool false) r
          else if Ascii.eqb c "n" then literal "ull" JNull r
          else
            match parse_number (String c r) with
            | Some (n, r') => Some (JNum n, r')
            | None => None
            end
      end
  end
with parse_elements (fuel : nat) (s : string) : option (list json * string) :=
  match fuel with
  | O => None
  | S fuel' =>
      match parse_value fuel' s with
      | Some (v, r) =>
          match starts_with "," (skip_ws r) with
          | Some r' =>
              match parse_elements fuel' r' with
              | Some (vs, r'') => Some (v :: vs, r'')
              | None => None
              end
          | None =>
              match starts_with "]" (skip_ws r) with
              | Some r' => Some ([v], r')
              | None => None
              end
          end
      | None => None
      end
  end
with parse_members (fuel : nat) (s : string)
  : option (list (string * json) * string) :=
  match fuel with
  | O => None
  | S fuel' =>
      match starts_with dquote (skip_ws s) with
      | Some r =>
          match parse_chars r with
          | Some (key, r1) =>
              match starts_with ":" (skip_ws r1) with
              | Some r2 =>
                  match parse_value fuel' r2 with
                  | Some (v, r3) =>
                      match starts_with "," (skip_ws r3) with
                      | Some r4 =>
                          match parse_members fuel' r4 with
                          | Some (ms, r5) => Some ((key, v) :: ms, r5)
                          | None => None
                          end
                      | None =>
                          match starts_with "}" (skip_ws r3) with
                          | Some r4 => Some ([(key, v)], r4)
                          | None => None
                          end
                      end
                  | None => None
                  end
              | None => None
              end
          | None => None
          end
      | None => None
      end
  end.

(** ** Measures used to reason about the parser *)

Definition no_digit_head (s : string) : Prop :=
  match s with
  | String c _ => digit_con c = None
  | EmptyString => True
  end.

(** What may follow a value: the end of the text, white space, a comma
    or a closing bracket. *)
Definition value_end (k : string) : bool :=
  match k with
  | EmptyString => true
  | String c _ =>
      is_ws c || Ascii.eqb c "," || Ascii.eqb c "]" || Ascii.eqb c "}"
  end.

(** What is proved of a value [v] by induction: its text is read back,
    whatever the layout, the text that follows and the spare fuel. *)
Definition read_back (size : json -> nat) (v : json) : Prop :=
  wf v = true ->
  forall (gap depth fuel : nat) (k : string),
    value_end k = true ->
    (size v <= fuel)%nat ->
    parse_value fuel (serialize gap depth v k) = Some (v, k).

(** The number of calls the parser nests to read a value back. *)
Fixpoint size (v : json) : nat :=
  match v with
  | JArr items => S (list_sum (map (fun x => S (size x)) items))
  | JObj members =>
      S (list_sum (map (fun m : string * json => let '(_, y) := m in S (size y)) members))
  | _ => 1%nat
  end.

(** JSON.parse(text): [None] stands for the SyntaxError it throws. No
    call is nested deeper than twice the length of the text. *)
Definition parse (text : string) : option json :=
  match parse_value (2 * String.length text + 2) text with
  | Some (v, r) =>
      match skip_ws r with
      | EmptyString => Some v
      | _ => None
      end
  | None => None
  end.

End Json.

(* ===================================================================== *)
(** * api_server.js *)
(* ===================================================================== *)

Module Server.
Import Json.

(** ** The world the server runs in *)

(** A file system entry: a file with its bytes, a directory, or an entry
    that exists but cannot be read. *)
Inductive node := Text (content : string) | Dir | Unreadable.

(** How a child process started by exec can fail. *)
Inductive exec_error := NonZeroExit (status : Z) | TimedOut | SpawnFailed.

(** What a child process did: its error, its standard output, and the
    file system it leaves behind. *)
Record exec_result := ExecResult {
  exec_err : option exec_error;
  exec_stdout : string;
  exec_files : gmap string node
}.

Record clock_reading := Reading { millis : Z; iso : string }.

(** The sources the program reads but does not control: the successive
    53-bit draws behind Math.random(), the successive readings of the
    clock, and what the successive child processes do, each given its
    command line and its time limit in milliseconds. *)
Record oracle := Oracle {
  random_bits : nat -> N;
  clock : nat -> clock_reading;
  child : nat -> string -> Z -> exec_result
}.

Record config := Config {
  win32 : bool;            (* process.platform === 'win32' *)
  cwd : string;            (* process.cwd() *)
  backend_dir : string     (* path.join(__dirname, '..', 'backend') *)
}.

Inductive ready_state := CONNECTING | OPEN | CLOSING | CLOSED.

(** A WebSocket of wss.clients: its state, the timer of its update loop
    and the texts sent to it so far, oldest first. *)
Record client := Client {
  readyState : ready_state;
  updateInterval : option nat;
  inbox : list string
}.

Inductive callback := LiveScanTick | UpdateTick (ws : nat).

Record timer := Timer { period : Z; action : callback }.

(** The fields of the RealTimeScanner object. *)
Record scanner := Scanner {
  isActive : bool;
  scanInterval : option nat;
  scanIntervalMs : Z;
  lastScanTime : option string;
  scanCount : Z
}.

Record world := World {
  env : oracle;
  cfg : config;
  randoms_drawn : nat;
  clock_reads : nat;
  children_run : nat;
  files : gmap string node;
  read_only : bool;                  (* writes to the disk fail *)
  cache : gmap string (json * Z);    (* dataCache.cache: key -> {data, timestamp} *)
  ttl : Z;                           (* dataCache.ttl *)
  timers : gmap nat timer;           (* the intervals that are set *)
  next_timer : nat;
  clients : list client;             (* wss.clients, by order of arrival *)
  realTimeScanner : scanner
}.

Definition with_files (f : gmap string node) (w : world) : world :=
  World (env w) (cfg w) (randoms_drawn w) (clock_reads w) (children_run w) f
    (read_only w) (cache w) (ttl w) (timers w) (next_timer w) (clients w)
    (realTimeScanner w).

Definition with_cache (c : gmap string (json * Z)) (w : world) : world :=
  World (env w) (cfg w) (randoms_drawn w) (clock_reads w) (children_run w)
    (files w) (read_only w) c (ttl w) (timers w) (next_timer w) (clients w)
    (realTimeScanner w).

Definition with_timers (t : gmap nat timer) (n : nat) (w : world) : world :=
  World (env w) (cfg w) (randoms_drawn w) (clock_reads w) (children_run w)
    (files w) (read_only w) (cache w) (ttl w) t n (clients w)
    (realTimeScanner w).

Definition with_clients (c : list client) (w : world) : world :=
  World (env w) (cfg w) (randoms_drawn w) (clock_reads w) (children_run w)
    (files w) (read_only w) (cache w) (ttl w) (timers w) (next_timer w) c
    (realTimeScanner w).

Definition with_scanner (s : scanner) (w : world) : world :=
  World (env w) (cfg w) (randoms_drawn w) (clock_reads w) (children_run w)
    (files w) (read_only w) (cache w) (ttl w) (timers w) (next_timer w)
    (clients w) s.

(** ** Computations: state and exceptions *)

Inductive completion (A : Type) := Normal (a : A) | Thrown (e : string).
Arguments Normal {A} a.
Arguments Thrown {A} e.

Definition js (A : Type) : Type := world -> completion A * world.

Definition ret {A} (a : A) : js A := fun w => (Normal a, w).

Definition throw {A} (e : string) : js A := fun w => (Thrown e, w).

Definition bind {A B} (m : js A) (k : A -> js B) : js B :=
  fun w =>
    match m w with
    | (Normal a, w') => k a w'
    | (Thrown e, w') => (Thrown e, w')
    end.

(** try { body } catch (error) { handler } *)
Definition try_catch {A} (body : js A) (handler : string -> js A) : js A :=
  fun w =>
    match body w with
    | (Normal a, w') => (Normal a, w')
    | (Thrown e, w') => handler e w'
    end.

Definition gets {A} (f : world -> A) : js A := fun w => (Normal (f w), w).

Definition modify (f : world -> world) : js unit := fun w => (Normal tt, f w).

#[export] Instance js_ret : MRet js := @ret.
#[export] Instance js_bind : MBind js := fun A B k m => bind m k.

(** ** Environment calls *)

(** Math.random(): the draw, below 2^53, over 2^53. *)
Definition Math_random : js num :=
  fun w =>
    let bits := (random_bits (env w) (randoms_drawn w) mod 2 ^ 53)%N in
    (Normal (Num (Z.of_N bits * 5 ^ 53) (-53)),
     World (env w) (cfg w) (S (randoms_drawn w)) (clock_reads w) (children_run w)
       (files w) (read_only w) (cache w) (ttl w) (timers w) (next_timer w)
       (clients w) (realTimeScanner w)).

Definition read_clock : js clock_reading :=
  fun w =>
    (Normal (clock (env w) (clock_reads w)),
     World (env w) (cfg w) (randoms_drawn w) (S (clock_reads w)) (children_run w)
       (files w) (read_only w) (cache w) (ttl w) (timers w) (next_timer w)
       (clients w) (realTimeScanner w)).

(** Date.now() *)
Definition Date_now : js Z := r ← read_clock; ret (millis r).

(** new Date().toISOString() *)
Definition now_iso : js string := r ← read_clock; ret (iso r).

(** Math.floor(Math.random() * n) + k *)
Definition random_int (n k : Z) : js Z :=
  r ← Math_random; ret (floor (double_mul r n) + k).

(** Math.random() * n + k *)
Definition random_scaled (n k : Z) : js num :=
  r ← Math_random; ret (double_add (double_mul r n) k).

Fixpoint pad_left (width : nat) (s : string) : string :=
  if (String.length s <? width)%nat
  then match width with
       | O => s
       | S w' => pad_left w' (String "0" s)
       end
  else s.

(** x.toFixed(2): the nearest multiple of 1/100, the larger one of two
    that are as near, with two digits after the point. *)
Definition toFixed2 (x : num) : string :=
  let neg := mant x <? 0 in
  let a := Num (Z.abs (mant x)) (expo x) in
  let n := floor (num_add (num_mul a (num_of_Z 100)) (Num 5 (-1))) in
  (if neg then "-" else "") ++ print_Z (n / 100) ++ "." ++ pad_left 2 (print_Z (n mod 100)).

(** fs.existsSync *)
Definition existsSync (path : string) : js bool :=
  gets (fun w => bool_decide (is_Some (files w !! path))).

(** fs.readFileSync(path, 'utf8') *)
Definition readFileSync (path : string) : js string :=
  fun w =>
    match files w !! path with
    | Some (Text content) => (Normal content, w)
    | Some Dir => (Thrown "EISDIR: illegal operation on a directory, read", w)
    | Some Unreadable => (Thrown "EACCES: permission denied, open", w)
    | None => (Thrown "ENOENT: no such file or directory, open", w)
    end.

(** fs.writeFileSync(path, text). The directory of the path is not
    looked at: where it is missing Node fails with ENOENT and this write
    succeeds; see [has_output_dir]. *)
Definition writeFileSync (path text : string) : js unit :=
  fun w =>
    if read_only w then (Thrown "EROFS: read-only file system, open", w)
    else
      match files w !! path with
      | Some Dir => (Thrown "EISDIR: illegal operation on a directory, open", w)
      | _ => (Normal tt, with_files (<[path := Text text]> (files w)) w)
      end.

(** fs.mkdirSync(path, { recursive: true }) *)
Definition mkdirSync (path : string) : js unit :=
  fun w =>
    if read_only w then (Thrown "EROFS: read-only file system, mkdir", w)
    else
      match files w !! path with
      | Some Dir => (Normal tt, w)
      | Some _ => (Thrown "EEXIST: file already exists, mkdir", w)
      | None => (Normal tt, with_files (<[path := Dir]> (files w)) w)
      end.

(** JSON.parse *)
Definition JSON_parse (text : string) : js json :=
  match parse text with
  | Some v => ret v
  | None => throw "SyntaxError: Unexpected token in JSON"
  end.

(** exec(command, { timeout }, callback): the next child process runs
    the command under the time limit; the callback gets its error and
    its output. *)
Definition exec (command : string) (timeout : Z) : js exec_result :=
  fun w =>
    let r := child (env w) (children_run w) command timeout in
    (Normal r,
     World (env w) (cfg w) (randoms_drawn w) (clock_reads w) (S (children_run w))
       (exec_files r) (read_only w) (cache w) (ttl w) (timers w) (next_timer w)
       (clients w) (realTimeScanner w)).

(** setInterval(callback, period) *)
Definition setInterval (a : callback) (ms : Z) : js nat :=
  fun w =>
    let id := next_timer w in
    (Normal id, with_timers (<[id := Timer ms a]> (timers w)) (S id) w).

(** clearInterval(id) *)
Definition clearInterval (id : nat) : js unit :=
  modify (fun w => with_timers (delete id (timers w)) (next_timer w) w).

(** ** Paths *)

Definition sep (c : config) : string :=
  if win32 c then String backslash EmptyString else "/".

(** path.join(dir, name) for a plain file name *)
Definition path_join (c : config) (dir name : string) : string :=
  dir ++ sep c ++ name.

Definition OUTPUT_DIR (c : config) : string :=
  if win32 c then path_join c (cwd c) "data" else "/tmp/soc_data".

Definition BACKEND_DIR (c : config) : string := backend_dir c.

Definition output_path (name : string) : js string :=
  gets (fun w => path_join (cfg w) (OUTPUT_DIR (cfg w)) name).

(** The last character of a name. *)
Fixpoint last_char (s : string) : option ascii :=
  match s with
  | EmptyString => None
  | String c EmptyString => Some c
  | String _ r => last_char r
  end.

(** ** class DataCache *)

(** get(key): the clock is read only when the key has an item. *)
Definition DataCache_get (key : string) : js json :=
  item ← gets (fun w => cache w !! key);
  match item with
  | Some (data, timestamp) =>
      now ← Date_now;
      limit ← gets ttl;
      if now - timestamp <? limit then mret data else mret JNull
  | None => mret JNull
  end.

(** set(key, data) *)
Definition DataCache_set (key : string) (data : json) : js unit :=
  now ← Date_now;
  modify (fun w => with_cache (<[key := (data, now)]> (cache w)) w).

(** clear() *)
Definition DataCache_clear : js unit :=
  modify (with_cache ∅).

(** ** readJSONFile *)

Definition readJSONFile (filePath : string) : js json :=
  try_catch
    (let cacheKey := filePath in
     cachedData ← DataCache_get cacheKey;
     if truthy cachedData then mret cachedData
     else
       found ← existsSync filePath;
       if negb found then mret JNull
       else
         text ← readFileSync filePath;
         data ← JSON_parse text;
         DataCache_set cacheKey data;;
         mret data)
    (fun error => mret JNull).

(** ** Object literals *)

(** { k1: e1, k2: e2, ... }: the expressions are evaluated in order. *)
Fixpoint members_literal (fields : list (string * js json))
  : js (list (string * json)) :=
  match fields with
  | [] => mret []
  | (k, e) :: rest =>
      v ← e;
      vs ← members_literal rest;
      mret ((k, v) :: vs)
  end.

Definition object_literal (fields : list (string * js json)) : js json :=
  ms ← members_literal fields; mret (JObj ms).

Definition const (v : json) : js json := mret v.

Definition random_field (n k : Z) : js json :=
  z ← random_int n k; mret (JInt z).

Definition timestamp_field : js json := t ← now_iso; mret (JStr t).

(** `192.168.${...}.${...}`: two draws below 255 *)
Definition random_ip : js json :=
  a ← random_int 255 0;
  b ← random_int 255 0;
  mret (JStr ("192.168." ++ print_Z a ++ "." ++ print_Z b)).

(** `user${...}` *)
Definition random_user : js json :=
  a ← random_int 100 0; mret (JStr ("user" ++ print_Z a)).

(** [e1 || e2]: the second expression is evaluated only when the first
    value is falsy. *)
Definition or_else (e1 e2 : js json) : js json :=
  v ← e1; if truthy v then mret v else e2.

(** ** generateSampleData *)

Definition generateSampleData (dataType : string) : js json :=
  now ← now_iso;
  if String.eqb dataType "login_summary" then
    object_literal
      [("timestamp", const (JStr now));
       ("total_failed_logins", random_field 50 10);
       ("total_successful_logins", random_field 200 50);
       ("unique_attacking_ips", random_field 20 5);
       ("brute_force_attempts", random_field 15 3)]
  else if String.eqb dataType "failed_logins" then
    item ← object_literal
      [("timestamp", const (JStr now));
       ("ip", random_ip);
       ("username", random_user);
       ("attempts", random_field 10 1);
       ("status", const (JStr "failed"))];
    mret (JArr [item])
  else if String.eqb dataType "security_metrics" then
    object_literal
      [("system_metrics", object_literal
          [("cpu_usage_percent", random_field 30 20);
           ("memory_usage_percent", random_field 40 30);
           ("disk_usage_percent", random_field 20 40)]);
       ("network_metrics", object_literal
          [("active_connections", random_field 100 50);
           ("listening_ports", random_field 20 10);
           ("blocked_ips", random_field 15 5)]);
       ("timestamp", const (JStr now))]
  else mret (JObj []).

(** ** runMonitoringScript *)

Definition gitBashPath : string :=
  "C:" ++ String backslash ("Program Files" ++ String backslash ("Git"
    ++ String backslash ("bin" ++ String backslash "bash.exe"))).

Definition in_quotes (s : string) : string := Report.quoted s.

(** The promise the function returns: [Normal] when it is resolved,
    [Thrown] when it is rejected. *)
Definition runMonitoringScript (scriptName : string) : js string :=
  c ← gets cfg;
  let scriptPath := path_join c (BACKEND_DIR c) scriptName in
  found ← existsSync scriptPath;
  if negb found then mret "Script not found - using sample data"
  else if win32 c then
    bash ← existsSync gitBashPath;
    if (bash : bool) then
      r ← exec (in_quotes gitBashPath ++ " " ++ in_quotes scriptPath) 30000;
      match exec_err r with
      | Some error => mret "Git Bash execution failed - using sample data"
      | None => mret (exec_stdout r)
      end
    else mret "Git Bash not available - using sample data"
  else
    r ← exec ("bash " ++ in_quotes scriptPath) 30000;
    match exec_err r with
    | Some error => mret "Script execution failed - using sample data"
    | None => mret (exec_stdout r)
    end.

(** ** GET /api/dashboard *)

Record response := Response { status : Z; body : json }.

(** readJSONFile(path.join(OUTPUT_DIR, name)) || fallback *)
Definition section (name : string) (fallback : js json) : js json :=
  or_else (path ← output_path name; readJSONFile path) fallback.

Definition dashboard_fields : list (string * js json) :=
    [("timestamp", timestamp_field);
     ("login_summary", section "login_summary.json" (generateSampleData "login_summary"));
     ("failed_logins", section "failed_logins.json" (generateSampleData "failed_logins"));
     ("top_attackers", section "top_attackers.json" (const (JArr [])));
     ("brute_force_alerts", section "brute_force_alerts.json" (const (JArr [])));
     ("portscans", section "portscans.json" (const (JArr [])));
     ("open_ports", section "open_ports.json" (const (JArr [])));
     ("connection_stats", section "connection_stats.json" (const (JObj [])));
     ("suspicious_processes", section "suspicious_processes.json" (const (JArr [])));
     ("top_processes", section "top_processes.json" (const (JArr [])));
     ("process_summary", section "process_summary.json" (const (JObj [])));
     ("file_integrity", section "file_integrity.json" (const (JArr [])));
     ("recent_changes", section "recent_changes.json" (const (JArr [])));
     ("ip_geolocation", section "ip_geolocation.json" (const (JArr [])));
     ("attack_by_country", section "attack_by_country.json" (const (JArr [])));
     ("threat_map", section "threat_map.json" (const (JArr [])));
     ("executive_summary", section "executive_summary.json" (const (JObj [])));
     ("security_metrics", section "security_metrics.json" (generateSampleData "security_metrics"));
     ("alert_summary", section "alert_summary.json" (const (JObj [])));
     ("soc_status", section "soc_status.json"
        (const (JObj [("status", JStr "operational")])))].

Definition dashboardData : js json := object_literal dashboard_fields.

(** The handler of the route. The lines it logs are left out, with the
    readings of the clock that stamp them. *)
Definition get_api_dashboard : js response :=
  try_catch
    (let cacheKey := "dashboard_data" in
     cachedData ← DataCache_get cacheKey;
     if truthy cachedData then mret (Response 200 cachedData)
     else
       runMonitoringScript "generate_report.sh";;
       data ← dashboardData;
       DataCache_set cacheKey data;;
       mret (Response 200 data))
    (fun error =>
       mret (Response 500
         (JObj [("error", JStr "Failed to generate dashboard data");
                ("message", JStr error)]))).

(** POST /api/scan/run *)
Definition post_api_scan_run : js response :=
  try_catch
    (runMonitoringScript "generate_report.sh";;
     DataCache_clear;;
     mret (Response 200
       (JObj [("status", JStr "success"); ("message", JStr "Manual scan completed")])))
    (fun error =>
       mret (Response 500 (JObj [("error", JStr "Failed to run manual scan")]))).

(** ** WebSocket server *)

(** ws.send(text): delivered on an open socket, an exception while the
    socket is still connecting, dropped once it is closing or closed. *)
Definition ws_send (ws : nat) (text : string) : js unit :=
  fun w =>
    match clients w !! ws with
    | Some c =>
        match readyState c with
        | OPEN =>
            (Normal tt,
             with_clients
               (<[ws := Client OPEN (updateInterval c) (inbox c ++ [text])]> (clients w)) w)
        | CONNECTING => (Thrown "WebSocket is not open: readyState 0 (CONNECTING)", w)
        | CLOSING | CLOSED => (Normal tt, w)
        end
    | None => (Normal tt, w)
    end.

(** The three messages the server pushes. *)
Definition connection_message (now : string) : json :=
  JObj [("type", JStr "connection");
        ("message", JStr "Connected to SOC Dashboard");
        ("timestamp", JStr now)].

Definition update_message (socStatus alertSummary : json) (now : string) : json :=
  JObj [("type", JStr "update");
        ("data", JObj [("soc_status", socStatus);
                       ("alert_summary", alertSummary);
                       ("timestamp", JStr now)])].

Definition live_update_message (liveData : json) (now : string) : json :=
  JObj [("type", JStr "live_update");
        ("data", liveData);
        ("timestamp", JStr now)].

(** The body of setInterval(..., 30000) in the connection handler. *)
Definition send_update (ws : nat) : js unit :=
  try_catch
    (socStatus ← section "soc_status.json"
                   (const (JObj [("status", JStr "operational")]));
     alertSummary ← section "alert_summary.json" (const (JObj []));
     now ← now_iso;
     ws_send ws (stringify (update_message socStatus alertSummary now)))
    (fun error => mret tt).

(** wss.on('connection', ws => ...): the server has added the open
    socket to wss.clients; the handler greets it and starts its update
    loop. *)
Definition on_connection : js unit :=
  ws ← gets (fun w => length (clients w));
  modify (fun w => with_clients (clients w ++ [Client OPEN None []]) w);;
  now ← now_iso;
  ws_send ws (stringify (connection_message now));;
  id ← setInterval (UpdateTick ws) 30000;
  modify (fun w =>
    with_clients (alter (fun c => Client (readyState c) (Some id) (inbox c)) ws (clients w)) w).

Definition clear_update_loop (ws : nat) : js unit :=
  c ← gets (fun w => clients w !! ws);
  match c with
  | Some (Client _ (Some id) _) => clearInterval id
  | _ => mret tt
  end.

(** ws.on('close', ...): the socket is closed *)
Definition on_close (ws : nat) : js unit :=
  modify (fun w =>
    with_clients (alter (fun c => Client CLOSED (updateInterval c) (inbox c)) ws (clients w)) w);;
  clear_update_loop ws.

(** ws.on('error', ...) *)
Definition on_error (ws : nat) : js unit := clear_update_loop ws.

(** ** class RealTimeScanner *)

(** constructor() *)
Definition new_scanner : scanner := Scanner false None 10000 None 0.

Definition pick (l : list string) (i : Z) : string :=
  nth (Z.to_nat i) l "undefined".

Definition pick_field (l : list string) : js json :=
  i ← random_int (Z.of_nat (length l)) 0; mret (JStr (pick l i)).

(** for (let i = 0; i < count; i++) items.push(item) *)
Fixpoint push_times (count : nat) (item : js json) : js (list json) :=
  match count with
  | O => mret []
  | S n => v ← item; vs ← push_times n item; mret (v :: vs)
  end.

Definition array_of (n k : Z) (item : js json) : js json :=
  count ← random_int n k;
  items ← push_times (Z.to_nat count) item;
  mret (JArr items).

Definition getLiveLoginData : js json :=
  object_literal
    [("timestamp", timestamp_field);
     ("total_failed_logins", random_field 50 10);
     ("total_successful_logins", random_field 200 50);
     ("unique_attacking_ips", random_field 20 5);
     ("brute_force_attempts", random_field 15 3)].

Definition getLiveFailedLogins : js json :=
  array_of 5 1
    (object_literal
       [("timestamp", timestamp_field);
        ("ip", random_ip);
        ("username", random_user);
        ("attempts", random_field 10 1);
        ("status", const (JStr "failed"))]).

Definition getLiveTopAttackers : js json :=
  array_of 5 1
    (object_literal
       [("ip", random_ip);
        ("attempts", random_field 50 10);
        ("country", pick_field ["US"; "CN"; "RU"; "DE"; "FR"]);
        ("last_seen", timestamp_field)]).

Definition getLivePortScans : js json :=
  array_of 3 1
    (object_literal
       [("timestamp", timestamp_field);
        ("source_ip", random_ip);
        ("target_ports",
           n ← random_int 3 1;
           mret (JArr (take (Z.to_nat n) [JInt 22; JInt 80; JInt 443; JInt 8080; JInt 3306])));
        ("scan_type", pick_field ["TCP"; "UDP"]);
        ("duration", random_field 300 60)]).

Definition suspiciousNames : list string :=
  ["netcat"; "nmap"; "metasploit"; "backdoor"; "rootkit"].

Definition getLiveSuspiciousProcesses : js json :=
  array_of 2 0
    (object_literal
       [("process_name", pick_field suspiciousNames);
        ("pid", random_field 10000 1000);
        ("cpu_usage", x ← random_scaled 10 0; mret (JStr (toFixed2 x)));
        ("memory_usage", x ← random_scaled 5 0; mret (JStr (toFixed2 x)));
        ("command",
           i ← random_int (Z.of_nat (length suspiciousNames)) 0;
           mret (JStr ("/usr/bin/" ++ pick suspiciousNames i)));
        ("severity", const (JStr "high"));
        ("timestamp", timestamp_field)]).

Definition commonPorts : list Z := [22; 80; 443; 8080; 3306; 5432; 27017].

Definition getLiveOpenPorts : js json :=
  array_of 5 2
    (object_literal
       [("port",
           i ← random_int (Z.of_nat (length commonPorts)) 0;
           mret (match commonPorts !! Z.to_nat i with
                 | Some p => JInt p
                 | None => JNull
                 end));
        ("service",
           pick_field ["SSH"; "HTTP"; "HTTPS"; "HTTP-Proxy"; "MySQL"; "PostgreSQL"; "MongoDB"]);
        ("state", const (JStr "LISTEN"));
        ("process", a ← random_int 1000 0; mret (JStr ("process_" ++ print_Z a)));
        ("timestamp", timestamp_field)]).

Definition getLiveConnectionStats : js json :=
  object_literal
    [("established_connections", random_field 200 100);
     ("listening_ports", random_field 20 10);
     ("active_network_sessions", random_field 300 150);
     ("timestamp", timestamp_field)].

Definition scaled_field (n k : Z) : js json :=
  x ← random_scaled n k; mret (JNum x).

Definition getLiveSecurityMetrics : js json :=
  object_literal
    [("system_metrics", object_literal
        [("memory_usage_percent", scaled_field 30 50);
         ("cpu_usage_percent", scaled_field 40 20);
         ("disk_usage_percent", scaled_field 30 40)]);
     ("network_metrics", object_literal
        [("active_connections", random_field 200 100);
         ("listening_ports", random_field 20 10);
         ("blocked_ips", random_field 15 5)])].

Definition getLiveAlertSummary : js json :=
  object_literal
    [("total_alerts", random_field 20 5);
     ("critical_alerts", random_field 5 1);
     ("high_alerts", random_field 8 2);
     ("medium_alerts", random_field 10 3);
     ("low_alerts", random_field 15 5);
     ("timestamp", timestamp_field)].

Definition getLiveExecutiveSummary : js json :=
  object_literal
    [("overall_threat_level", pick_field ["Low"; "Medium"; "High"]);
     ("active_threats", random_field 10 1);
     ("system_health", random_field 40 60);
     ("security_score", random_field 30 70);
     ("recommendations",
        const (JArr [JStr "Monitor failed login attempts";
                     JStr "Review suspicious processes";
                     JStr "Check open ports";
                     JStr "Update security policies"]));
     ("timestamp", timestamp_field)].

Definition gatherLiveData : js json :=
  object_literal
    [("timestamp", timestamp_field);
     ("login_summary", getLiveLoginData);
     ("failed_logins", getLiveFailedLogins);
     ("top_attackers", getLiveTopAttackers);
     ("portscans", getLivePortScans);
     ("suspicious_processes", getLiveSuspiciousProcesses);
     ("open_ports", getLiveOpenPorts);
     ("connection_stats", getLiveConnectionStats);
     ("security_metrics", getLiveSecurityMetrics);
     ("alert_summary", getLiveAlertSummary);
     ("executive_summary", getLiveExecutiveSummary)].

(** The files of saveLiveData: name, and the property of liveData that
    goes into it. *)
Definition filesToSave : list (string * string) :=
  [("login_summary.json", "login_summary");
   ("failed_logins.json", "failed_logins");
   ("top_attackers.json", "top_attackers");
   ("portscans.json", "portscans");
   ("suspicious_processes.json", "suspicious_processes");
   ("open_ports.json", "open_ports");
   ("connection_stats.json", "connection_stats");
   ("security_metrics.json", "security_metrics");
   ("alert_summary.json", "alert_summary");
   ("executive_summary.json", "executive_summary")].

Fixpoint write_all (liveData : json) (l : list (string * string)) : js unit :=
  match l with
  | [] => mret tt
  | (name, property) :: rest =>
      filePath ← output_path name;
      match get property liveData with
      | Some data => writeFileSync filePath (stringify_pretty data)
      | None => throw "TypeError: the data argument must be a string"
      end;;
      write_all liveData rest
  end.

Definition saveLiveData (liveData : json) : js unit :=
  try_catch
    (dir ← gets (fun w => OUTPUT_DIR (cfg w));
     found ← existsSync dir;
     (if negb found then mkdirSync dir else mret tt);;
     write_all liveData filesToSave)
    (fun error => mret tt).

(** wss.clients.forEach(client => ...), from socket number [ws] on *)
Fixpoint broadcast_from (liveData : json) (ws count : nat) : js unit :=
  match count with
  | O => mret tt
  | S n =>
      c ← gets (fun w => clients w !! ws);
      match c with
      | Some (Client OPEN _ _) =>
          now ← now_iso;
          ws_send ws (stringify (live_update_message liveData now))
      | _ => mret tt
      end;;
      broadcast_from liveData (S ws) n
  end.

Definition broadcastLiveUpdate (liveData : json) : js unit :=
  count ← gets (fun w => length (clients w));
  broadcast_from liveData 0 count.

Definition update_scanner (f : scanner -> scanner) : js unit :=
  modify (fun w => with_scanner (f (realTimeScanner w)) w).

Definition performLiveScan : js unit :=
  try_catch
    (now ← now_iso;
     update_scanner (fun s =>
       Scanner (isActive s) (scanInterval s) (scanIntervalMs s) (Some now) (scanCount s));;
     update_scanner (fun s =>
       Scanner (isActive s) (scanInterval s) (scanIntervalMs s) (lastScanTime s) (scanCount s + 1));;
     liveData ← gatherLiveData;
     saveLiveData liveData;;
     broadcastLiveUpdate liveData)
    (fun error => mret tt).

Definition startRealTimeScanning : js unit :=
  s ← gets realTimeScanner;
  if isActive s then mret tt
  else
    update_scanner (fun s =>
      Scanner true (scanInterval s) (scanIntervalMs s) (lastScanTime s) (scanCount s));;
    update_scanner (fun s =>
      Scanner (isActive s) (scanInterval s) (scanIntervalMs s) (lastScanTime s) 0);;
    ms ← gets (fun w => scanIntervalMs (realTimeScanner w));
    id ← setInterval LiveScanTick ms;
    update_scanner (fun s =>
      Scanner (isActive s) (Some id) (scanIntervalMs s) (lastScanTime s) (scanCount s));;
    performLiveScan.

Definition stopRealTimeScanning : js unit :=
  s ← gets realTimeScanner;
  if negb (isActive s) then mret tt
  else
    update_scanner (fun s =>
      Scanner false (scanInterval s) (scanIntervalMs s) (lastScanTime s) (scanCount s));;
    match scanInterval s with
    | Some id =>
        clearInterval id;;
        update_scanner (fun s =>
          Scanner (isActive s) None (scanIntervalMs s) (lastScanTime s) (scanCount s))
    | None => mret tt
    end.

(** POST /api/scan/start-realtime *)
Definition post_api_scan_start_realtime : js response :=
  try_catch
    (startRealTimeScanning;;
     mret (Response 200
       (JObj [("status", JStr "success"); ("message", JStr "Real-time scanning started")])))
    (fun error =>
       mret (Response 500 (JObj [("error", JStr "Failed to start real-time scanning")]))).

(** POST /api/scan/stop-realtime *)
Definition post_api_scan_stop_realtime : js response :=
  try_catch
    (stopRealTimeScanning;;
     mret (Response 200
       (JObj [("status", JStr "success"); ("message", JStr "Real-time scanning stopped")])))
    (fun error =>
       mret (Response 500 (JObj [("error", JStr "Failed to stop real-time scanning")]))).

(** GET /api/scan/status *)
Definition get_api_scan_status : js response :=
  s ← gets realTimeScanner;
  mret (Response 200
    (JObj [("isActive", JBool (isActive s));
           ("lastScanTime", match lastScanTime s with Some t => JStr t | None => JNull end);
           ("scanCount", JInt (scanCount s))])).

(** ** The server as a machine *)

(** What can happen to the running server. *)
Inductive event :=
| Boot                                   (* the start-up timeout: start scanning *)
| GetDashboard
| PostScanRun
| PostStart
| PostStop
| GetStatus
| Connect
| Close (ws : nat)
| Error (ws : nat)
| TimerFires (id : nat)
| Outside (f : gmap string node) (ro : bool).  (* other programs change the disk *)

Definition forget {A} (m : js A) : js unit := m;; mret tt.

(** A timer that fires runs its callback; a rejected promise of the
    callback is lost. *)
Definition fire (id : nat) : js unit :=
  t ← gets (fun w => timers w !! id);
  match t with
  | Some (Timer _ LiveScanTick) => performLiveScan
  | Some (Timer _ (UpdateTick ws)) => send_update ws
  | None => mret tt
  end.

Definition handle (e : event) : js unit :=
  match e with
  | Boot => try_catch startRealTimeScanning (fun error => mret tt)
  | GetDashboard => forget get_api_dashboard
  | PostScanRun => forget post_api_scan_run
  | PostStart => forget post_api_scan_start_realtime
  | PostStop => forget post_api_scan_stop_realtime
  | GetStatus => forget get_api_scan_status
  | Connect => on_connection
  | Close ws => on_close ws
  | Error ws => on_error ws
  | TimerFires id => fire id
  | Outside f ro =>
      modify (fun w =>
        World (env w) (cfg w) (randoms_drawn w) (clock_reads w) (children_run w)
          f ro (cache w) (ttl w) (timers w) (next_timer w) (clients w)
          (realTimeScanner w))
  end.

Definition step (e : event) (w : world) : world := snd (handle e w).

(** The server right after it is loaded: an empty cache of 30 seconds,
    no timer, no client, a fresh scanner. *)
Definition boot (o : oracle) (c : config) (f : gmap string node) (ro : bool) : world :=
  World o c 0 0 0 f ro ∅ 30000 ∅ 0 [] new_scanner.

(** The server after a sequence of events. *)
Definition run (events : list event) (w : world) : world :=
  fold_left (fun w e => step e w) events w.

(** ** What is said of a computation *)

(** The value of a normal completion. *)
Definition normal {A} (c : completion A) : option A :=
  match c with
  | Normal a => Some a
  | Thrown _ => None
  end.

(** [returns m Q]: from every world, [m] completes normally, with a
    value that satisfies [Q]. *)
Definition returns {A} (m : js A) (Q : A -> Prop) : Prop :=
  forall w, match fst (m w) with Normal a => Q a | Thrown _ => False end.

(** [total m]: [m] never throws. *)
Definition total {A} (m : js A) : Prop := returns m (fun _ => True).

(** [preserves I m]: [m] takes a world where [I] holds to a world where
    [I] holds, however it completes. *)
Definition preserves {A} (I : world -> Prop) (m : js A) : Prop :=
  forall w, I w -> I (snd (m w)).

(** ** The contract with the presentation layer *)

Definition section_keys : list string :=
  ["login_summary"; "failed_logins"; "top_attackers"; "portscans"; "open_ports";
   "connection_stats"; "suspicious_processes"; "top_processes"; "process_summary";
   "file_integrity"; "recent_changes"; "ip_geolocation"; "attack_by_country";
   "threat_map"; "security_metrics"; "alert_summary"; "executive_summary"].

Definition has_all_sections (v : json) : bool :=
  forallb (fun k => has_key k v) section_keys.

(** The sections of a live scan. *)
Definition live_keys : list string :=
  ["timestamp"; "login_summary"; "failed_logins"; "top_attackers"; "portscans";
   "suspicious_processes"; "open_ports"; "connection_stats"; "security_metrics";
   "alert_summary"; "executive_summary"].

(** The values the dashboard derives from a snapshot: the threat level
    and the alert counts. *)
Definition threat_level_of (snapshot : json) : option json :=
  summary ← get "executive_summary" snapshot; get "overall_threat_level" summary.

Definition alert_counts_of (snapshot : json) : list (option json) :=
  map (fun k => summary ← get "alert_summary" snapshot; get k summary)
    ["total_alerts"; "critical_alerts"; "high_alerts"; "medium_alerts"; "low_alerts"].




(** ** What holds of the server while it runs *)

(** [keeps f m]: [m] leaves the part [f] of the world as it is. *)
Definition keeps {A X} (f : world -> X) (m : js A) : Prop :=
  forall w, f (snd (m w)) = f w.

(** The cached dashboard is a whole dashboard. *)
Definition cache_ok (w : world) : Prop :=
  forall v t, cache w !! "dashboard_data" = Some (v, t) -> has_all_sections v = true.


(** The timers, the scanner and the update loops of the sockets. *)
Record control_ok (w : world) : Prop := ControlOk {
  (* timer numbers are not used twice *)
  ok_fresh : forall id t, timers w !! id = Some t -> (id < next_timer w)%nat;
  ok_interval_fresh : forall id,
    scanInterval (realTimeScanner w) = Some id -> (id < next_timer w)%nat;
  (* a scan timer is the one of the running scanner *)
  ok_scan_timer : forall id t,
    timers w !! id = Some t -> action t = LiveScanTick ->
    isActive (realTimeScanner w) = true
    /\ scanInterval (realTimeScanner w) = Some id /\ period t = 10000;
  (* a running scanner has its timer *)
  ok_active :
    isActive (realTimeScanner w) = true ->
    exists id, scanInterval (realTimeScanner w) = Some id
               /\ timers w !! id = Some (Timer 10000 LiveScanTick);
  ok_interval_ms : scanIntervalMs (realTimeScanner w) = 10000;
  (* the update loop of a socket is not the scan timer *)
  ok_clients : forall i c id,
    clients w !! i = Some c -> updateInterval c = Some id ->
    (id < next_timer w)%nat /\ scanInterval (realTimeScanner w) <> Some id
}.

(** The part of the world [control_ok] speaks of. *)
Definition control (w : world)
  : gmap nat timer * nat * (bool * option nat * Z) * list (option nat) :=
  (timers w, next_timer w,
   (isActive (realTimeScanner w), scanInterval (realTimeScanner w),
    scanIntervalMs (realTimeScanner w)),
   updateInterval <$> clients w).

(** The number of timers that start live scans. *)
Definition is_scan_tick (a : callback) : bool :=
  match a with LiveScanTick => true | UpdateTick _ => false end.

Definition scan_timers (w : world) : nat :=
  base.size (filter (fun it : nat * timer => is_scan_tick (action (snd it)) = true) (timers w)).

(** The events that do not start the scanner. *)
Definition no_start (e : event) : bool :=
  match e with Boot | PostStart => false | _ => true end.


(** ** The probe runner of the specification *)

(** The result of a probe, as the specification has it. *)
Record probe_result := ProbeResult {
  ok : bool;
  payload : string;
  error : option exec_error
}.

(** The runner the specification describes: an attempt that fails
    otherwise than by its time limit is made again, up to [retries]
    times, each attempt under the time limit; the first success ends the
    run; when no attempt is left the result carries the last error. *)
Fixpoint spec_probe_run (retries : nat) (timeout : Z) (command : string) : js probe_result :=
  r ← exec command timeout;
  match exec_err r with
  | None => mret (ProbeResult true (exec_stdout r) None)
  | Some TimedOut => mret (ProbeResult false EmptyString (Some TimedOut))
  | Some e =>
      match retries with
      | O => mret (ProbeResult false EmptyString (Some e))
      | S n => spec_probe_run n timeout command
      end
  end.

(** The entry of the cache that get(key) returns in world [w]: the item
    is there, younger than the ttl at the next reading of the clock. *)
Definition cache_hit (key : string) (w : world) : option json :=
  match cache w !! key with
  | Some (data, timestamp) =>
      if millis (clock (env w) (clock_reads w)) - timestamp <? ttl w
      then Some data else None
  | None => None
  end.


(** ** What runMonitoringScript does *)

(** [only_clock w w']: nothing but readings of the clock separates [w']
    from [w]. *)
Definition only_clock (w w' : world) : Prop :=
  w' = World (env w) (cfg w) (randoms_drawn w) (clock_reads w') (children_run w)
         (files w) (read_only w) (cache w) (ttl w) (timers w) (next_timer w)
         (clients w) (realTimeScanner w)
  /\ (clock_reads w <= clock_reads w')%nat.

(** Whether runMonitoringScript finds the script, and the shell to run
    it with: bash is taken for granted, Git Bash is looked for. *)
Definition script_found (scriptName : string) (w : world) : bool :=
  bool_decide (is_Some (files w !! path_join (cfg w) (BACKEND_DIR (cfg w)) scriptName)).

Definition shell_found (w : world) : bool :=
  negb (win32 (cfg w)) || bool_decide (is_Some (files w !! gitBashPath)).

(** The command line it gives to exec, and the notice it resolves with
    when the child process fails. *)
Definition command_line (c : config) (scriptPath : string) : string :=
  if win32 c then in_quotes gitBashPath ++ " " ++ in_quotes scriptPath
  else "bash " ++ in_quotes scriptPath.

Definition failure_notice (c : config) : string :=
  if win32 c then "Git Bash execution failed - using sample data"
  else "Script execution failed - using sample data".

(** ** The sections of the dashboard *)






(** [later w w']: [w'] is [w] or comes after it: the same sources, read
    as far or further. *)
Definition later (w w' : world) : Prop :=
  env w' = env w
  /\ (randoms_drawn w <= randoms_drawn w')%nat
  /\ (clock_reads w <= clock_reads w')%nat.





(** [moves_on m]: [m] takes the server to a later world. *)
Definition moves_on {A} (m : js A) : Prop := forall w, later w (snd (m w)).



(** ** The data endpoints *)

(** GET /api/logins *)
Definition get_api_logins : js response :=
  try_catch
    (let cacheKey := "login_data" in
     cachedData ← DataCache_get cacheKey;
     if truthy cachedData then mret (Response 200 cachedData)
     else
       runMonitoringScript "monitor_logins.sh";;
       loginData ← object_literal
         [("summary", section "login_summary.json" (generateSampleData "login_summary"));
          ("failed_logins", section "failed_logins.json" (generateSampleData "failed_logins"));
          ("top_attackers", section "top_attackers.json" (const (JArr [])));
          ("brute_force_alerts", section "brute_force_alerts.json" (const (JArr [])))];
       DataCache_set cacheKey loginData;;
       mret (Response 200 loginData))
    (fun error =>
       mret (Response 500 (JObj [("error", JStr "Failed to get login monitoring data")]))).

(** GET /api/network *)
Definition get_api_network : js response :=
  try_catch
    (let cacheKey := "network_data" in
     cachedData ← DataCache_get cacheKey;
     if truthy cachedData then mret (Response 200 cachedData)
     else
       runMonitoringScript "detect_portscans.sh";;
       networkData ← object_literal
         [("portscans", section "portscans.json" (const (JArr [])));
          ("open_ports", section "open_ports.json" (const (JArr [])));
          ("connection_stats", section "connection_stats.json" (const (JObj [])));
          ("network_listeners", section "network_listeners.json" (const (JArr [])));
          ("vulnerable_ports", section "vulnerable_ports.json" (const (JArr [])))];
       DataCache_set cacheKey networkData;;
       mret (Response 200 networkData))
    (fun error =>
       mret (Response 500 (JObj [("error", JStr "Failed to get network monitoring data")]))).

(** GET /api/processes *)
Definition get_api_processes : js response :=
  try_catch
    (let cacheKey := "process_data" in
     cachedData ← DataCache_get cacheKey;
     if truthy cachedData then mret (Response 200 cachedData)
     else
       runMonitoringScript "check_processes.sh";;
       processData ← object_literal
         [("suspicious_processes", section "suspicious_processes.json" (const (JArr [])));
          ("top_processes", section "top_processes.json" (const (JArr [])));
          ("network_processes", section "network_processes.json" (const (JArr [])));
          ("root_processes", section "root_processes.json" (const (JArr [])));
          ("process_summary", section "process_summary.json" (const (JObj [])))];
       DataCache_set cacheKey processData;;
       mret (Response 200 processData))
    (fun error =>
       mret (Response 500 (JObj [("error", JStr "Failed to get process monitoring data")]))).

(** GET /api/files *)
Definition get_api_files : js response :=
  try_catch
    (let cacheKey := "file_data" in
     cachedData ← DataCache_get cacheKey;
     if truthy cachedData then mret (Response 200 cachedData)
     else
       runMonitoringScript "monitor_files.sh";;
       fileData ← object_literal
         [("file_integrity", section "file_integrity.json" (const (JArr [])));
          ("recent_changes", section "recent_changes.json" (const (JArr [])));
          ("suspicious_files", section "suspicious_files.json" (const (JArr [])))];
       DataCache_set cacheKey fileData;;
       mret (Response 200 fileData))
    (fun error =>
       mret (Response 500 (JObj [("error", JStr "Failed to get file monitoring data")]))).

(** GET /api/threats *)
Definition get_api_threats : js response :=
  try_catch
    (let cacheKey := "threat_data" in
     cachedData ← DataCache_get cacheKey;
     if truthy cachedData then mret (Response 200 cachedData)
     else
       runMonitoringScript "geolocate_ips.sh";;
       threatData ← object_literal
         [("ip_geolocation", section "ip_geolocation.json" (const (JArr [])));
          ("attack_by_country", section "attack_by_country.json" (const (JArr [])));
          ("threat_map", section "threat_map.json" (const (JArr [])));
          ("threat_intelligence", section "threat_intelligence.json" (const (JArr [])))];
       DataCache_set cacheKey threatData;;
       mret (Response 200 threatData))
    (fun error =>
       mret (Response 500 (JObj [("error", JStr "Failed to get threat intelligence data")]))).

(** The routes that answer from the cache: app.get(path, handler). *)
Inductive route :=
| ApiDashboard | ApiLogins | ApiNetwork | ApiProcesses | ApiFiles | ApiThreats.

Definition handler (r : route) : js response :=
  match r with
  | ApiDashboard => get_api_dashboard
  | ApiLogins => get_api_logins
  | ApiNetwork => get_api_network
  | ApiProcesses => get_api_processes
  | ApiFiles => get_api_files
  | ApiThreats => get_api_threats
  end.

(** The cacheKey of each handler. *)
Definition cacheKey (r : route) : string :=
  match r with
  | ApiDashboard => "dashboard_data"
  | ApiLogins => "login_data"
  | ApiNetwork => "network_data"
  | ApiProcesses => "process_data"
  | ApiFiles => "file_data"
  | ApiThreats => "threat_data"
  end.

(** The script each handler runs when the cache has no answer. *)
Definition script (r : route) : string :=
  match r with
  | ApiDashboard => "generate_report.sh"
  | ApiLogins => "monitor_logins.sh"
  | ApiNetwork => "detect_portscans.sh"
  | ApiProcesses => "check_processes.sh"
  | ApiFiles => "monitor_files.sh"
  | ApiThreats => "geolocate_ips.sh"
  end.

(** The keys of the object each handler builds. *)
Definition answer_keys (r : route) : list string :=
  match r with
  | ApiDashboard =>
      ["timestamp"; "login_summary"; "failed_logins"; "top_attackers";
       "brute_force_alerts"; "portscans"; "open_ports"; "connection_stats";
       "suspicious_processes"; "top_processes"; "process_summary"; "file_integrity";
       "recent_changes"; "ip_geolocation"; "attack_by_country"; "threat_map";
       "executive_summary"; "security_metrics"; "alert_summary"; "soc_status"]
  | ApiLogins => ["summary"; "failed_logins"; "top_attackers"; "brute_force_alerts"]
  | ApiNetwork =>
      ["portscans"; "open_ports"; "connection_stats"; "network_listeners";
       "vulnerable_ports"]
  | ApiProcesses =>
      ["suspicious_processes"; "top_processes"; "network_processes"; "root_processes";
       "process_summary"]
  | ApiFiles => ["file_integrity"; "recent_changes"; "suspicious_files"]
  | ApiThreats =>
      ["ip_geolocation"; "attack_by_country"; "threat_map"; "threat_intelligence"]
  end.

(** ** The files of a live scan *)

(** The disk after the writes of saveLiveData for the files [l]. *)
Definition saved (c : config) (liveData : json) (l : list (string * string))
    (f : gmap string node) : gmap string node :=
  fold_left
    (fun (f : gmap string node) (file : string * string) =>
       match get (snd file) liveData with
       | Some data =>
           <[path_join c (OUTPUT_DIR c) (fst file) := Text (stringify_pretty data)]> f
       | None => f
       end)
    l f.

Definition is_dir (n : option node) : bool :=
  match n with Some Dir => true | _ => false end.

(** A disk where saveLiveData can write: it is not read-only, the
    output directory is a directory or is not there yet, and none of the
    ten files is a directory. *)
Definition writable (w : world) : bool :=
  negb (read_only w)
  && match files w !! OUTPUT_DIR (cfg w) with
     | Some Dir | None => true
     | Some _ => false
     end
  && forallb
       (fun file : string * string =>
          negb (is_dir (files w !! path_join (cfg w) (OUTPUT_DIR (cfg w)) (fst file))))
       filesToSave.

(** The disk with the output directory. *)
Definition with_output_dir (w : world) : gmap string node :=
  match files w !! OUTPUT_DIR (cfg w) with
  | Some _ => files w
  | None => <[OUTPUT_DIR (cfg w) := Dir]> (files w)
  end.

(** ** What a broadcast does to a socket *)

(** A socket before and after a broadcast of [liveData]: an open socket
    has one more text, the live_update message; any other socket is as
    it was. *)
Definition updated (liveData : json) (c c' : client) : Prop :=
  match readyState c with
  | OPEN =>
      exists now,
        c' = Client OPEN (updateInterval c)
               (inbox c ++ [stringify (live_update_message liveData now)])
  | _ => c' = c
  end.

Definition is_open (c : client) : bool :=
  match readyState c with OPEN => true | _ => false end.

(** Socket number [i] is [c]. *)
Definition socket_is (i : nat) (c : client) (w : world) : Prop :=
  clients w !! i = Some c.

(** Every socket was greeted first: its inbox starts with a connection
    message. *)
Definition greeted (w : world) : Prop :=
  Forall
    (fun c => exists now rest, inbox c = stringify (connection_message now) :: rest)
    (clients w).

(** ** ensureRequiredFiles *)

Definition requiredFiles : list string :=
  ["soc_status.json"; "ip_geolocation.json"; "attack_by_country.json"; "threat_map.json";
   "threat_intelligence.json"; "file_integrity.json"; "recent_changes.json";
   "suspicious_files.json"; "network_listeners.json"; "vulnerable_ports.json";
   "top_processes.json"; "process_summary.json"; "network_processes.json";
   "root_processes.json"].

Definition jstr (s : string) : js json := const (JStr s).
Definition jint (z : Z) : js json := const (JInt z).

(** A decimal literal: [jdec m e] is m / 10^e. *)
Definition jdec (m : Z) (e : Z) : js json := const (JNum (Num m (- e))).

(** [a, b, ...]: the elements are evaluated in order. *)
Fixpoint array_literal (items : list (js json)) : js (list json) :=
  match items with
  | [] => mret []
  | e :: rest => v ← e; vs ← array_literal rest; mret (v :: vs)
  end.

Definition jarr (items : list (js json)) : js json :=
  vs ← array_literal items; mret (JArr vs).

(** The value written for a file that is missing: the cases of the
    switch. *)
Definition required_content (filename : string) : js json :=
  if String.eqb filename "soc_status.json" then
    object_literal
      [("status", jstr "operational");
       ("message", jstr "All systems operational");
       ("timestamp", timestamp_field)]
  else if String.eqb filename "ip_geolocation.json" then
    jarr
      [object_literal
         [("query", jstr "192.168.1.100");
          ("status", jstr "success");
          ("country", jstr "China");
          ("countryCode", jstr "CN");
          ("city", jstr "Shanghai");
          ("lat", jdec 312222 4);
          ("lon", jdec 1214581 4);
          ("isp", jstr "China Telecom")]]
  else if String.eqb filename "attack_by_country.json" then
    jarr
      [object_literal [("country", jstr "China"); ("attack_count", jint 15)];
       object_literal [("country", jstr "Russia"); ("attack_count", jint 8)];
       object_literal [("country", jstr "United States"); ("attack_count", jint 5)]]
  else if String.eqb filename "threat_map.json" then
    object_literal
      [("threat_sources",
          jarr
            [object_literal
               [("lat", jdec 312222 4); ("lon", jdec 1214581 4); ("country", jstr "China");
                ("threat_level", jstr "high"); ("attack_count", jint 15)];
             object_literal
               [("lat", jdec 557558 4); ("lon", jdec 376173 4); ("country", jstr "Russia");
                ("threat_level", jstr "high"); ("attack_count", jint 8)]]);
       ("timestamp", timestamp_field)]
  else if String.eqb filename "threat_intelligence.json" then
    object_literal
      [("threat_indicators",
          jarr
            [object_literal
               [("indicator", jstr "192.168.1.100"); ("type", jstr "ip");
                ("threat_level", jstr "high");
                ("description", jstr "Suspicious activity detected")]]);
       ("threat_trends",
          jarr
            [object_literal
               [("trend", jstr "Brute Force Attacks"); ("frequency", jstr "increasing");
                ("severity", jstr "high")]]);
       ("timestamp", timestamp_field)]
  else if String.eqb filename "file_integrity.json" then
    jarr
      [object_literal
         [("file_path", jstr "/etc/passwd");
          ("hash", jstr "sample_hash_1234567890abcdef");
          ("size", jint 1024);
          ("permissions", jstr "644");
          ("last_modified", now ← Date_now; mret (JInt (now / 1000)));
          ("last_modified_human", timestamp_field);
          ("status", jstr "monitored");
          ("timestamp", timestamp_field)]]
  else if String.eqb filename "recent_changes.json" then
    jarr
      [object_literal
         [("file", jstr "/etc/passwd");
          ("change_type", jstr "modified");
          ("timestamp", timestamp_field);
          ("user", jstr "root");
          ("size_change", jint 0)]]
  else if String.eqb filename "suspicious_files.json" then
    jarr
      [object_literal
         [("file", jstr "/tmp/suspicious_file.txt");
          ("suspicious_type", jstr "unknown_extension");
          ("severity", jstr "medium");
          ("timestamp", timestamp_field);
          ("description", jstr "File with unknown extension found in temp directory")]]
  else if String.eqb filename "network_listeners.json" then
    jarr
      [object_literal [("local_address", jstr "0.0.0.0:80"); ("state", jstr "LISTENING")];
       object_literal [("local_address", jstr "127.0.0.1:3000"); ("state", jstr "LISTENING")]]
  else if String.eqb filename "vulnerable_ports.json" then
    jarr
      [object_literal
         [("port", jint 80); ("service", jstr "HTTP"); ("risk_level", jstr "medium");
          ("description", jstr "Web server port")];
       object_literal
         [("port", jint 443); ("service", jstr "HTTPS"); ("risk_level", jstr "low");
          ("description", jstr "Secure web server port")]]
  else if String.eqb filename "top_processes.json" then
    jarr
      [object_literal
         [("user", jstr "SYSTEM"); ("pid", jint 4); ("cpu", jdec 25 1); ("memory", jdec 12 1);
          ("command", jstr "System")];
       object_literal
         [("user", jstr "Administrator"); ("pid", jint 1234); ("cpu", jdec 18 1);
          ("memory", jdec 8 1); ("command", jstr "chrome.exe")]]
  else if String.eqb filename "process_summary.json" then
    object_literal
      [("total_processes", jint 150);
       ("suspicious_processes", jint 2);
       ("root_processes", jint 15);
       ("timestamp", timestamp_field)]
  else if String.eqb filename "network_processes.json" then
    jarr
      [object_literal
         [("protocol", jstr "TCP"); ("local_address", jstr "0.0.0.0:80");
          ("foreign_address", jstr "0.0.0.0:0"); ("state", jstr "LISTENING");
          ("process", jstr "httpd.exe")]]
  else if String.eqb filename "root_processes.json" then
    jarr
      [object_literal
         [("process_name", jstr "System"); ("pid", jint 4); ("user", jstr "SYSTEM");
          ("timestamp", timestamp_field)]]
  else jarr [].

(** requiredFiles.forEach(filename => ...); what logger.info prints is
    left out. *)
Fixpoint ensure_each (names : list string) : js unit :=
  match names with
  | [] => mret tt
  | filename :: rest =>
      filePath ← output_path filename;
      found ← existsSync filePath;
      (if negb found then
         content ← required_content filename;
         writeFileSync filePath (stringify_pretty content)
       else mret tt);;
      ensure_each rest
  end.

Definition ensureRequiredFiles : js unit := ensure_each requiredFiles.

(** A required file is on the disk. *)
Definition present (w : world) (filename : string) : bool :=
  bool_decide (is_Some (files w !! path_join (cfg w) (OUTPUT_DIR (cfg w)) filename)).

(** The world after one reading of the clock. *)
Definition tick (w : world) : world := snd (read_clock w).

(** The world of a live scan once the time and the counter are written. *)
Definition scan_started (w : world) : world :=
  let s := realTimeScanner w in
  with_scanner
    (Scanner (isActive s) (scanInterval s) (scanIntervalMs s)
       (Some (iso (clock (env w) (clock_reads w)))) (scanCount s + 1))
    (tick w).

(** The shape of the handlers of the data routes. *)
Definition cached_route (key scriptName : string) (fields : list (string * js json))
    (onerror : string -> js response) : js response :=
  try_catch
    (cachedData ← DataCache_get key;
     if truthy cachedData then mret (Response 200 cachedData)
     else
       runMonitoringScript scriptName;;
       data ← object_literal fields;
       DataCache_set key data;;
       mret (Response 200 data))
    onerror.

(** The output directory is there, and is a directory. fs.writeFileSync
    fails without it; [writeFileSync] does not look at the directory of
    a path, so what is proved of a write into the output directory
    assumes it. *)
Definition has_output_dir (w : world) : bool :=
  is_dir (files w !! OUTPUT_DIR (cfg w)).

(** ** What the values of a live scan are *)

Definition is_int (lo hi : Z) (v : json) : Prop := exists z, v = JInt z /\ lo <= z <= hi.
Definition is_string (v : json) : Prop := exists s, v = JStr s.
Definition is_one_of (l : list string) (v : json) : Prop := exists s, v = JStr s /\ In s l.
Definition any_value (v : json) : Prop := True.

(** An array of [lo] to [hi] items that all satisfy [Q]. *)
Definition array_within (lo hi : Z) (Q : json -> Prop) (v : json) : Prop :=
  exists items,
    v = JArr items /\ lo <= Z.of_nat (length items) <= hi /\ Forall Q items.

(** The ports of the literal [22, 80, 443, 8080, 3306]. *)
Definition scanned_ports : list json := [JInt 22; JInt 80; JInt 443; JInt 8080; JInt 3306].

Definition failed_login_item (item : json) : Prop :=
  exists attempts,
    get "attempts" item = Some (JInt attempts) /\ 1 <= attempts <= 10
    /\ get "status" item = Some (JStr "failed").

Definition top_attacker_item (item : json) : Prop :=
  exists attempts country,
    get "attempts" item = Some (JInt attempts) /\ 10 <= attempts <= 59
    /\ get "country" item = Some (JStr country)
    /\ In country ["US"; "CN"; "RU"; "DE"; "FR"].

Definition port_scan_item (item : json) : Prop :=
  exists ports scan_type duration,
    get "target_ports" item = Some (JArr ports)
    /\ (1 <= length ports <= 3)%nat
    /\ ports = take (length ports) scanned_ports
    /\ get "scan_type" item = Some (JStr scan_type)
    /\ In scan_type ["TCP"; "UDP"]
    /\ get "duration" item = Some (JInt duration)
    /\ 60 <= duration <= 359.

Definition suspicious_process_item (item : json) : Prop :=
  exists name pid,
    get "process_name" item = Some (JStr name)
    /\ In name suspiciousNames
    /\ get "pid" item = Some (JInt pid) /\ 1000 <= pid <= 10999
    /\ get "severity" item = Some (JStr "high").

Definition open_port_item (item : json) : Prop :=
  exists port,
    get "port" item = Some (JInt port) /\ In port commonPorts
    /\ get "state" item = Some (JStr "LISTEN").

(** ** The alert summary of a live scan *)


End Server.

(* ===================================================================== *)
(** * Sample worlds *)
(* ===================================================================== *)

Module Samples.
Import Json Server.

Definition noon : clock_reading := Reading 1700000000000 "2023-11-14T22:13:20.000Z".

Definition linux : config := Config false "/srv/soc" "/srv/soc/backend".

Definition report_script : string := "/srv/soc/backend/generate_report.sh".

(** A disk with the report generator and nothing else. *)
Definition disk_script : gmap string node :=
  {[ report_script := Text "#!/bin/bash" ]}.



(** The report generator fails once, then succeeds. *)
Definition fails_once : oracle :=
  Oracle (fun _ => 0%N) (fun _ => noon)
    (fun n _ _ => match n with
              | O => ExecResult (Some (NonZeroExit 1)) "" disk_script
              | S _ => ExecResult None "Security report generation completed." disk_script
              end).




(** Two oracles that differ by the random draws only. *)
Definition calm (bits : N) : oracle :=
  Oracle (fun n => (bits * N.of_nat (S n))%N) (fun _ => noon)
    (fun _ _ _ => ExecResult None "" ∅).

Definition low_draws : oracle := calm 1234567890123456.

(** A server with nothing on its disk, just loaded. *)
Definition bare : world := boot low_draws linux ∅ false.

(** The snapshot of its first live scan. *)
Definition first_snapshot : json :=
  default JNull (normal (fst (gatherLiveData bare))).




End Samples.

(* ===================================================================== *)
(** * The files of the report, as the server reads them *)
(* ===================================================================== *)

Module ReportFiles.
Import Report Json.

(** The value of soc_status.json. *)
Definition soc_status_json (alert_summary_json : option text) (date : string) : json :=
  JObj [("status", JStr (fst (soc_status_of alert_summary_json)));
        ("message", JStr (snd (soc_status_of alert_summary_json)));
        ("timestamp", JStr date)].

(** The value of alert_summary.json. *)
Definition alert_summary_json (a : alerts) (date : string) : json :=
  JObj [("total_alerts", JInt (total_alerts a));
        ("critical_alerts", JInt (critical_alerts a));
        ("high_alerts", JInt (high_alerts a));
        ("medium_alerts", JInt (medium_alerts a));
        ("low_alerts", JInt (low_alerts a));
        ("timestamp", JStr date)].

(** The value of executive_summary.json. *)
Definition executive_summary_json (d : output_dir) (date : string) : json :=
  JObj [("overall_threat_level", JStr (level_name (snd (calculate_threat_level d))));
        ("threat_score", JInt (fst (calculate_threat_level d)));
        ("total_incidents",
           JInt (wrap64 (failed_login_volume d + port_scan_count d
                         + suspicious_process_count d)));
        ("critical_incidents",
           JInt (match snd (calculate_threat_level d) with CRITICAL => 1 | _ => 0 end));
        ("high_priority_incidents", JInt (suspicious_process_count d));
        ("last_updated", JStr date);
        ("recommendations",
           JArr [JStr "Monitor failed login attempts";
                 JStr "Review suspicious processes";
                 JStr "Check open ports";
                 JStr "Update security policies"])].

End ReportFiles.

(** Directories of reports. *)
Module ReportExamples.
Import Report.

Definition date : string := "2023-11-14T22:13:20+00:00".

(** A login summary with 57 failed logins. *)
Definition login_lines : text :=
  ["{"; number_line "  " "total_failed_logins" 1 57 ","; "}"].

(** One suspicious process. *)
Definition process_lines : text :=
  ["[{" ++ quoted "process_name" ++ ": " ++ quoted "nmap" ++ "}]"].

(** The output directory after the login and the process monitors. *)
Definition report_dir : output_dir :=
  OutputDir (Some login_lines) (Some process_lines) None None.

(** An alert summary with two critical alerts. *)
Definition alert_lines : text :=
  ["{"; number_line "    " "critical_alerts" 1 2 ","; "}"].

(** The list of suspicious processes when there is none. *)
Definition no_process : text := ["[]"].

(** The alert summary of [report_dir]. *)
Definition summary_lines : text :=
  default []
    (generate_alert_summary (suspicious_processes_json report_dir)
       (portscans_json report_dir) (login_summary_json report_dir) date).

(** The executive summary of [report_dir]. *)
Definition summary_text : string :=
  default EmptyString (generate_executive_summary report_dir date).

(** An output directory where the port scans were looked for and none
    was found. *)
Definition quiet_dir : output_dir := OutputDir None None (Some ["[]"]) None.

End ReportExamples.

(** Worlds of the server. *)
Module ServerExamples.
Import Json Server.

(** A server whose output directory is there and empty. *)
Definition fresh_dir : world :=
  boot Samples.low_draws Samples.linux {[ "/tmp/soc_data" := Dir ]} false.

(** A server that has just cached an answer for /api/logins. *)
Definition cached_logins : json := JObj [("summary", JNull)].

Definition warm : world := snd (DataCache_set "login_data" cached_logins Samples.bare).

(** A server with one socket, which is closed. *)
Definition closed_world : world := run [Connect; Close 0%nat] Samples.bare.

Definition closed_socket : client :=
  default (Client CLOSED None []) (clients closed_world !! 0%nat).

End ServerExamples.

(* ===================================================================== *)
(** * Properties of the threat scoring *)
(* ===================================================================== *)

Module ReportProofs.
Import Report.

(** An arithmetic test against a bound that is not negative sees the
    volume: an expression in error counts as 0. *)
Lemma test_gt_volume (out : words) (k : Z) :
  0 <= k -> test_gt out k = (k <? volume (Some out)).
Proof.
  intros Hk. unfold test_gt, volume.
  destruct (arith out) as [n|]; simpl; [reflexivity|].
  symmetry. apply Z.ltb_ge. exact Hk.
Qed.

Lemma level_of_score_documented (score : Z) :
  level_of_score score = documented_level score.
Proof.
  unfold level_of_score, documented_level.
  repeat match goal with
         | |- context [?a <=? ?b] => destruct (Z.leb_spec a b)
         | |- context [?a <? ?b] => destruct (Z.ltb_spec a b)
         end; first [reflexivity | lia].
Qed.

Lemma calculate_threat_level_score (d : output_dir) :
  fst (calculate_threat_level d) = weighted_sum d.
Proof.
  unfold calculate_threat_level, weighted_sum, failed_login_volume,
    suspicious_process_count, port_scan_count, recent_change_volume.
  destruct d as [l p s c]; cbn [fst login_summary_json suspicious_processes_json
    portscans_json recent_changes_json fmap option_fmap option_map].
  unfold login_weight, process_weight, scan_weight, change_weight.
  destruct l as [l|], p as [p|], s as [s|], c as [c|];
    cbn [fmap option_fmap option_map];
    rewrite ?test_gt_volume by lia;
    change (volume None) with 0;
    repeat match goal with
           | |- context [?a <? ?b] => destruct (Z.ltb_spec a b)
           end; lia.
Qed.

(** C1. The level calculate_threat_level reports is the documented band
    of its score, LOW below 30, MEDIUM from 30 to 49, HIGH from 50 to 69
    and CRITICAL from 70 on, for every integer score (29 is LOW, 30 and
    49 are MEDIUM, 50 and 69 are HIGH, 70 is CRITICAL); and the score is
    the weighted sum of the failed-login volume, the suspicious-process
    count, the port-scan count and the recent file-change volume. *)
Theorem calculate_threat_level_documented :
  (forall d : output_dir,
     calculate_threat_level d = (weighted_sum d, documented_level (weighted_sum d)))
  /\ (forall score : Z, level_of_score score = documented_level score)
  /\ level_of_score 29 = LOW
  /\ level_of_score 30 = MEDIUM
  /\ level_of_score 49 = MEDIUM
  /\ level_of_score 50 = HIGH
  /\ level_of_score 69 = HIGH
  /\ level_of_score 70 = CRITICAL.
Proof.
  split; [|split; [exact level_of_score_documented | repeat split]].
  intros d.
  pose proof (calculate_threat_level_score d) as Hs.
  assert (Hl : snd (calculate_threat_level d)
               = level_of_score (fst (calculate_threat_level d))) by reflexivity.
  destruct (calculate_threat_level d) as [score lvl]; simpl in *.
  subst. rewrite level_of_score_documented. reflexivity.
Qed.

End ReportProofs.

(* ===================================================================== *)
(** * JSON text read back *)
(* ===================================================================== *)

Module JsonProofs.
Import Json.

#[local] Arguments String.append !s1 s2 : simpl nomatch.

(** Induction on JSON values, through arrays and objects. *)
Lemma json_ind (P : json -> Prop) :
  P JNull ->
  (forall b, P (JBool b)) ->
  (forall n, P (JNum n)) ->
  (forall s, P (JStr s)) ->
  (forall items, Forall P items -> P (JArr items)) ->
  (forall members, Forall (fun m => P (snd m)) members -> P (JObj members)) ->
  forall v, P v.
Proof.
  intros Hnull Hbool Hnum Hstr Harr Hobj.
  fix IH 1. intros [ | b | n | s | items | members].
  - exact Hnull.
  - apply Hbool.
  - apply Hnum.
  - apply Hstr.
  - apply Harr. induction items as [|x items IHitems]; constructor.
    + apply IH.
    + exact IHitems.
  - apply Hobj. induction members as [|[key x] members IHmembers]; constructor.
    + apply IH.
    + exact IHmembers.
Qed.

Ltac each_char c :=
  destruct c as [[] [] [] [] [] [] [] []].

Lemma append_assoc (a b c : string) : ((a ++ b) ++ c)%string = (a ++ (b ++ c))%string.
Proof. induction a as [|x a IH]; simpl; congruence. Qed.

(** ** Digits *)

Lemma read_digits_no_digit rest :
  no_digit_head rest -> read_digits rest = (Nil, rest).
Proof. destruct rest as [|c r]; simpl; [reflexivity|]. now intros ->. Qed.

Lemma read_digits_string_of_uint (d : uint) (rest : string) :
  no_digit_head rest ->
  read_digits (NilEmpty.string_of_uint d ++ rest) = (d, rest).
Proof.
  intros Hrest.
  induction d as [|d IH|d IH|d IH|d IH|d IH|d IH|d IH|d IH|d IH|d IH];
    simpl; [now apply read_digits_no_digit | now rewrite IH ..].
Qed.

Lemma to_uint_nonnil (n : N) : N.to_uint n <> Nil.
Proof.
  destruct n as [|p]; simpl; [discriminate|].
  apply DecimalPos.Unsigned.to_uint_nonnil.
Qed.

Lemma digits_eq (n : N) : digits n = NilEmpty.string_of_uint (N.to_uint n).
Proof.
  unfold digits, NilZero.string_of_uint.
  pose proof (to_uint_nonnil n). now destruct (N.to_uint n).
Qed.

Lemma read_digits_digits (n : N) (rest : string) :
  no_digit_head rest -> read_digits (digits n ++ rest) = (N.to_uint n, rest).
Proof. intros H. rewrite digits_eq. now apply read_digits_string_of_uint. Qed.

(** The text of a natural number starts with a digit. *)
Lemma digits_head (n : N) (rest : string) :
  exists c r, (digits n ++ rest)%string = String c r /\ digit_con c <> None.
Proof.
  rewrite digits_eq. pose proof (to_uint_nonnil n) as Hn.
  destruct (N.to_uint n); [congruence | simpl; eexists _, _; split;
    [reflexivity | discriminate] ..].
Qed.

Lemma unorm_to_uint (n : N) : unorm (N.to_uint n) = N.to_uint n.
Proof.
  rewrite <- (DecimalN.Unsigned.of_to n) at 2.
  now rewrite DecimalN.Unsigned.to_of.
Qed.

Lemma uint_beq_refl (d : uint) : uint_beq d d = true.
Proof. induction d; simpl; auto. Qed.

Lemma is_nil_to_uint (n : N) : is_nil (N.to_uint n) = false.
Proof. pose proof (to_uint_nonnil n). now destruct (N.to_uint n). Qed.

Lemma digit_not_sign c :
  digit_con c <> None ->
  Ascii.eqb "-" c = false /\ Ascii.eqb "+" c = false /\ is_ws c = false
  /\ Ascii.eqb c "{" = false /\ Ascii.eqb c "[" = false /\ Ascii.eqb c dquote = false
  /\ Ascii.eqb c "t" = false /\ Ascii.eqb c "f" = false /\ Ascii.eqb c "n" = false
  /\ Ascii.eqb "]" c = false.
Proof.
  each_char c; simpl; intros H; try congruence; repeat split.
Qed.

(** ** Numbers *)

Lemma value_end_spec k :
  value_end k = true ->
  no_digit_head k /\ starts_with "." k = None /\ starts_with "e" k = None
  /\ starts_with "E" k = None.
Proof.
  destruct k as [|c r]; simpl; [auto|].
  each_char c; simpl; intros H; try discriminate; repeat split.
Qed.

(** A natural number, read back where a number may stand. *)
Lemma read_natural (n : N) (k : string) :
  no_digit_head k ->
  starts_with "-" (digits n ++ k) = None
  /\ starts_with "+" (digits n ++ k) = None
  /\ read_digits (digits n ++ k) = (N.to_uint n, k).
Proof.
  intros Hk. destruct (digits_head n k) as (c & r & Heq & Hc).
  rewrite read_digits_digits by assumption. rewrite Heq. unfold starts_with.
  destruct (digit_not_sign c Hc) as (-> & -> & _). auto.
Qed.

Lemma parse_number_natural (neg : bool) (m : N) (e : Z) (k : string) :
  value_end k = true ->
  let tail := String.append (if e =? 0 then EmptyString else String "e" (print_Z e)) k in
  (let '(ip, s2) := read_digits (digits m ++ tail) in
   if negb (uint_beq ip (unorm ip)) then None
   else
     let frac :=
       match starts_with "." s2 with
       | Some s3 =>
           let '(fp, s4) := read_digits s3 in
           if is_nil fp then None else Some (fp, s4)
       | None => Some (Nil, s2)
       end in
     match frac with
     | None => None
     | Some (fp, s4) =>
         let exponent :=
           match (match starts_with "e" s4 with
                  | Some s5 => Some s5
                  | None => starts_with "E" s4
                  end) with
           | Some s5 =>
               let '(eneg, s6) :=
                 match starts_with "-" s5 with
                 | Some r => (true, r)
                 | None =>
                     match starts_with "+" s5 with
                     | Some r => (false, r)
                     | None => (false, s5)
                     end
                 end in
               let '(ep, s7) := read_digits s6 in
               if is_nil ep then None
               else
                 let e := Z.of_N (N.of_uint ep) in
                 Some (if eneg then - e else e, s7)
           | None => Some (0, s4)
           end in
         match exponent with
         | None => None
         | Some (e, rest) =>
             let m := Z.of_N (N.of_uint (Decimal.app ip fp)) in
             Some (Num (if neg then - m else m) (e - Z.of_nat (nb_digits fp)), rest)
         end
     end)
  = Some (Num (if neg then - Z.of_N m else Z.of_N m) e, k).
Proof.
  intros Hk tail.
  destruct (value_end_spec k Hk) as (Hd & Hdot & He & HE).
  assert (Htail : no_digit_head tail /\ starts_with "." tail = None).
  { subst tail. destruct (e =? 0); simpl; auto. }
  destruct Htail as [Htd Htdot].
  rewrite read_digits_digits by assumption.
  rewrite unorm_to_uint, uint_beq_refl. simpl negb. cbv iota.
  rewrite Htdot. cbv beta iota zeta.
  rewrite DecimalFacts.app_nil_r, DecimalN.Unsigned.of_to. simpl nb_digits.
  subst tail. destruct e as [|p|p]; unfold print_Z; simpl Z.eqb; simpl Z.to_N;
    cbv iota; simpl append.
  - rewrite He, HE. repeat f_equal; simpl; lia.
  - simpl starts_with at 1. cbv beta iota.
    destruct (read_natural (Npos p) k Hd) as (-> & -> & ->).
    rewrite is_nil_to_uint, DecimalN.Unsigned.of_to. cbv beta iota zeta.
    repeat f_equal; simpl; lia.
  - simpl starts_with at 1. cbv beta iota. simpl starts_with. cbv beta iota zeta.
    rewrite read_digits_digits by assumption.
    rewrite is_nil_to_uint, DecimalN.Unsigned.of_to. cbv beta iota zeta.
    repeat f_equal; simpl; lia.
Qed.

Lemma parse_number_print (n : num) (k : string) :
  value_end k = true ->
  parse_number (print_num n ++ k) = Some (n, k).
Proof.
  intros Hk. destruct n as [m e]. unfold print_num. simpl mant; simpl expo.
  rewrite append_assoc. unfold parse_number.
  destruct (value_end_spec k Hk) as (Hd & _).
  assert (Htd : no_digit_head
            (String.append (if e =? 0 then EmptyString else String "e" (print_Z e)) k)).
  { destruct (e =? 0); simpl; auto. }
  destruct m as [|p|p].
  - unfold print_Z at 1. simpl Z.to_N.
    destruct (read_natural 0 _ Htd) as (-> & _ & _).
    apply (parse_number_natural false 0 e k Hk).
  - unfold print_Z at 1. simpl Z.to_N.
    destruct (read_natural (Npos p) _ Htd) as (-> & _ & _).
    apply (parse_number_natural false (Npos p) e k Hk).
  - unfold print_Z at 1. simpl starts_with.
    apply (parse_number_natural true (Npos p) e k Hk).
Qed.

(** ** Strings *)

Lemma parse_chars_escape (c : ascii) (rest : string) :
  parse_chars (escape c rest) = prepend (String c) (parse_chars rest).
Proof. each_char c; reflexivity. Qed.

Lemma parse_chars_quote (s k : string) :
  parse_chars (quote_chars s (String dquote k)) = Some (s, k).
Proof.
  induction s as [|c s IH]; cbn [quote_chars].
  - reflexivity.
  - rewrite parse_chars_escape, IH. reflexivity.
Qed.

(** ** Layout *)

Lemma skip_ws_blanks (n : nat) (k : string) : skip_ws (blanks n k) = skip_ws k.
Proof. induction n as [|n IH]; simpl; auto. Qed.

Lemma skip_ws_break (gap depth : nat) (k : string) :
  skip_ws (break gap depth k) = skip_ws k.
Proof. destruct gap; simpl; [reflexivity | apply skip_ws_blanks]. Qed.

Lemma value_end_break (gap depth : nat) (c : ascii) (k : string) :
  value_end (String c k) = true -> value_end (break gap depth (String c k)) = true.
Proof. destruct gap; simpl; auto. Qed.

(** The parser looks at a text from its first character that is not
    white space. *)
Lemma parse_value_ws (fuel : nat) (s s' : string) :
  skip_ws s = skip_ws s' -> parse_value fuel s = parse_value fuel s'.
Proof. intros H. destruct fuel; simpl; [reflexivity | now rewrite H]. Qed.

Lemma parse_elements_ws (fuel : nat) (s s' : string) :
  skip_ws s = skip_ws s' -> parse_elements fuel s = parse_elements fuel s'.
Proof.
  intros H. destruct fuel as [|f]; [reflexivity|].
  cbn [parse_elements]. now rewrite (parse_value_ws f s s' H).
Qed.

Lemma parse_members_ws (fuel : nat) (s s' : string) :
  skip_ws s = skip_ws s' -> parse_members fuel s = parse_members fuel s'.
Proof. intros H. destruct fuel; simpl; [reflexivity | now rewrite H]. Qed.

(** ** The first character of a value *)

Lemma print_num_head (n : num) (k : string) :
  exists c r, (print_num n ++ k)%string = String c r
              /\ (digit_con c <> None \/ c = "-"%char).
Proof.
  destruct n as [m e]. unfold print_num. simpl mant; simpl expo.
  rewrite append_assoc. destruct m as [|p|p]; unfold print_Z at 1.
  - destruct (digits_head (Z.to_N 0) (String.append (if e =? 0 then EmptyString
      else String "e" (print_Z e)) k)) as (c & r & -> & Hc). eauto.
  - destruct (digits_head (Z.to_N (Z.pos p)) (String.append (if e =? 0 then EmptyString
      else String "e" (print_Z e)) k)) as (c & r & -> & Hc). eauto.
  - simpl. eauto.
Qed.

Lemma serialize_head (gap depth : nat) (v : json) (k : string) :
  exists c r, serialize gap depth v k = String c r
              /\ is_ws c = false /\ Ascii.eqb "]" c = false.
Proof.
  destruct v as [ | [] | n | s | [|x items] | [|[key x] members]];
    try (simpl; eexists _, _; split; [reflexivity | split; reflexivity]).
  cbn [serialize]. destruct (print_num_head n k) as (c & r & -> & [Hc | ->]).
  - destruct (digit_not_sign c Hc) as (_ & _ & ? & ? & ? & ? & ? & ? & ? & ?).
    eauto.
  - eexists _, _; split; [reflexivity | split; reflexivity].
Qed.

Lemma skip_ws_serialize (gap depth : nat) (v : json) (k : string) :
  skip_ws (serialize gap depth v k) = serialize gap depth v k.
Proof.
  destruct (serialize_head gap depth v k) as (c & r & -> & Hws & _).
  simpl. now rewrite Hws.
Qed.

Lemma not_closing_serialize (gap depth : nat) (v : json) (k : string) :
  starts_with "]" (serialize gap depth v k) = None.
Proof.
  destruct (serialize_head gap depth v k) as (c & r & -> & _ & Hc).
  unfold starts_with. now rewrite Hc.
Qed.

(** ** Objects with distinct keys *)

Lemma obj_set_fresh (k : string) (v : json) (acc : list (string * json)) :
  existsb (String.eqb k) (map fst acc) = false ->
  obj_set k v acc = (acc ++ [(k, v)])%list.
Proof.
  induction acc as [|[k' v'] acc IH]; simpl; [reflexivity|].
  intros H. apply orb_false_elim in H as [H1 H2].
  rewrite H1. now rewrite IH.
Qed.

Lemma distinct_middle (a : list string) (k : string) (l : list string) :
  distinct (a ++ k :: l)%list = true -> existsb (String.eqb k) a = false.
Proof.
  induction a as [|x a IH]; simpl; [reflexivity|].
  intros H. apply andb_prop in H as [H1 H2].
  rewrite (IH H2), orb_false_r.
  apply negb_true_iff in H1. rewrite existsb_app in H1.
  apply orb_false_elim in H1 as [_ H1]. simpl in H1.
  apply orb_false_elim in H1 as [H1 _].
  now rewrite String.eqb_sym.
Qed.

Lemma fold_obj_set (l acc : list (string * json)) :
  distinct (map fst (acc ++ l)%list) = true ->
  fold_left (fun a kv => obj_set (fst kv) (snd kv) a) l acc = (acc ++ l)%list.
Proof.
  revert acc. induction l as [|[k v] l IH]; intros acc H; simpl.
  - now rewrite app_nil_r.
  - rewrite obj_set_fresh.
    + rewrite IH; rewrite <- app_assoc; [reflexivity | exact H].
    + rewrite map_app in H. simpl in H. now apply distinct_middle in H.
Qed.

Lemma members_of_text_distinct (ms : list (string * json)) :
  distinct (map fst ms) = true -> members_of_text ms = ms.
Proof. intros H. unfold members_of_text. now rewrite fold_obj_set. Qed.

(** ** Reading a value back *)

Lemma value_end_join {A} (f : A -> string -> string) (l : list A)
    (gap depth : nat) (c : ascii) (k : string) :
  value_end (String c k) = true ->
  value_end (join_to f l (break gap depth (String c k))) = true.
Proof. destruct l; simpl; [apply value_end_break | reflexivity]. Qed.

Lemma parse_elements_join (gap depth : nat) (rest : list json) :
  Forall (read_back size) rest ->
  forallb wf rest = true ->
  forall x, read_back size x -> wf x = true ->
  forall (fuel : nat) (k : string),
    value_end k = true ->
    (S (size x) + list_sum (map (fun y => S (size y)) rest) <= fuel)%nat ->
    parse_elements fuel
      (serialize gap (S depth) x
         (join_to (item gap depth) rest (break gap depth (String "]" k))))
    = Some (x :: rest, k).
Proof.
  induction 1 as [|y rest Hy Hrest IH]; intros Hwf x Hx Hwx fuel k Hk Hfuel;
    (destruct fuel as [|f]; [simpl in Hfuel; lia|]); cbn [parse_elements].
  - rewrite (Hx Hwx); [| now apply (value_end_join (item gap depth) []) | simpl in Hfuel; lia].
    cbn [join_to]. rewrite skip_ws_break. reflexivity.
  - simpl in Hwf. apply andb_prop in Hwf as [Hwy Hwrest].
    rewrite (Hx Hwx); [| now apply (value_end_join (item gap depth) (y :: rest))
                       | simpl in Hfuel; lia].
    cbn [join_to]. change (skip_ws (String "," ?s)) with (String "," s).
    cbn [starts_with]. change (Ascii.eqb "," ",") with true. cbv iota.
    unfold item at 1.
    rewrite (parse_elements_ws f _ _ (skip_ws_break gap (S depth) _)).
    rewrite (IH Hwrest y Hy Hwy f k Hk); [reflexivity|].
    simpl in Hfuel |- *. lia.
Qed.

Lemma parse_members_join (gap depth : nat) (rest : list (string * json)) :
  Forall (fun m => read_back size (snd m)) rest ->
  forallb (fun m : string * json => let '(_, y) := m in wf y) rest = true ->
  forall key x, read_back size x -> wf x = true ->
  forall (fuel : nat) (k : string),
    value_end k = true ->
    (S (size x)
     + list_sum (map (fun m : string * json => let '(_, y) := m in S (size y)) rest)
     <= fuel)%nat ->
    parse_members fuel
      (member gap depth (key, x)
         (join_to (member gap depth) rest (break gap depth (String "}" k))))
    = Some ((key, x) :: rest, k).
Proof.
  assert (Hcolon : forall g s, skip_ws (match g with O => s | S _ => String " " s end)
                               = skip_ws s) by (intros [|g] s; reflexivity).
  induction 1 as [|[key' y] rest Hy Hrest IH]; intros Hwf key x Hx Hwx fuel k Hk Hfuel;
    (destruct fuel as [|f]; [simpl in Hfuel; lia|]); cbn [parse_members];
    unfold member at 1; rewrite skip_ws_break; unfold quote;
    change (skip_ws (String dquote ?s)) with (String dquote s);
    cbn [starts_with]; change (Ascii.eqb dquote dquote) with true; cbv iota;
    rewrite parse_chars_quote; unfold colon;
    change (skip_ws (String ":" ?s)) with (String ":" s);
    cbn [starts_with]; change (Ascii.eqb ":" ":") with true; cbv iota;
    rewrite (parse_value_ws f _ _ (Hcolon gap _)).
  - rewrite (Hx Hwx); [| now apply (value_end_join (member gap depth) [])
                       | simpl in Hfuel; lia].
    cbn [join_to]. rewrite skip_ws_break. reflexivity.
  - simpl in Hwf. apply andb_prop in Hwf as [Hwy Hwrest].
    rewrite (Hx Hwx); [| now apply (value_end_join (member gap depth) ((key', y) :: rest))
                       | simpl in Hfuel; lia].
    cbn [join_to]. change (skip_ws (String "," ?s)) with (String "," s).
    cbn [starts_with]. change (Ascii.eqb "," ",") with true. cbv iota.
    rewrite (IH Hwrest key' y Hy Hwy f k Hk); [reflexivity|].
    simpl in Hfuel |- *. lia.
Qed.

Lemma parse_value_brace (f : nat) (r : string) :
  parse_value (S f) (String "{" r)
  = match starts_with "}" (skip_ws r) with
    | Some r' => Some (JObj [], r')
    | None =>
        match parse_members f (skip_ws r) with
        | Some (ms, r') => Some (JObj (members_of_text ms), r')
        | None => None
        end
    end.
Proof. reflexivity. Qed.

Lemma parse_value_bracket (f : nat) (r : string) :
  parse_value (S f) (String "[" r)
  = match starts_with "]" (skip_ws r) with
    | Some r' => Some (JArr [], r')
    | None =>
        match parse_elements f (skip_ws r) with
        | Some (vs, r') => Some (JArr vs, r')
        | None => None
        end
    end.
Proof. reflexivity. Qed.

Lemma parse_value_quote (f : nat) (r : string) :
  parse_value (S f) (String dquote r)
  = match parse_chars r with
    | Some (str, r') => Some (JStr str, r')
    | None => None
    end.
Proof. reflexivity. Qed.

Lemma parse_value_serialize (v : json) : read_back size v.
Proof.
  induction v as [ | b | n | s | items IH | members IH] using json_ind;
    intros Hwf gap depth fuel k Hk Hfuel;
    (destruct fuel as [|f]; [simpl in Hfuel; lia|]).
  - reflexivity.
  - destruct b; reflexivity.
  - cbn [serialize].
    destruct (print_num_head n k) as (c & r & Heq & Hc).
    pose proof (parse_number_print n k Hk) as Hnum. rewrite Heq in *.
    assert (H : is_ws c = false /\ Ascii.eqb c "{" = false /\ Ascii.eqb c "[" = false
                /\ Ascii.eqb c dquote = false /\ Ascii.eqb c "t" = false
                /\ Ascii.eqb c "f" = false /\ Ascii.eqb c "n" = false).
    { destruct Hc as [Hc | ->]; [|repeat split].
      destruct (digit_not_sign c Hc) as (_ & _ & ? & ? & ? & ? & ? & ? & ? & _).
      repeat split; assumption. }
    destruct H as (H1 & H2 & H3 & H4 & H5 & H6 & H7).
    cbn [parse_value skip_ws]. rewrite H1, H2, H3, H4, H5, H6, H7, Hnum. reflexivity.
  - cbn [serialize]. unfold quote.
    now rewrite parse_value_quote, parse_chars_quote.
  - destruct items as [|x rest]; [reflexivity|].
    apply Forall_cons_iff in IH as [Hx Hrest].
    simpl in Hwf. apply andb_prop in Hwf as [Hwx Hwrest].
    cbn [serialize]. rewrite parse_value_bracket.
    rewrite skip_ws_break, skip_ws_serialize, not_closing_serialize.
    pose proof (parse_elements_join gap depth rest Hrest Hwrest x Hx Hwx f k Hk)
      as He.
    unfold item in He. rewrite He; [reflexivity|]. simpl in Hfuel. lia.
  - destruct members as [|[key x] rest]; [reflexivity|].
    apply Forall_cons_iff in IH as [Hx Hrest]. simpl in Hx.
    simpl in Hwf. apply andb_prop in Hwf as [Hkeys Hwf].
    apply andb_prop in Hwf as [Hwx Hwrest].
    cbn [serialize]. rewrite parse_value_brace.
    rewrite skip_ws_break. unfold quote.
    change (skip_ws (String dquote ?s)) with (String dquote s).
    change (starts_with "}" (String dquote ?s)) with (@None string).
    pose proof (parse_members_join gap depth rest Hrest Hwrest key x Hx Hwx f k Hk)
      as Hm.
    unfold member at 1 in Hm.
    rewrite (parse_members_ws f _ _ (skip_ws_break gap (S depth) _)) in Hm.
    unfold member, quote in Hm.
    rewrite Hm; [| simpl in Hfuel; lia].
    rewrite members_of_text_distinct; [reflexivity|].
    simpl. now rewrite Hkeys.
Qed.

(** ** Enough fuel *)

Lemma length_append (a b : string) :
  String.length (a ++ b) = (String.length a + String.length b)%nat.
Proof. induction a as [|c a IH]; simpl; [reflexivity | now rewrite IH]. Qed.

Lemma length_blanks (n : nat) (k : string) :
  (String.length k <= String.length (blanks n k))%nat.
Proof. induction n; simpl; lia. Qed.

Lemma length_break (gap depth : nat) (k : string) :
  (String.length k <= String.length (break gap depth k))%nat.
Proof.
  destruct gap; simpl; [lia|].
  pose proof (length_blanks (depth + gap * depth) k). lia.
Qed.

Lemma length_escape (c : ascii) (k : string) :
  (String.length k < String.length (escape c k))%nat.
Proof. each_char c; simpl; lia. Qed.

Lemma length_quote (s k : string) :
  (2 + String.length k <= String.length (quote s k))%nat.
Proof.
  unfold quote. simpl String.length.
  enough (forall k', (String.length k' <= String.length (quote_chars s k'))%nat) as H.
  { specialize (H (String dquote k)). simpl in H. lia. }
  induction s as [|c s IH]; intros k'; cbn [quote_chars]; [lia|].
  pose proof (length_escape c (quote_chars s k')). specialize (IH k'). lia.
Qed.

Lemma length_colon (gap : nat) (k : string) :
  (String.length k < String.length (colon gap k))%nat.
Proof. destruct gap; simpl; lia. Qed.

Lemma length_print_num (n : num) (k : string) :
  (1 + String.length k <= String.length (print_num n ++ k))%nat.
Proof.
  rewrite length_append.
  destruct (print_num_head n EmptyString) as (c & r & Heq & _).
  rewrite length_append in Heq || idtac.
  assert (H : String.length (print_num n ++ EmptyString)%string = S (String.length r))
    by now rewrite Heq.
  rewrite length_append in H. simpl in H. lia.
Qed.

Lemma length_serialize (v : json) :
  forall (gap depth : nat) (k : string),
    (size v + String.length k <= String.length (serialize gap depth v k))%nat.
Proof.
  induction v as [ | b | n | s | items IH | members IH] using json_ind;
    intros gap depth k.
  - simpl. lia.
  - destruct b; simpl; lia.
  - cbn [serialize size]. apply length_print_num.
  - cbn [serialize size]. pose proof (length_quote s k). lia.
  - destruct items as [|x rest]; [simpl; lia|].
    apply Forall_cons_iff in IH as [Hx Hrest].
    cbn [serialize]. change (size (JArr (x :: rest)))
      with (S (S (size x) + list_sum (map (fun y => S (size y)) rest))).
    assert (Hjoin : forall K,
      (list_sum (map (fun y => S (size y)) rest) + String.length K
       <= String.length (join_to (item gap depth) rest K))%nat).
    { clear Hx. induction Hrest as [|y rest Hy Hrest IH]; intros K; [simpl; lia|].
      cbn [join_to map]. simpl list_sum. unfold item at 1. simpl String.length.
      specialize (IH K).
      pose proof (length_break gap (S depth)
        (serialize gap (S depth) y (join_to (item gap depth) rest K))).
      specialize (Hy gap (S depth) (join_to (item gap depth) rest K)). lia. }
    unfold item in Hjoin.
    simpl String.length.
    match goal with
    | |- context [String.length (break gap (S depth) ?t)] =>
        pose proof (length_break gap (S depth) t) as Hb
    end.
    specialize (Hjoin (break gap depth (String "]" k))).
    pose proof (length_break gap depth (String "]" k)) as Hc. simpl in Hc.
    match type of Hb with
    | (String.length (serialize _ _ _ ?K) <= _)%nat => specialize (Hx gap (S depth) K)
    end.
    lia.
  - destruct members as [|[key x] rest]; [simpl; lia|].
    apply Forall_cons_iff in IH as [Hx Hrest]. simpl in Hx.
    cbn [serialize]. change (size (JObj ((key, x) :: rest)))
      with (S (S (size x)
               + list_sum (map (fun m : string * json => let '(_, y) := m in S (size y)) rest))).
    assert (Hjoin : forall K,
      (list_sum (map (fun m : string * json => let '(_, y) := m in S (size y)) rest)
       + String.length K
       <= String.length (join_to (member gap depth) rest K))%nat).
    { clear Hx. induction Hrest as [|[key' y] rest Hy Hrest IH]; intros K; [simpl; lia|].
      cbn [join_to map]. simpl list_sum. unfold member at 1. simpl String.length.
      specialize (IH K). simpl in Hy.
      match goal with
      | |- context [String.length (break gap (S depth) ?t)] =>
          pose proof (length_break gap (S depth) t) as Hb
      end.
      match type of Hb with
      | (String.length (quote _ ?t) <= _)%nat =>
          pose proof (length_quote key' t) as Hq
      end.
      match type of Hq with
      | (_ + String.length (colon gap ?t) <= _)%nat =>
          pose proof (length_colon gap t) as Hcol
      end.
      specialize (Hy gap (S depth) (join_to (member gap depth) rest K)). lia. }
    unfold member in Hjoin.
    simpl String.length.
    match goal with
    | |- context [String.length (break gap (S depth) ?t)] =>
        pose proof (length_break gap (S depth) t) as Hb
    end.
    match type of Hb with
    | (String.length (quote _ ?t) <= _)%nat =>
        pose proof (length_quote key t) as Hq
    end.
    match type of Hq with
    | (_ + String.length (colon gap ?t) <= _)%nat =>
        pose proof (length_colon gap t) as Hcol
    end.
    specialize (Hjoin (break gap depth (String "}" k))).
    pose proof (length_break gap depth (String "}" k)) as Hc. simpl in Hc.
    match type of Hcol with
    | (String.length (serialize _ _ _ ?K) < _)%nat => specialize (Hx gap (S depth) K)
    end.
    lia.
Qed.

(** A value with distinct keys is read back from its text, compact or
    laid out over lines. *)
Lemma parse_serialize (gap : nat) (v : json) :
  wf v = true -> parse (serialize gap 0 v EmptyString) = Some v.
Proof.
  intros Hwf. unfold parse.
  rewrite (parse_value_serialize v Hwf gap 0%nat _ EmptyString eq_refl).
  - reflexivity.
  - pose proof (length_serialize v gap 0%nat EmptyString). lia.
Qed.

End JsonProofs.

(* ===================================================================== *)
(** * Properties of the server *)
(* ===================================================================== *)

Module ServerProofs.
Import Json Server.

#[local] Arguments String.append !s1 s2 : simpl nomatch.

(** ** Rules for computations *)

Lemma run_bind {A B} (m : js A) (k : A -> js B) (w : world) :
  (m ≫= k) w
  = match m w with
    | (Normal a, w') => k a w'
    | (Thrown e, w') => (Thrown e, w')
    end.
Proof. reflexivity. Qed.

Lemma returns_ret {A} (a : A) (Q : A -> Prop) : Q a -> returns (mret a) Q.
Proof. intros H w. exact H. Qed.

Lemma returns_bind {A B} (m : js A) (k : A -> js B) (P : A -> Prop) (Q : B -> Prop) :
  returns m P -> (forall a, P a -> returns (k a) Q) -> returns (m ≫= k) Q.
Proof.
  intros Hm Hk w. rewrite run_bind. specialize (Hm w).
  destruct (m w) as [[a|e] w']; simpl in Hm; [|contradiction].
  apply (Hk a Hm w').
Qed.

Lemma returns_weaken {A} (m : js A) (P Q : A -> Prop) :
  returns m P -> (forall a, P a -> Q a) -> returns m Q.
Proof.
  intros Hm HPQ w. specialize (Hm w). destruct (fst (m w)); auto.
Qed.

Lemma returns_gets {A} (f : world -> A) (Q : A -> Prop) :
  (forall w, Q (f w)) -> returns (gets f) Q.
Proof. intros H w. apply H. Qed.

Lemma returns_catch {A} (body : js A) (handler : string -> js A) (Q : A -> Prop) :
  (forall w, match fst (body w) with Normal a => Q a | Thrown _ => True end) ->
  (forall e, returns (handler e) Q) ->
  returns (try_catch body handler) Q.
Proof.
  intros Hb Hh w. unfold try_catch. specialize (Hb w).
  destruct (body w) as [[a|e] w']; simpl in *; [exact Hb | apply Hh].
Qed.

Lemma total_bind {A B} (m : js A) (k : A -> js B) :
  total m -> (forall a, total (k a)) -> total (m ≫= k).
Proof.
  intros Hm Hk. apply (returns_bind m k (fun _ => True));
    [exact Hm | intros a _; apply Hk].
Qed.

Lemma total_ret {A} (a : A) : total (mret a).
Proof. now apply returns_ret. Qed.

Lemma total_gets {A} (f : world -> A) : total (gets f).
Proof. now apply returns_gets. Qed.

Lemma total_modify (f : world -> world) : total (modify f).
Proof. intros w. exact I. Qed.

Lemma total_catch {A} (body : js A) (handler : string -> js A) :
  (forall e, total (handler e)) -> total (try_catch body handler).
Proof.
  intros Hh. apply returns_catch; [|exact Hh].
  intros w. now destruct (fst (body w)).
Qed.

Lemma total_returns {A} (m : js A) (Q : A -> Prop) : returns m Q -> total m.
Proof. intros H. apply (returns_weaken m Q); auto. Qed.

Lemma preserves_ret {A} (I : world -> Prop) (a : A) : preserves I (mret a).
Proof. intros w H. exact H. Qed.

Lemma preserves_throw {A} (I : world -> Prop) (e : string) : preserves (A := A) I (throw e).
Proof. intros w H. exact H. Qed.

Lemma preserves_gets {A} (I : world -> Prop) (f : world -> A) : preserves I (gets f).
Proof. intros w H. exact H. Qed.

Lemma preserves_bind {A B} (I : world -> Prop) (m : js A) (k : A -> js B) :
  preserves I m -> (forall a, preserves I (k a)) -> preserves I (m ≫= k).
Proof.
  intros Hm Hk w H. rewrite run_bind. specialize (Hm w H).
  destruct (m w) as [[a|e] w']; simpl in *; [apply Hk, Hm | exact Hm].
Qed.

Lemma preserves_catch {A} (I : world -> Prop) (body : js A) (handler : string -> js A) :
  preserves I body -> (forall e, preserves I (handler e)) ->
  preserves I (try_catch body handler).
Proof.
  intros Hb Hh w H. unfold try_catch. specialize (Hb w H).
  destruct (body w) as [[a|e] w']; simpl in *; [exact Hb | apply Hh, Hb].
Qed.

(** ** The environment calls never throw, save the file system and the
    parser *)

Lemma total_Math_random : total Math_random.
Proof. intros w. exact I. Qed.

Lemma total_read_clock : total read_clock.
Proof. intros w. exact I. Qed.

Lemma total_Date_now : total Date_now.
Proof. apply total_bind; [apply total_read_clock | intros; apply total_ret]. Qed.

Lemma total_now_iso : total now_iso.
Proof. apply total_bind; [apply total_read_clock | intros; apply total_ret]. Qed.

Lemma total_existsSync (path : string) : total (existsSync path).
Proof. apply total_gets. Qed.

Lemma total_exec (command : string) (timeout : Z) : total (exec command timeout).
Proof. intros w. exact I. Qed.

Lemma total_DataCache_get (key : string) : total (DataCache_get key).
Proof.
  apply total_bind; [apply total_gets|]. intros [[data t]|]; [|apply total_ret].
  apply total_bind; [apply total_Date_now|]. intros now.
  apply total_bind; [apply total_gets|]. intros limit.
  destruct (now - t <? limit); apply total_ret.
Qed.

Lemma total_DataCache_set (key : string) (data : json) : total (DataCache_set key data).
Proof. apply total_bind; [apply total_Date_now | intros; apply total_modify]. Qed.

(** ** readJSONFile *)

Lemma total_readJSONFile (filePath : string) : total (readJSONFile filePath).
Proof. apply total_catch. intros e. apply total_ret. Qed.




(** ** runMonitoringScript *)

(** C5, as stated, fails: with one retry allowed, the runner of the
    specification runs the script again after its first failure and
    succeeds; runMonitoringScript runs it once and reports the failure. *)
Lemma runMonitoringScript_does_not_retry :
  let w := boot Samples.fails_once Samples.linux Samples.disk_script false in
  fst (runMonitoringScript "generate_report.sh" w)
    = Normal "Script execution failed - using sample data"
  /\ children_run (snd (runMonitoringScript "generate_report.sh" w)) = 1%nat
  /\ fst (spec_probe_run 1 30000 ("bash " ++ in_quotes Samples.report_script) w)
     = Normal (ProbeResult true "Security report generation completed." None)
  /\ children_run (snd (spec_probe_run 1 30000
                                ("bash " ++ in_quotes Samples.report_script) w))
     = 2%nat.
Proof. vm_compute. repeat split. Qed.

Lemma run_runMonitoringScript (scriptName : string) (w : world) :
  let c := cfg w in
  let command := command_line c (path_join c (BACKEND_DIR c) scriptName) in
  let r := child (env w) (children_run w) command 30000 in
  runMonitoringScript scriptName w
  = if negb (script_found scriptName w)
    then (Normal "Script not found - using sample data", w)
    else if negb (shell_found w)
    then (Normal "Git Bash not available - using sample data", w)
    else (Normal match exec_err r with
                 | None => exec_stdout r
                 | Some _ => failure_notice c
                 end,
          snd (exec command 30000 w)).
Proof.
  unfold runMonitoringScript, script_found, shell_found, command_line, failure_notice,
    existsSync, exec, gets, mret, js_ret, ret, mbind, js_bind, bind.
  cbn.
  repeat (case_match; simplify_eq; cbn in * ); reflexivity.
Qed.

Lemma runMonitoringScript_result (scriptName : string) (w : world) :
  exists message w',
    runMonitoringScript scriptName w = (Normal message, w')
    /\ (w' = w \/ children_run w' = S (children_run w)).
Proof.
  rewrite run_runMonitoringScript.
  destruct (negb (script_found scriptName w)); [eexists _, _; split; [reflexivity | now left]|].
  destruct (negb (shell_found w)); eexists _, _; (split; [reflexivity|]); [now left | now right].
Qed.

Lemma only_clock_refl (w : world) : only_clock w w.
Proof. split; [now destruct w | lia]. Qed.

(** C5, amended. runMonitoringScript makes one attempt at most, with
    no retry and no backoff. When the script is not found its promise
    is resolved with "Script not found - using sample data", and on
    Windows when Git Bash is not found with "Git Bash not available -
    using sample data"; no child process is started. Otherwise one
    child process is started, with the command line [command_line] and
    a time limit of 30000 milliseconds; the promise is resolved with
    its output when it succeeds and with the failure notice of the
    platform when it fails, by its exit status, its time limit or
    otherwise; the disk is then as the child left it. In every case
    the promise is resolved, no timer is set, and nothing else of the
    server changes. *)
Theorem runMonitoringScript_single_attempt (scriptName : string) (w : world) :
  let c := cfg w in
  let command := command_line c (path_join c (BACKEND_DIR c) scriptName) in
  let r := child (env w) (children_run w) command 30000 in
  let w' := snd (runMonitoringScript scriptName w) in
  fst (runMonitoringScript scriptName w)
  = Normal (if negb (script_found scriptName w)
            then "Script not found - using sample data"
            else if negb (shell_found w)
            then "Git Bash not available - using sample data"
            else match exec_err r with
                 | None => exec_stdout r
                 | Some _ => failure_notice c
                 end)
  /\ (if script_found scriptName w && shell_found w
      then only_clock (snd (exec command 30000 w)) w'
           /\ children_run w' = S (children_run w)
           /\ files w' = exec_files r
      else only_clock w w' /\ children_run w' = children_run w /\ files w' = files w)
  /\ timers w' = timers w.
Proof.
  cbv zeta. rewrite run_runMonitoringScript.
  destruct (script_found scriptName w); cbn [negb andb];
    [destruct (shell_found w); cbn [negb]|];
    cbn [fst snd]; repeat split; solve [reflexivity | apply only_clock_refl | lia | now destruct w].
Qed.

Lemma total_runMonitoringScript (scriptName : string) :
  total (runMonitoringScript scriptName).
Proof.
  intros w.
  destruct (runMonitoringScript_result scriptName w) as (m & w' & -> & _).
  exact I.
Qed.

(** ** Object literals and the values they build *)

Lemma returns_try {A} (body : js A) (handler : string -> js A) (Q : A -> Prop) :
  returns body Q -> returns (try_catch body handler) Q.
Proof.
  intros Hb w. unfold try_catch. specialize (Hb w).
  destruct (body w) as [[a|e] w']; simpl in *; [exact Hb | contradiction].
Qed.

Lemma returns_members_literal (Q : json -> Prop) (fields : list (string * js json)) :
  Forall (fun f => returns (snd f) Q) fields ->
  returns (members_literal fields)
    (fun ms => map fst ms = map fst fields /\ Forall (fun m => Q (snd m)) ms).
Proof.
  induction 1 as [|[k e] fields He Hfields IH]; cbn [members_literal].
  - apply returns_ret. split; constructor.
  - eapply returns_bind; [exact He|]. intros v Hv.
    eapply returns_bind; [exact IH|]. intros vs [Hkeys Hvs].
    apply returns_ret. split; [simpl; now rewrite Hkeys | now constructor].
Qed.

Lemma wf_object (ms : list (string * json)) :
  distinct (map fst ms) = true ->
  Forall (fun m => wf (snd m) = true) ms ->
  wf (JObj ms) = true.
Proof.
  intros Hd Hms. cbn [wf]. rewrite Hd. simpl.
  induction Hms as [|[k v] ms Hv Hms IH]; simpl; [reflexivity|].
  simpl in Hv. rewrite Hv. simpl. apply IH.
  simpl in Hd. now apply andb_prop in Hd as [_ Hd].
Qed.

(** An object literal with distinct keys and well-formed fields is a
    well-formed object with these keys. *)
Lemma returns_object_literal (fields : list (string * js json)) :
  distinct (map fst fields) = true ->
  Forall (fun f => returns (snd f) (fun v => wf v = true)) fields ->
  returns (object_literal fields)
    (fun v => wf v = true /\ keys v = map fst fields).
Proof.
  intros Hd Hf. unfold object_literal.
  eapply returns_bind; [apply returns_members_literal, Hf|].
  intros ms [Hkeys Hms]. apply returns_ret. split.
  - apply wf_object; [now rewrite Hkeys | exact Hms].
  - exact Hkeys.
Qed.

Lemma wf_of_object_literal (fields : list (string * js json)) :
  distinct (map fst fields) = true ->
  Forall (fun f => returns (snd f) (fun v => wf v = true)) fields ->
  returns (object_literal fields) (fun v => wf v = true).
Proof.
  intros Hd Hf. eapply returns_weaken; [now apply returns_object_literal|].
  now intros v [H _].
Qed.

Lemma total_object_literal (fields : list (string * js json)) :
  Forall (fun f => total (snd f)) fields -> total (object_literal fields).
Proof.
  intros Hf. unfold object_literal.
  eapply returns_bind; [apply (returns_members_literal (fun _ => True)), Hf|].
  intros ms _. now apply returns_ret.
Qed.

Lemma keys_of_object_literal (fields : list (string * js json)) :
  Forall (fun f => total (snd f)) fields ->
  returns (object_literal fields) (fun v => keys v = map fst fields).
Proof.
  intros Hf. unfold object_literal.
  eapply returns_bind; [apply (returns_members_literal (fun _ => True)), Hf|].
  intros ms [Hkeys _]. now apply returns_ret.
Qed.

Lemma total_random_int (n k : Z) : total (random_int n k).
Proof. apply total_bind; [apply total_Math_random | intros; apply total_ret]. Qed.

Lemma total_random_scaled (n k : Z) : total (random_scaled n k).
Proof. apply total_bind; [apply total_Math_random | intros; apply total_ret]. Qed.

Create HintDb js.

Ltac draw :=
  solve [ apply total_random_int | apply total_random_scaled | apply total_now_iso
        | apply total_Math_random ].

(** A computation that draws and reads the clock, then returns a value
    that is not an array of values nor an object. *)
Ltac leaf :=
  repeat first
    [ apply returns_ret; reflexivity
    | eapply (returns_bind _ _ (fun _ => True)); [draw | intros ? _] ].

Lemma wf_random_field (n k : Z) : returns (random_field n k) (fun v => wf v = true).
Proof. unfold random_field. leaf. Qed.

Lemma wf_timestamp_field : returns timestamp_field (fun v => wf v = true).
Proof. unfold timestamp_field. leaf. Qed.

Lemma wf_random_ip : returns random_ip (fun v => wf v = true).
Proof. unfold random_ip. leaf. Qed.

Lemma wf_random_user : returns random_user (fun v => wf v = true).
Proof. unfold random_user. leaf. Qed.

Lemma wf_pick_field (l : list string) : returns (pick_field l) (fun v => wf v = true).
Proof. unfold pick_field. leaf. Qed.

Lemma wf_scaled_field (n k : Z) : returns (scaled_field n k) (fun v => wf v = true).
Proof. unfold scaled_field. leaf. Qed.

Lemma wf_const (v : json) : wf v = true -> returns (const v) (fun v => wf v = true).
Proof. intros H. now apply returns_ret. Qed.

Lemma wf_push_times (count : nat) (item : js json) :
  returns item (fun v => wf v = true) ->
  returns (push_times count item) (fun vs => forallb wf vs = true).
Proof.
  intros Hitem. induction count as [|n IH]; cbn [push_times].
  - now apply returns_ret.
  - eapply returns_bind; [exact Hitem|]. intros v Hv.
    eapply returns_bind; [exact IH|]. intros vs Hvs.
    apply returns_ret. simpl. now rewrite Hv, Hvs.
Qed.

Lemma wf_array_of (n k : Z) (item : js json) :
  returns item (fun v => wf v = true) ->
  returns (array_of n k item) (fun v => wf v = true).
Proof.
  intros Hitem. unfold array_of.
  eapply (returns_bind _ _ (fun _ => True)); [apply total_random_int | intros count _].
  eapply returns_bind; [apply wf_push_times, Hitem|]. intros vs Hvs.
  now apply returns_ret.
Qed.

#[local] Hint Resolve wf_random_field wf_timestamp_field wf_random_ip wf_random_user
  wf_pick_field wf_scaled_field wf_const wf_array_of wf_of_object_literal : js.

(** The fields of an object literal, one by one. *)
Ltac fields :=
  try unfold dashboard_fields;
  repeat match goal with
         | |- Forall _ (_ :: _) => apply List.Forall_cons; [cbn [snd] |]
         | |- Forall _ [] => apply List.Forall_nil
         end.

Ltac object :=
  apply wf_of_object_literal; [reflexivity | fields; auto 2 with js].

Lemma wf_getLiveLoginData : returns getLiveLoginData (fun v => wf v = true).
Proof. unfold getLiveLoginData. object. Qed.

Lemma wf_getLiveFailedLogins : returns getLiveFailedLogins (fun v => wf v = true).
Proof. unfold getLiveFailedLogins. apply wf_array_of. object. Qed.

Lemma wf_getLiveTopAttackers : returns getLiveTopAttackers (fun v => wf v = true).
Proof. unfold getLiveTopAttackers. apply wf_array_of. object. Qed.

Lemma wf_take_ports (n : nat) :
  wf (JArr (take n [JInt 22; JInt 80; JInt 443; JInt 8080; JInt 3306])) = true.
Proof. do 6 (destruct n as [|n]; [reflexivity|]). reflexivity. Qed.

Lemma wf_getLivePortScans : returns getLivePortScans (fun v => wf v = true).
Proof.
  unfold getLivePortScans. apply wf_array_of. object.
  eapply (returns_bind _ _ (fun _ => True)); [apply total_random_int | intros n _].
  apply returns_ret, wf_take_ports.
Qed.

Lemma wf_getLiveSuspiciousProcesses :
  returns getLiveSuspiciousProcesses (fun v => wf v = true).
Proof. unfold getLiveSuspiciousProcesses. apply wf_array_of. object; leaf. Qed.

Lemma wf_getLiveOpenPorts : returns getLiveOpenPorts (fun v => wf v = true).
Proof.
  unfold getLiveOpenPorts. apply wf_array_of. object; try solve [leaf].
  eapply (returns_bind _ _ (fun _ => True)); [apply total_random_int | intros i _].
  apply returns_ret. now destruct (commonPorts !! Z.to_nat i).
Qed.

Lemma wf_getLiveConnectionStats : returns getLiveConnectionStats (fun v => wf v = true).
Proof. unfold getLiveConnectionStats. object. Qed.

Lemma wf_getLiveSecurityMetrics : returns getLiveSecurityMetrics (fun v => wf v = true).
Proof. unfold getLiveSecurityMetrics. object; object. Qed.

Lemma wf_getLiveAlertSummary : returns getLiveAlertSummary (fun v => wf v = true).
Proof. unfold getLiveAlertSummary. object. Qed.

Lemma wf_getLiveExecutiveSummary : returns getLiveExecutiveSummary (fun v => wf v = true).
Proof. unfold getLiveExecutiveSummary. object. Qed.

(** A live scan gathers a well-formed object with the eleven keys of
    [live_keys], whatever the draws and the clock. *)
Lemma gatherLiveData_snapshot :
  returns gatherLiveData (fun v => wf v = true /\ keys v = live_keys).
Proof.
  unfold gatherLiveData. apply returns_object_literal; [reflexivity|].
  fields; auto using wf_timestamp_field, wf_getLiveLoginData, wf_getLiveFailedLogins,
    wf_getLiveTopAttackers, wf_getLivePortScans, wf_getLiveSuspiciousProcesses,
    wf_getLiveOpenPorts, wf_getLiveConnectionStats, wf_getLiveSecurityMetrics,
    wf_getLiveAlertSummary, wf_getLiveExecutiveSummary.
Qed.

(** ** What a computation leaves as it is *)

Lemma keeps_ret {A X} (f : world -> X) (a : A) : keeps f (mret a).
Proof. intros w. reflexivity. Qed.

Lemma keeps_throw {A X} (f : world -> X) (e : string) : keeps (A := A) f (throw e).
Proof. intros w. reflexivity. Qed.

Lemma keeps_gets {A X} (f : world -> X) (g : world -> A) : keeps f (gets g).
Proof. intros w. reflexivity. Qed.

Lemma keeps_bind {A B X} (f : world -> X) (m : js A) (k : A -> js B) :
  keeps f m -> (forall a, keeps f (k a)) -> keeps f (m ≫= k).
Proof.
  intros Hm Hk w. rewrite run_bind. specialize (Hm w).
  destruct (m w) as [[a|e] w']; simpl in *; [|exact Hm].
  now rewrite Hk.
Qed.

Lemma keeps_catch {A X} (f : world -> X) (body : js A) (handler : string -> js A) :
  keeps f body -> (forall e, keeps f (handler e)) -> keeps f (try_catch body handler).
Proof.
  intros Hb Hh w. unfold try_catch. specialize (Hb w).
  destruct (body w) as [[a|e] w']; simpl in *; [exact Hb|].
  now rewrite Hh.
Qed.

Lemma keeps_members_literal {X} (f : world -> X) (fields : list (string * js json)) :
  Forall (fun x => keeps f (snd x)) fields -> keeps f (members_literal fields).
Proof.
  induction 1 as [|[k e] fields He Hfields IH]; cbn [members_literal].
  - apply keeps_ret.
  - apply keeps_bind; [exact He | intros v].
    apply keeps_bind; [exact IH | intros vs]. apply keeps_ret.
Qed.

Lemma keeps_object_literal {X} (f : world -> X) (fields : list (string * js json)) :
  Forall (fun x => keeps f (snd x)) fields -> keeps f (object_literal fields).
Proof.
  intros H. unfold object_literal.
  apply keeps_bind; [now apply keeps_members_literal | intros; apply keeps_ret].
Qed.

Lemma keeps_push_times {X} (f : world -> X) (count : nat) (item : js json) :
  keeps f item -> keeps f (push_times count item).
Proof.
  intros H. induction count as [|n IH]; cbn [push_times]; [apply keeps_ret|].
  apply keeps_bind; [exact H | intros v].
  apply keeps_bind; [exact IH | intros vs]. apply keeps_ret.
Qed.

Ltac head t := lazymatch t with ?f _ => head f | _ => t end.

(** A call that changes the world in one step. *)
Ltac keeps_call :=
  let w := fresh "w" in
  intros w;
  cbv [Math_random read_clock readFileSync writeFileSync mkdirSync exec setInterval
       clearInterval ws_send modify update_scanner];
  repeat case_match; reflexivity.

(** [keeps f m], by the structure of [m]; [special] is tried first. *)
Ltac keeps_with special :=
  cbv beta;
  first
    [ special
    | lazymatch goal with
      | |- keeps _ (mret _) => apply keeps_ret
      | |- keeps _ (ret _) => apply keeps_ret
      | |- keeps _ (throw _) => apply keeps_throw
      | |- keeps _ (gets _) => apply keeps_gets
      | |- keeps _ (mbind _ _) =>
          apply keeps_bind; [keeps_with special | intros; keeps_with special]
      | |- keeps _ (try_catch _ _) =>
          apply keeps_catch; [keeps_with special | intros; keeps_with special]
      | |- keeps _ (object_literal _) =>
          apply keeps_object_literal; fields; keeps_with special
      | |- keeps _ (push_times _ _) => apply keeps_push_times; keeps_with special
      | |- keeps _ (match ?x with _ => _ end) => destruct x; keeps_with special
      | |- keeps _ Math_random => keeps_call
      | |- keeps _ read_clock => keeps_call
      | |- keeps _ (readFileSync _) => keeps_call
      | |- keeps _ (writeFileSync _ _) => keeps_call
      | |- keeps _ (mkdirSync _) => keeps_call
      | |- keeps _ (exec _ _) => keeps_call
      | |- keeps _ (setInterval _ _) => keeps_call
      | |- keeps _ (clearInterval _) => keeps_call
      | |- keeps _ (ws_send _ _) => keeps_call
      | |- keeps _ (modify _) => keeps_call
      | |- keeps _ (update_scanner _) => keeps_call
      | |- keeps _ ?m => let h := head m in unfold h; keeps_with special
      end ].

Ltac keeps := keeps_with fail.

Lemma keeps_write_all {X} (f : world -> X) (liveData : json) (l : list (string * string)) :
  (forall path text, keeps f (writeFileSync path text)) ->
  keeps f (write_all liveData l).
Proof.
  intros H. induction l as [|[name property] l IH]; cbn [write_all]; [apply keeps_ret|].
  apply keeps_bind; [apply keeps_gets | intros filePath].
  apply keeps_bind; [|intros; exact IH].
  destruct (get property liveData); [apply H | apply keeps_throw].
Qed.

Lemma keeps_saveLiveData {X} (f : world -> X) (liveData : json) :
  (forall path text, keeps f (writeFileSync path text)) ->
  (forall path, keeps f (mkdirSync path)) ->
  keeps f (saveLiveData liveData).
Proof.
  intros Hw Hm. unfold saveLiveData.
  apply keeps_catch; [|intros; apply keeps_ret].
  apply keeps_bind; [apply keeps_gets | intros dir].
  apply keeps_bind; [apply keeps_gets | intros found].
  apply keeps_bind; [destruct (negb found); [apply Hm | apply keeps_ret]|].
  intros _. now apply keeps_write_all.
Qed.

Lemma keeps_broadcast_from {X} (f : world -> X) (liveData : json) (ws count : nat) :
  (forall ws text, keeps f (ws_send ws text)) ->
  keeps f read_clock ->
  keeps f (broadcast_from liveData ws count).
Proof.
  intros Hs Hc. revert ws. induction count as [|n IH]; intros ws;
    cbn [broadcast_from]; [apply keeps_ret|].
  apply keeps_bind; [apply keeps_gets | intros c].
  apply keeps_bind; [|intros; apply IH].
  destruct c as [[[] u i]|]; try apply keeps_ret.
  apply keeps_bind; [|intros; apply Hs].
  unfold now_iso. apply keeps_bind; [exact Hc | intros; apply keeps_ret].
Qed.

Lemma keeps_broadcastLiveUpdate {X} (f : world -> X) (liveData : json) :
  (forall ws text, keeps f (ws_send ws text)) ->
  keeps f read_clock ->
  keeps f (broadcastLiveUpdate liveData).
Proof.
  intros Hs Hc. unfold broadcastLiveUpdate.
  apply keeps_bind; [apply keeps_gets | intros count].
  now apply keeps_broadcast_from.
Qed.

Lemma keeps_gatherLiveData_control : keeps control gatherLiveData.
Proof. keeps. Qed.

Lemma keeps_gatherLiveData_cache : keeps cache gatherLiveData.
Proof. keeps. Qed.

Lemma keeps_gatherLiveData_clients : keeps clients gatherLiveData.
Proof. keeps. Qed.

Lemma keeps_gatherLiveData_scanner : keeps realTimeScanner gatherLiveData.
Proof. keeps. Qed.

(** ** The scan counter *)

(** What a live scan does once the time and the counter are written:
    gather, save, broadcast. *)
Lemma keeps_scan_body_scanner :
  keeps realTimeScanner
    (liveData ← gatherLiveData; saveLiveData liveData;; broadcastLiveUpdate liveData).
Proof.
  apply keeps_bind; [apply keeps_gatherLiveData_scanner | intros liveData].
  apply keeps_bind; [apply keeps_saveLiveData; intros; keeps|].
  intros _. apply keeps_broadcastLiveUpdate; [intros; keeps | keeps].
Qed.

Lemma run_now_iso (w : world) :
  now_iso w
  = (Normal (iso (clock (env w) (clock_reads w))),
     World (env w) (cfg w) (randoms_drawn w) (S (clock_reads w)) (children_run w)
       (files w) (read_only w) (cache w) (ttl w) (timers w) (next_timer w)
       (clients w) (realTimeScanner w)).
Proof. reflexivity. Qed.

Lemma run_update_scanner (f : scanner -> scanner) (w : world) :
  update_scanner f w = (Normal tt, with_scanner (f (realTimeScanner w)) w).
Proof. reflexivity. Qed.

Lemma performLiveScan_scanner (w : world) :
  realTimeScanner (snd (performLiveScan w))
  = Scanner (isActive (realTimeScanner w)) (scanInterval (realTimeScanner w))
      (scanIntervalMs (realTimeScanner w))
      (Some (iso (clock (env w) (clock_reads w))))
      (scanCount (realTimeScanner w) + 1).
Proof.
  unfold performLiveScan, try_catch.
  rewrite run_bind, run_now_iso. cbv beta iota.
  rewrite run_bind, run_update_scanner. cbv beta iota.
  rewrite run_bind, run_update_scanner. cbv beta iota.
  match goal with
  | |- context [mbind ?k gatherLiveData ?w1] =>
      pose proof (keeps_scan_body_scanner w1) as Hk;
      destruct (mbind k gatherLiveData w1) as [[[]|e] w2]
  end; cbn in Hk |- *; rewrite Hk; reflexivity.
Qed.

Lemma get_not_key (k : string) (v : json) :
  existsb (String.eqb k) (keys v) = false -> get k v = None.
Proof.
  destruct v as [ | | | | |ms]; try reflexivity. cbn [keys get].
  induction ms as [|[k' x] ms IH]; simpl; [reflexivity|].
  intros H. apply orb_false_elim in H as [-> H]. auto.
Qed.

Lemma has_key_keys (k : string) (v : json) :
  has_key k v = existsb (String.eqb k) (keys v).
Proof.
  unfold has_key. destruct v as [ | | | | |ms]; try reflexivity. cbn [keys get].
  induction ms as [|[k' x] ms IH]; simpl; [reflexivity|].
  destruct (String.eqb k k'); [reflexivity | exact IH].
Qed.

(** Starting a scanner that is stopped: the flag, the counter and the
    timer are written, then a first scan runs. *)
Lemma startRealTimeScanning_stopped (w : world) :
  isActive (realTimeScanner w) = false ->
  startRealTimeScanning w
  = performLiveScan
      (World (env w) (cfg w) (randoms_drawn w) (clock_reads w) (children_run w)
         (files w) (read_only w) (cache w) (ttl w)
         (<[next_timer w := Timer (scanIntervalMs (realTimeScanner w)) LiveScanTick]>
            (timers w))
         (S (next_timer w)) (clients w)
         (Scanner true (Some (next_timer w)) (scanIntervalMs (realTimeScanner w))
            (lastScanTime (realTimeScanner w)) 0)).
Proof.
  intros H. unfold startRealTimeScanning.
  rewrite run_bind. unfold gets at 1. cbv beta iota. rewrite H.
  rewrite run_bind, run_update_scanner. cbv beta iota.
  rewrite run_bind, run_update_scanner. cbv beta iota.
  rewrite run_bind. unfold gets at 1. cbv beta iota.
  rewrite run_bind. unfold setInterval at 1. cbv beta iota zeta.
  rewrite run_bind, run_update_scanner. cbv beta iota.
  reflexivity.
Qed.

Lemma startRealTimeScanning_running (w : world) :
  isActive (realTimeScanner w) = true -> startRealTimeScanning w = (Normal tt, w).
Proof.
  intros H. unfold startRealTimeScanning.
  rewrite run_bind. unfold gets at 1. cbv beta iota. now rewrite H.
Qed.

(** C3, as stated, fails: the snapshot of a live scan has no sequence
    number, and neither has the message a client receives: a client
    connects, scanning starts, and the second text in its inbox is a
    live_update without a sequence, at the top or in its data. *)
Lemma snapshot_has_no_sequence :
  (get "sequence" <$> normal (fst (gatherLiveData Samples.bare))) = Some None
  /\ (text ← (clients (run [Connect; PostStart] Samples.bare) !! 0%nat)
              ≫= (fun c => inbox c !! 1%nat);
      message ← parse text;
      Some (get "type" message, get "sequence" message,
            get "data" message ≫= get "sequence"))
     = Some (Some (JStr "live_update"), None, None).
Proof. vm_compute. split; reflexivity. Qed.

(** C3, amended. A published snapshot carries no sequence number: it
    has the eleven keys of a live scan, and the message around it has a
    type, the data and a timestamp. The scanner counts its scans in
    scanCount: every live scan adds exactly one, so the counter grows
    strictly from one scan to the next; starting a stopped scanner sets
    it back, to 1 after the immediate scan. *)
Theorem scan_counter_outside_snapshot (w : world) :
  match fst (gatherLiveData w) with
  | Normal snapshot => keys snapshot = live_keys /\ get "sequence" snapshot = None
  | Thrown _ => False
  end
  /\ (forall liveData now,
        keys (live_update_message liveData now) = ["type"; "data"; "timestamp"])
  /\ scanCount (realTimeScanner (snd (performLiveScan w)))
     = scanCount (realTimeScanner w) + 1
  /\ scanCount (realTimeScanner (snd (startRealTimeScanning w)))
     = if isActive (realTimeScanner w) then scanCount (realTimeScanner w) else 1.
Proof.
  split; [|split; [|split]].
  - pose proof (gatherLiveData_snapshot w) as H.
    destruct (fst (gatherLiveData w)) as [v|e]; [|exact H].
    destruct H as [_ Hk]. split; [exact Hk|].
    apply get_not_key. now rewrite Hk.
  - reflexivity.
  - now rewrite performLiveScan_scanner.
  - destruct (isActive (realTimeScanner w)) eqn:Ha.
    + now rewrite startRealTimeScanning_running.
    + rewrite startRealTimeScanning_stopped by assumption.
      now rewrite performLiveScan_scanner.
Qed.

(** ** The wire format *)

(** C9. A snapshot that is serialized into a live_update message and
    parsed back by the client comes back whole: the data have the same
    section keys, the same threat level and the same alert counts; and
    so does a snapshot written to a file by JSON.stringify(data, null, 2)
    and read again by JSON.parse. The snapshots are the JSON values with
    distinct keys in every object, which is all a JavaScript object can
    be; [gatherLiveData_snapshot] shows it of every gathered snapshot. *)
Theorem snapshot_round_trip (snapshot : json) (now : string) :
  wf snapshot = true ->
  exists received data,
    parse (stringify (live_update_message snapshot now)) = Some received
    /\ get "data" received = Some data
    /\ keys data = keys snapshot
    /\ threat_level_of data = threat_level_of snapshot
    /\ alert_counts_of data = alert_counts_of snapshot
    /\ parse (stringify_pretty snapshot) = Some snapshot.
Proof.
  intros Hwf. exists (live_update_message snapshot now), snapshot.
  split; [|split; [reflexivity | split; [reflexivity | split; [reflexivity | split;
    [reflexivity|]]]]].
  - apply (JsonProofs.parse_serialize 0). cbn [live_update_message wf]. simpl.
    now rewrite Hwf.
  - apply (JsonProofs.parse_serialize 2), Hwf.
Qed.

Lemma snapshot_round_trip_witness :
  wf Samples.first_snapshot = true
  /\ exists received data,
       parse (stringify (live_update_message Samples.first_snapshot (iso Samples.noon)))
         = Some received
       /\ get "data" received = Some data
       /\ keys data = keys Samples.first_snapshot
       /\ threat_level_of data = threat_level_of Samples.first_snapshot
       /\ alert_counts_of data = alert_counts_of Samples.first_snapshot
       /\ parse (stringify_pretty Samples.first_snapshot) = Some Samples.first_snapshot.
Proof.
  split; [vm_compute; reflexivity|].
  apply (snapshot_round_trip Samples.first_snapshot (iso Samples.noon)).
  vm_compute. reflexivity.
Defined.

(** ** What the handlers leave as it is *)

Lemma keeps_ws_send_control (ws : nat) (text : string) : keeps control (ws_send ws text).
Proof.
  intros w. unfold ws_send.
  destruct (clients w !! ws) as [c|] eqn:Hc; [|reflexivity].
  destruct (readyState c) eqn:Hr; try reflexivity.
  unfold control. cbn. f_equal.
  rewrite list_fmap_insert. apply list_insert_id.
  now rewrite list_lookup_fmap, Hc.
Qed.

(** The parts of a scan of which it is known what they keep. *)
Ltac known :=
  idtac;
  lazymatch goal with
  | |- keeps control (ws_send _ _) => apply keeps_ws_send_control
  | |- keeps control gatherLiveData => apply keeps_gatherLiveData_control
  | |- keeps cache gatherLiveData => apply keeps_gatherLiveData_cache
  | |- keeps clients gatherLiveData => apply keeps_gatherLiveData_clients
  | |- keeps realTimeScanner gatherLiveData => apply keeps_gatherLiveData_scanner
  | |- keeps _ (saveLiveData _) => apply keeps_saveLiveData; intros; keeps_call
  | |- keeps control (broadcastLiveUpdate _) =>
      apply keeps_broadcastLiveUpdate;
        [intros; apply keeps_ws_send_control | keeps_call]
  | |- keeps _ (broadcastLiveUpdate _) =>
      apply keeps_broadcastLiveUpdate; [intros; keeps_call | keeps_call]
  end.

Ltac keeps2 := keeps_with known.

Lemma keeps_performLiveScan_control : keeps control performLiveScan.
Proof. keeps2. Qed.

Lemma keeps_performLiveScan_cache : keeps cache performLiveScan.
Proof. keeps2. Qed.

Lemma keeps_send_update_control (ws : nat) : keeps control (send_update ws).
Proof. keeps2. Qed.

Lemma keeps_get_api_dashboard_control : keeps control get_api_dashboard.
Proof. keeps2. Qed.

Lemma keeps_get_api_dashboard_clients : keeps clients get_api_dashboard.
Proof. keeps2. Qed.

Lemma keeps_post_api_scan_run_control : keeps control post_api_scan_run.
Proof. keeps2. Qed.

Lemma keeps_post_api_scan_run_clients : keeps clients post_api_scan_run.
Proof. keeps2. Qed.

Lemma keeps_stopRealTimeScanning_clients : keeps clients stopRealTimeScanning.
Proof. keeps2. Qed.

Lemma keeps_stopRealTimeScanning_cache : keeps cache stopRealTimeScanning.
Proof. keeps2. Qed.

Lemma keeps_startRealTimeScanning_cache : keeps cache startRealTimeScanning.
Proof.
  unfold startRealTimeScanning.
  keeps_with ltac:(apply keeps_performLiveScan_cache).
Qed.

Lemma keeps_on_connection_cache : keeps cache on_connection.
Proof. keeps2. Qed.

Lemma keeps_on_close_cache (ws : nat) : keeps cache (on_close ws).
Proof. keeps2. Qed.

Lemma keeps_on_error_cache (ws : nat) : keeps cache (on_error ws).
Proof. keeps2. Qed.

Lemma keeps_on_error_clients (ws : nat) : keeps clients (on_error ws).
Proof. keeps2. Qed.

(** [preserves I m], by the structure of [m]; [special] is tried first. *)
Ltac pres_with special :=
  cbv beta;
  first
    [ special
    | lazymatch goal with
      | |- preserves _ (mret _) => apply preserves_ret
      | |- preserves _ (ret _) => apply preserves_ret
      | |- preserves _ (throw _) => apply preserves_throw
      | |- preserves _ (gets _) => apply preserves_gets
      | |- preserves _ (mbind _ _) =>
          apply preserves_bind; [pres_with special | intros; pres_with special]
      | |- preserves _ (try_catch _ _) =>
          apply preserves_catch; [pres_with special | intros; pres_with special]
      | |- preserves _ (match ?x with _ => _ end) => destruct x; pres_with special
      | |- preserves _ ?m => let h := head m in unfold h; pres_with special
      end ].

(** ** What is sent to the sockets *)











Lemma run_preserves (I : world -> Prop) :
  (forall e, preserves I (handle e)) ->
  forall events w, I w -> I (run events w).
Proof.
  intros H events. unfold run.
  induction events as [|e events IH]; intros w Hw; cbn [fold_left]; [exact Hw|].
  apply IH. apply (H e w Hw).
Qed.




(** ** The cached dashboard *)

Lemma last_char_append (a b : string) :
  b <> EmptyString -> last_char (a ++ b) = last_char b.
Proof.
  intros Hb. induction a as [|c a IH]; [reflexivity|].
  cbn [append last_char]. rewrite IH.
  destruct (a ++ b)%string eqn:E; [|reflexivity].
  destruct a; simpl in E; [congruence | discriminate].
Qed.

(** A section file is not the cache key of the dashboard. *)
Lemma output_path_not_dashboard (c : config) (name : string) :
  last_char name = Some "n"%char ->
  path_join c (OUTPUT_DIR c) name <> "dashboard_data".
Proof.
  intros Hn Heq. apply (f_equal last_char) in Heq.
  unfold path_join in Heq.
  assert (Hne : name <> EmptyString) by (intros ->; discriminate).
  rewrite last_char_append in Heq.
  - rewrite last_char_append in Heq by exact Hne. rewrite Hn in Heq. discriminate.
  - destruct (sep c); [|discriminate]. simpl. exact Hne.
Qed.

Lemma keeps_cache_ok {A} (m : js A) : keeps cache m -> preserves cache_ok m.
Proof. intros H w Hw. unfold cache_ok. now rewrite H. Qed.

Lemma DataCache_set_cache_ok (key : string) (data : json) :
  key <> "dashboard_data" \/ has_all_sections data = true ->
  preserves cache_ok (DataCache_set key data).
Proof.
  intros Hk w Hw v t. unfold DataCache_set. rewrite run_bind.
  unfold Date_now. rewrite run_bind. unfold read_clock. cbn.
  destruct (decide (key = "dashboard_data")) as [->|Hne].
  - rewrite lookup_insert_eq. intros [= <- <-]. now destruct Hk.
  - rewrite lookup_insert_ne by exact Hne. apply Hw.
Qed.

Lemma DataCache_clear_cache_ok : preserves cache_ok DataCache_clear.
Proof. intros w Hw v t. cbn. now rewrite lookup_empty. Qed.

Lemma readJSONFile_cache_ok (filePath : string) :
  filePath <> "dashboard_data" -> preserves cache_ok (readJSONFile filePath).
Proof.
  intros Hne. unfold readJSONFile.
  pres_with ltac:(idtac; lazymatch goal with
    | |- preserves cache_ok (DataCache_set _ _) =>
        apply DataCache_set_cache_ok; left; exact Hne
    | |- preserves cache_ok (DataCache_get _) => apply keeps_cache_ok; keeps
    | |- preserves cache_ok (existsSync _) => apply keeps_cache_ok; keeps
    | |- preserves cache_ok (readFileSync _) => apply keeps_cache_ok; keeps
    end).
Qed.

Lemma section_cache_ok (name : string) (fallback : js json) :
  last_char name = Some "n"%char ->
  preserves cache_ok fallback ->
  preserves cache_ok (section name fallback).
Proof.
  intros Hn Hf w Hw. unfold section, or_else, output_path.
  rewrite !run_bind. unfold gets at 1. cbv beta iota.
  pose proof (readJSONFile_cache_ok _ (output_path_not_dashboard (cfg w) name Hn) w Hw)
    as Hr.
  destruct (readJSONFile _ w) as [[v|e] w1]; cbn in Hr |- *; [|exact Hr].
  destruct (truthy v); [exact Hr | now apply Hf].
Qed.

Lemma preserves_members_literal (I : world -> Prop) (fields : list (string * js json)) :
  Forall (fun x => preserves I (snd x)) fields -> preserves I (members_literal fields).
Proof.
  induction 1 as [|[k e] fields He Hfields IH]; cbn [members_literal].
  - apply preserves_ret.
  - apply preserves_bind; [exact He | intros v].
    apply preserves_bind; [exact IH | intros vs]. apply preserves_ret.
Qed.

Lemma preserves_object_literal (I : world -> Prop) (fields : list (string * js json)) :
  Forall (fun x => preserves I (snd x)) fields -> preserves I (object_literal fields).
Proof.
  intros H. unfold object_literal.
  apply preserves_bind; [now apply preserves_members_literal | intros; apply preserves_ret].
Qed.

Lemma preserves_bind_returns {A B} (I : world -> Prop) (P : A -> Prop)
    (m : js A) (k : A -> js B) :
  preserves I m -> returns m P -> (forall a, P a -> preserves I (k a)) ->
  preserves I (m ≫= k).
Proof.
  intros Hm Hr Hk w Hw. rewrite run_bind. specialize (Hm w Hw). specialize (Hr w).
  destruct (m w) as [[a|e] w']; simpl in *; [|contradiction].
  now apply Hk.
Qed.

Lemma keeps_generateSampleData_cache (dataType : string) :
  keeps cache (generateSampleData dataType).
Proof. keeps. Qed.

Lemma total_if {A} (c : bool) (a b : js A) :
  total a -> total b -> total (if c then a else b).
Proof. now destruct c. Qed.

Lemma total_generateSampleData (dataType : string) : total (generateSampleData dataType).
Proof.
  unfold generateSampleData. apply total_bind; [apply total_now_iso | intros now].
  apply total_if; [|apply total_if; [|apply total_if; [|apply total_ret]]].
  - eapply total_returns. apply wf_of_object_literal; [reflexivity|].
    fields; auto 2 with js.
  - apply total_bind; [|intros; apply total_ret].
    eapply total_returns. apply wf_of_object_literal; [reflexivity|].
    fields; auto 2 with js.
  - eapply total_returns. apply wf_of_object_literal; [reflexivity|].
    fields; auto 2 with js; apply wf_of_object_literal; try reflexivity;
      fields; auto 2 with js.
Qed.

Lemma total_section (name : string) (fallback : js json) :
  total fallback -> total (section name fallback).
Proof.
  intros Hf. unfold section, or_else.
  apply total_bind.
  - apply total_bind; [apply total_gets | intros; apply total_readJSONFile].
  - intros v. destruct (truthy v); [apply total_ret | exact Hf].
Qed.

Lemma total_const (v : json) : total (const v).
Proof. apply total_ret. Qed.

Ltac section_fields tac :=
  fields;
  lazymatch goal with
  | |- _ (section _ _) => tac
  | |- _ timestamp_field => idtac
  end.

Lemma forallb_same {A} (f g : A -> bool) (l : list A) :
  (forall x, f x = g x) -> forallb f l = forallb g l.
Proof. intros H. induction l as [|x l IH]; simpl; [reflexivity | now rewrite H, IH]. Qed.

Lemma dashboardData_sections :
  returns dashboardData (fun v => has_all_sections v = true).
Proof.
  eapply returns_weaken.
  - unfold dashboardData. apply keys_of_object_literal.
    fields;
      first [ apply total_section;
              first [apply total_generateSampleData | apply total_const]
            | eapply total_returns, wf_timestamp_field ].
  - intros v Hk. unfold has_all_sections.
    rewrite (forallb_same _ (fun k => existsb (String.eqb k) (keys v)));
      [now rewrite Hk | intros k; apply has_key_keys].
Qed.

Lemma dashboardData_cache_ok : preserves cache_ok dashboardData.
Proof.
  unfold dashboardData. apply preserves_object_literal.
  fields;
    first [ apply section_cache_ok;
            [reflexivity
            | apply keeps_cache_ok;
              first [apply keeps_generateSampleData_cache | unfold const; keeps]]
          | apply keeps_cache_ok; keeps ].
Qed.

Lemma keeps_runMonitoringScript_cache (scriptName : string) :
  keeps cache (runMonitoringScript scriptName).
Proof. keeps. Qed.

Lemma get_api_dashboard_cache_ok : preserves cache_ok get_api_dashboard.
Proof.
  unfold get_api_dashboard. apply preserves_catch; [|intros; apply preserves_ret].
  apply preserves_bind; [apply keeps_cache_ok; keeps | intros cachedData].
  destruct (truthy cachedData); [apply preserves_ret|].
  apply preserves_bind;
    [apply keeps_cache_ok, keeps_runMonitoringScript_cache | intros _].
  apply (preserves_bind_returns cache_ok (fun v => has_all_sections v = true));
    [apply dashboardData_cache_ok | apply dashboardData_sections | intros data Hd].
  apply preserves_bind; [|intros; apply preserves_ret].
  apply DataCache_set_cache_ok. now right.
Qed.

Ltac cache_step :=
  idtac;
  lazymatch goal with
  | |- preserves cache_ok get_api_dashboard => apply get_api_dashboard_cache_ok
  | |- preserves cache_ok DataCache_clear => apply DataCache_clear_cache_ok
  | |- preserves cache_ok (runMonitoringScript _) =>
      apply keeps_cache_ok, keeps_runMonitoringScript_cache
  | |- preserves cache_ok (section _ _) =>
      apply section_cache_ok; [reflexivity | apply keeps_cache_ok; unfold const; keeps]
  | |- preserves cache_ok performLiveScan =>
      apply keeps_cache_ok, keeps_performLiveScan_cache
  | |- preserves cache_ok startRealTimeScanning =>
      apply keeps_cache_ok, keeps_startRealTimeScanning_cache
  | |- preserves cache_ok stopRealTimeScanning =>
      apply keeps_cache_ok, keeps_stopRealTimeScanning_cache
  | |- preserves cache_ok on_connection => apply keeps_cache_ok, keeps_on_connection_cache
  | |- preserves cache_ok (on_close _) => apply keeps_cache_ok, keeps_on_close_cache
  | |- preserves cache_ok (on_error _) => apply keeps_cache_ok, keeps_on_error_cache
  | |- preserves cache_ok (ws_send _ _) => apply keeps_cache_ok; keeps
  | |- preserves cache_ok now_iso => apply keeps_cache_ok; keeps
  | |- preserves cache_ok (modify _) => apply keeps_cache_ok; keeps
  end.

Lemma handle_cache_ok (e : event) : preserves cache_ok (handle e).
Proof. destruct e; cbn [handle]; pres_with cache_step. Qed.

Lemma run_cache_ok (events : list event) (o : oracle) (c : config)
    (f : gmap string node) (ro : bool) :
  cache_ok (run events (boot o c f ro)).
Proof.
  apply (run_preserves cache_ok handle_cache_ok).
  intros v t. cbn. now rewrite lookup_empty.
Qed.

(** ** GET /api/dashboard *)

Lemma DataCache_get_value (key : string) (w : world) :
  fst (DataCache_get key w) = Normal (default JNull (cache_hit key w)).
Proof.
  unfold DataCache_get, cache_hit, Date_now, read_clock, gets,
    mret, js_ret, ret, mbind, js_bind, bind.
  cbn. repeat (case_match; simplify_eq; cbn in *; try reflexivity).
Qed.

(** The dashboard built from the files, when the cache has none. *)
Lemma dashboard_built :
  returns
    (runMonitoringScript "generate_report.sh";;
     data ← dashboardData;
     DataCache_set "dashboard_data" data;;
     mret (Response 200 data))
    (fun r => status r = 200 /\ has_all_sections (body r) = true).
Proof.
  eapply returns_bind; [apply total_runMonitoringScript | intros _ _].
  eapply returns_bind; [apply dashboardData_sections | intros data Hd].
  eapply returns_bind; [apply total_DataCache_set | intros _ _].
  apply returns_ret. now split.
Qed.

(** The request is answered with status 200; the body is a whole
    dashboard when the cached one, if any, is. *)
Lemma dashboard_response (w : world) :
  match fst (get_api_dashboard w) with
  | Normal r => status r = 200 /\ (cache_ok w -> has_all_sections (body r) = true)
  | Thrown _ => False
  end.
Proof.
  unfold get_api_dashboard, try_catch. rewrite run_bind.
  pose proof (DataCache_get_value "dashboard_data" w) as Hg.
  destruct (DataCache_get "dashboard_data" w) as [[v|e] w1]; simpl in Hg;
    [|discriminate].
  injection Hg as ->. cbv beta iota.
  destruct (truthy (default JNull (cache_hit "dashboard_data" w))) eqn:Ht.
  - cbn. split; [reflexivity|]. intros Hok. unfold cache_hit in *.
    destruct (cache w !! "dashboard_data") as [[d t]|] eqn:Hc; [|discriminate].
    destruct (_ <? _); [|discriminate]. cbn in *. exact (Hok d t Hc).
  - pose proof (dashboard_built w1) as Hb.
    match goal with
    | |- context [mbind ?k ?m w1] => destruct (mbind k m w1) as [[r|e] w2]
    end; cbn in Hb |- *; tauto.
Qed.

(** C2, as stated, fails on the snapshot of a live scan: seven of the
    seventeen section keys are not in it. *)
Lemma live_snapshot_omits_sections :
  (has_all_sections <$> normal (fst (gatherLiveData Samples.bare))) = Some false
  /\ (has_key "top_processes" <$> normal (fst (gatherLiveData Samples.bare)))
     = Some false.
Proof. vm_compute. split; reflexivity. Qed.

(** C2, amended. Whatever has happened to the server and whatever is
    on the disk, also when no section file can be read, the object
    GET /api/dashboard answers with contains every one of the seventeen
    section keys. The snapshot of a live scan contains the timestamp
    and ten of them: login_summary, failed_logins, top_attackers,
    portscans, suspicious_processes, open_ports, connection_stats,
    security_metrics, alert_summary and executive_summary. *)
Theorem dashboard_has_every_section (events : list event) (o : oracle) (c : config)
    (f : gmap string node) (ro : bool) :
  let w := run events (boot o c f ro) in
  match fst (get_api_dashboard w) with
  | Normal r => status r = 200 /\ has_all_sections (body r) = true
  | Thrown _ => False
  end
  /\ match fst (gatherLiveData w) with
     | Normal snapshot => keys snapshot = live_keys
     | Thrown _ => False
     end.
Proof.
  intros w. split.
  - pose proof (dashboard_response w) as H.
    destruct (fst (get_api_dashboard w)) as [r|e]; [|exact H].
    destruct H as [Hs Hb]. split; [exact Hs|]. apply Hb, run_cache_ok.
  - pose proof (gatherLiveData_snapshot w) as H.
    destruct (fst (gatherLiveData w)) as [v|e]; [|exact H]. apply H.
Qed.

(** ** Sections that cannot be read *)




(** ** The scan controller *)

Lemma control_ok_same (w w' : world) :
  control w' = control w -> control_ok w -> control_ok w'.
Proof.
  unfold control. intros H [H1 H2 H3 H4 H5 H6].
  injection H as Ht Hn Ha Hi Hm Hc.
  split; rewrite ?Ht, ?Hn, ?Ha, ?Hi, ?Hm; auto.
  intros i c id Hl Hu.
  assert ((updateInterval <$> clients w) !! i = Some (Some id)) as Hl'.
  { rewrite <- Hc, list_lookup_fmap, Hl. cbn. now rewrite Hu. }
  rewrite list_lookup_fmap in Hl'.
  destruct (clients w !! i) as [c'|] eqn:Hc'; [|discriminate].
  cbn in Hl'. injection Hl' as Hl'. exact (H6 i c' id Hc' Hl').
Qed.

Lemma keeps_control_ok {A} (m : js A) : keeps control m -> preserves control_ok m.
Proof. intros H w Hw. exact (control_ok_same _ _ (H w) Hw). Qed.

Lemma control_ok_boot (o : oracle) (c : config) (f : gmap string node) (ro : bool) :
  control_ok (boot o c f ro).
Proof.
  split; cbn; try (intros; rewrite ?lookup_empty in *; discriminate); try reflexivity.
Qed.

Lemma startRealTimeScanning_control_ok : preserves control_ok startRealTimeScanning.
Proof.
  intros w Hw. destruct (isActive (realTimeScanner w)) eqn:Ha.
  - now rewrite startRealTimeScanning_running.
  - rewrite startRealTimeScanning_stopped by assumption.
    apply keeps_control_ok; [apply keeps_performLiveScan_control|].
    destruct Hw as [H1 H2 H3 H4 H5 H6]. split; cbn.
    + intros id t Hl. apply lookup_insert_Some in Hl as [[<- _]|[_ Hl]];
        [lia | apply H1 in Hl; lia].
    + intros id [= <-]. lia.
    + intros id t Hl Hact. apply lookup_insert_Some in Hl as [[<- <-]|[Hne Hl]].
      * split; [reflexivity | split; [reflexivity | exact H5]].
      * destruct (H3 id t Hl Hact) as [Hx _]. congruence.
    + intros _. exists (next_timer w). split; [reflexivity|].
      now rewrite lookup_insert_eq, H5.
    + exact H5.
    + intros i c id Hl Hu. destruct (H6 i c id Hl Hu) as [Hlt _].
      split; [lia|]. intros [= E]. lia.
Qed.

Lemma stopRealTimeScanning_stopped (w : world) :
  isActive (realTimeScanner w) = false -> stopRealTimeScanning w = (Normal tt, w).
Proof.
  intros H. unfold stopRealTimeScanning.
  rewrite run_bind. unfold gets at 1. cbv beta iota. now rewrite H.
Qed.

Lemma stopRealTimeScanning_running (w : world) (id : nat) :
  isActive (realTimeScanner w) = true ->
  scanInterval (realTimeScanner w) = Some id ->
  stopRealTimeScanning w
  = (Normal tt,
     World (env w) (cfg w) (randoms_drawn w) (clock_reads w) (children_run w)
       (files w) (read_only w) (cache w) (ttl w) (delete id (timers w))
       (next_timer w) (clients w)
       (Scanner false None (scanIntervalMs (realTimeScanner w))
          (lastScanTime (realTimeScanner w)) (scanCount (realTimeScanner w)))).
Proof.
  intros Ha Hi. unfold stopRealTimeScanning.
  rewrite run_bind. unfold gets at 1. cbv beta iota. rewrite Ha, Hi. cbn [negb].
  rewrite run_bind, run_update_scanner. cbv beta iota.
  rewrite run_bind. reflexivity.
Qed.

Lemma stopRealTimeScanning_control_ok : preserves control_ok stopRealTimeScanning.
Proof.
  intros w Hw. destruct (isActive (realTimeScanner w)) eqn:Ha.
  - destruct (ok_active w Hw Ha) as (id & Hi & Ht).
    rewrite (stopRealTimeScanning_running w id Ha Hi).
    destruct Hw as [H1 H2 H3 H4 H5 H6]. split; cbn.
    + intros id' t Hl. apply lookup_delete_Some in Hl as [_ Hl]. eauto.
    + discriminate.
    + intros id' t Hl Hact. apply lookup_delete_Some in Hl as [Hne Hl].
      destruct (H3 id' t Hl Hact) as (_ & Hx & _). congruence.
    + discriminate.
    + exact H5.
    + intros i c id' Hl Hu. destruct (H6 i c id' Hl Hu) as [Hlt _].
      split; [exact Hlt | discriminate].
  - now rewrite stopRealTimeScanning_stopped.
Qed.

Lemma clear_update_loop_control_ok (ws : nat) : preserves control_ok (clear_update_loop ws).
Proof.
  intros w Hw. unfold clear_update_loop.
  rewrite run_bind. unfold gets at 1. cbv beta iota.
  destruct (clients w !! ws) as [[r [id|] i]|] eqn:Hc; try exact Hw.
  destruct (ok_clients w Hw ws _ id Hc eq_refl) as [Hlt Hne].
  destruct Hw as [H1 H2 H3 H4 H5 H6]. split; cbn.
  - intros id' t Hl. apply lookup_delete_Some in Hl as [_ Hl]. eauto.
  - exact H2.
  - intros id' t Hl Hact. apply lookup_delete_Some in Hl as [_ Hl]. eauto.
  - intros Ha. destruct (H4 Ha) as (id0 & Hi & Ht). exists id0. split; [exact Hi|].
    rewrite lookup_delete_ne; [exact Ht|]. congruence.
  - exact H5.
  - exact H6.
Qed.

Lemma on_close_control_ok (ws : nat) : preserves control_ok (on_close ws).
Proof.
  unfold on_close. apply preserves_bind; [|intros _; apply clear_update_loop_control_ok].
  apply keeps_control_ok. intros w. unfold control. cbn. f_equal.
  rewrite (list_fmap_alter _ _ id); [apply list_alter_id; reflexivity|].
  apply Forall_forall. reflexivity.
Qed.

Lemma add_client_control_ok :
  preserves control_ok
    (modify (fun w => with_clients (clients w ++ [Client OPEN None []]) w)).
Proof.
  intros w [H1 H2 H3 H4 H5 H6]. split; cbn; auto.
  intros i c id Hl Hu. apply lookup_snoc_Some in Hl as [[_ Hl]|[_ <-]]; [eauto|discriminate].
Qed.

Lemma start_update_loop_control_ok (ws : nat) :
  preserves control_ok
    (id ← setInterval (UpdateTick ws) 30000;
     modify (fun w =>
       with_clients
         (alter (fun c => Client (readyState c) (Some id) (inbox c)) ws (clients w)) w)).
Proof.
  intros w [H1 H2 H3 H4 H5 H6]. rewrite run_bind. unfold setInterval at 1.
  cbv beta iota zeta. split; cbn.
  - intros id t Hl. apply lookup_insert_Some in Hl as [[<- _]|[_ Hl]];
      [lia | apply H1 in Hl; lia].
  - intros id Hi. apply H2 in Hi. lia.
  - intros id t Hl Hact. apply lookup_insert_Some in Hl as [[_ <-]|[_ Hl]];
      [discriminate | eauto].
  - intros Ha. destruct (H4 Ha) as (id0 & Hi & Ht). exists id0. split; [exact Hi|].
    rewrite lookup_insert_ne; [exact Ht|]. apply H2 in Hi. lia.
  - exact H5.
  - intros i c id Hl Hu. rewrite list_lookup_alter in Hl. case_decide as Hd.
    + subst i. destruct (clients w !! ws) as [c0|]; [|discriminate].
      cbn in Hl. injection Hl as <-. cbn in Hu. injection Hu as <-.
      split; [lia|]. intros Hi. apply H2 in Hi. lia.
    + destruct (H6 i c id Hl Hu) as [Hlt Hne]. split; [lia | exact Hne].
Qed.

Lemma on_connection_control_ok : preserves control_ok on_connection.
Proof.
  unfold on_connection.
  apply preserves_bind; [apply preserves_gets | intros ws].
  apply preserves_bind; [apply add_client_control_ok | intros _].
  apply preserves_bind; [apply keeps_control_ok; keeps | intros now].
  apply preserves_bind; [apply keeps_control_ok, keeps_ws_send_control | intros _].
  apply start_update_loop_control_ok.
Qed.

Lemma fire_control_ok (id : nat) : preserves control_ok (fire id).
Proof.
  intros w Hw. unfold fire. rewrite run_bind. unfold gets at 1. cbv beta iota.
  destruct (timers w !! id) as [[ms [|ws]]|]; [| |exact Hw].
  - now apply keeps_control_ok; [apply keeps_performLiveScan_control|].
  - now apply keeps_control_ok; [apply keeps_send_update_control|].
Qed.

Ltac control_step :=
  idtac;
  lazymatch goal with
  | |- preserves control_ok get_api_dashboard =>
      apply keeps_control_ok, keeps_get_api_dashboard_control
  | |- preserves control_ok post_api_scan_run =>
      apply keeps_control_ok, keeps_post_api_scan_run_control
  | |- preserves control_ok startRealTimeScanning => apply startRealTimeScanning_control_ok
  | |- preserves control_ok stopRealTimeScanning => apply stopRealTimeScanning_control_ok
  | |- preserves control_ok on_connection => apply on_connection_control_ok
  | |- preserves control_ok (on_close _) => apply on_close_control_ok
  | |- preserves control_ok (clear_update_loop _) => apply clear_update_loop_control_ok
  | |- preserves control_ok (fire _) => apply fire_control_ok
  | |- preserves control_ok (modify _) => apply keeps_control_ok; keeps
  end.

Lemma handle_control_ok (e : event) : preserves control_ok (handle e).
Proof. destruct e; cbn [handle]; pres_with control_step. Qed.

Lemma run_control_ok (events : list event) (o : oracle) (c : config)
    (f : gmap string node) (ro : bool) :
  control_ok (run events (boot o c f ro)).
Proof. apply (run_preserves control_ok handle_control_ok), control_ok_boot. Qed.

(** ** The two states of the scanner *)

Lemma scan_timers_stopped (w : world) :
  control_ok w -> isActive (realTimeScanner w) = false -> scan_timers w = 0%nat.
Proof.
  intros Hw Ha. unfold scan_timers. apply map_size_empty_iff, map_eq. intros id.
  rewrite lookup_empty. apply map_lookup_filter_None. right. intros t Hl Hact.
  cbn in Hact. destruct (action t) eqn:Et; [|discriminate].
  destruct (ok_scan_timer w Hw id t Hl Et) as [Hx _]. congruence.
Qed.

Lemma scan_timers_running (w : world) :
  control_ok w -> isActive (realTimeScanner w) = true -> scan_timers w = 1%nat.
Proof.
  intros Hw Ha. destruct (ok_active w Hw Ha) as (id & Hi & Ht). unfold scan_timers.
  rewrite <- (map_size_singleton (M := gmap nat) id (Timer 10000 LiveScanTick)).
  f_equal. apply map_eq. intros id'.
  destruct (decide (id' = id)) as [->|Hne].
  - rewrite lookup_singleton_eq. now apply map_lookup_filter_Some.
  - rewrite lookup_singleton_ne by congruence.
    apply map_lookup_filter_None. right. intros t Hl Hact.
    cbn in Hact. destruct (action t) eqn:Et; [|discriminate].
    destruct (ok_scan_timer w Hw id' t Hl Et) as (_ & Hx & _). congruence.
Qed.

Lemma scan_timers_state (w : world) :
  control_ok w ->
  scan_timers w = if isActive (realTimeScanner w) then 1%nat else 0%nat.
Proof.
  intros Hw. destruct (isActive (realTimeScanner w)) eqn:Ha;
    [now apply scan_timers_running | now apply scan_timers_stopped].
Qed.

(** ** A stopped scanner stays as it is *)

Lemma keeps_send_update_scanner (ws : nat) : keeps realTimeScanner (send_update ws).
Proof. keeps2. Qed.

Lemma keeps_get_api_dashboard_scanner : keeps realTimeScanner get_api_dashboard.
Proof. keeps2. Qed.

Lemma keeps_post_api_scan_run_scanner : keeps realTimeScanner post_api_scan_run.
Proof. keeps2. Qed.

Lemma keeps_on_connection_scanner : keeps realTimeScanner on_connection.
Proof. keeps2. Qed.

Lemma keeps_on_close_scanner (ws : nat) : keeps realTimeScanner (on_close ws).
Proof. keeps2. Qed.

Lemma keeps_on_error_scanner (ws : nat) : keeps realTimeScanner (on_error ws).
Proof. keeps2. Qed.

Lemma keeps_get_api_scan_status_scanner : keeps realTimeScanner get_api_scan_status.
Proof. keeps2. Qed.

(** An event that is not a start leaves a stopped scanner stopped, with
    the counter it had. *)
Lemma step_stopped (e : event) (w : world) :
  no_start e = true -> control_ok w -> isActive (realTimeScanner w) = false ->
  realTimeScanner (step e w) = realTimeScanner w.
Proof.
  intros He Hw Ha. unfold step.
  destruct e; try discriminate; cbn [handle].
  - apply keeps_bind; [apply keeps_get_api_dashboard_scanner | intros; apply keeps_ret].
  - apply keeps_bind; [apply keeps_post_api_scan_run_scanner | intros; apply keeps_ret].
  - unfold forget, post_api_scan_stop_realtime, try_catch.
    rewrite run_bind, run_bind, stopRealTimeScanning_stopped by assumption. reflexivity.
  - apply keeps_bind; [apply keeps_get_api_scan_status_scanner | intros; apply keeps_ret].
  - apply keeps_on_connection_scanner.
  - apply keeps_on_close_scanner.
  - apply keeps_on_error_scanner.
  - unfold fire. rewrite run_bind. unfold gets at 1. cbv beta iota.
    destruct (timers w !! id) as [[ms [|ws]]|] eqn:Hl; [| |reflexivity].
    + destruct (ok_scan_timer w Hw id _ Hl eq_refl) as [Hx _]. congruence.
    + apply keeps_send_update_scanner.
  - reflexivity.
Qed.

Lemma run_stopped (later : list event) (w : world) :
  control_ok w -> isActive (realTimeScanner w) = false ->
  realTimeScanner (run (List.filter no_start later) w) = realTimeScanner w.
Proof.
  revert w. induction later as [|e later IH]; intros w Hw Ha; [reflexivity|].
  cbn [List.filter]. destruct (no_start e) eqn:He; [|now apply IH].
  change (run (e :: List.filter no_start later) w)
    with (run (List.filter no_start later) (step e w)).
  pose proof (step_stopped e w He Hw Ha) as Hs.
  rewrite IH; [exact Hs | apply handle_control_ok, Hw | now rewrite Hs].
Qed.

Lemma performLiveScan_normal (w : world) : fst (performLiveScan w) = Normal tt.
Proof.
  unfold performLiveScan, try_catch.
  match goal with |- context [match ?b with _ => _ end] => destruct b as [[[]|e] w'] end;
    reflexivity.
Qed.

Lemma startRealTimeScanning_active (w : world) :
  isActive (realTimeScanner (snd (startRealTimeScanning w))) = true.
Proof.
  destruct (isActive (realTimeScanner w)) eqn:Ha.
  - rewrite startRealTimeScanning_running by assumption. exact Ha.
  - rewrite startRealTimeScanning_stopped by assumption.
    rewrite performLiveScan_scanner. reflexivity.
Qed.

Lemma startRealTimeScanning_normal (w : world) : fst (startRealTimeScanning w) = Normal tt.
Proof.
  destruct (isActive (realTimeScanner w)) eqn:Ha.
  - rewrite startRealTimeScanning_running by assumption. reflexivity.
  - rewrite startRealTimeScanning_stopped by assumption. apply performLiveScan_normal.
Qed.

Lemma stopRealTimeScanning_inactive (w : world) :
  control_ok w ->
  fst (stopRealTimeScanning w) = Normal tt
  /\ isActive (realTimeScanner (snd (stopRealTimeScanning w))) = false.
Proof.
  intros Hw. destruct (isActive (realTimeScanner w)) eqn:Ha.
  - destruct (ok_active w Hw Ha) as (id & Hi & Ht).
    rewrite (stopRealTimeScanning_running w id Ha Hi). split; reflexivity.
  - rewrite stopRealTimeScanning_stopped by assumption. split; [reflexivity | exact Ha].
Qed.

Lemma keeps_performLiveScan_timers : keeps timers performLiveScan.
Proof. keeps2. Qed.

Lemma startRealTimeScanning_timer (w : world) :
  control_ok w -> isActive (realTimeScanner w) = false ->
  timers (snd (startRealTimeScanning w))
  = <[next_timer w := Timer 10000 LiveScanTick]> (timers w)
  /\ fire (next_timer w) (snd (startRealTimeScanning w))
     = performLiveScan (snd (startRealTimeScanning w))
  /\ scanCount (realTimeScanner (snd (startRealTimeScanning w))) = 1.
Proof.
  intros Hw Ha.
  assert (timers (snd (startRealTimeScanning w))
          = <[next_timer w := Timer 10000 LiveScanTick]> (timers w)) as Ht.
  { rewrite startRealTimeScanning_stopped by assumption.
    rewrite keeps_performLiveScan_timers. cbn [timers].
    rewrite (ok_interval_ms w Hw). reflexivity. }
  split; [exact Ht | split].
  - generalize dependent (snd (startRealTimeScanning w)). intros started Ht.
    unfold fire. rewrite run_bind. unfold gets at 1. cbv beta iota.
    rewrite Ht, lookup_insert_eq. reflexivity.
  - rewrite startRealTimeScanning_stopped by assumption.
    rewrite performLiveScan_scanner. reflexivity.
Qed.

(** C6. The scan controller of a running server has two states, told
    apart by isActive: when it is running there is exactly one timer for
    live scans, when it is stopped there is none. Start never throws and
    leaves it running with one scan timer; when it was running already,
    Start changes nothing at all; when it was stopped, Start sets a
    timer of 10000 ms whose firing is a live scan and runs one scan at
    once (the counter, set back to 0, is 1). Stop never throws and
    leaves it stopped with no scan timer; when it was stopped already,
    Stop changes nothing; and after Stop, whatever happens next short
    of a new start, no scan is run: the scanner, with its counter and
    the time of its last scan, stays as it is. The server is any one
    reached from its start by a sequence of events. *)
Theorem scan_controller_two_states (events : list event) (o : oracle) (c : config)
    (f : gmap string node) (ro : bool) :
  let w := run events (boot o c f ro) in
  let started := snd (startRealTimeScanning w) in
  let stopped := snd (stopRealTimeScanning w) in
  scan_timers w = (if isActive (realTimeScanner w) then 1 else 0)%nat
  /\ fst (startRealTimeScanning w) = Normal tt
  /\ isActive (realTimeScanner started) = true
  /\ scan_timers started = 1%nat
  /\ fst (stopRealTimeScanning w) = Normal tt
  /\ isActive (realTimeScanner stopped) = false
  /\ scan_timers stopped = 0%nat
  /\ (forall later : list event,
        realTimeScanner (run (List.filter no_start later) stopped) = realTimeScanner stopped
        /\ scan_timers (run (List.filter no_start later) stopped) = 0%nat)
  /\ (if isActive (realTimeScanner w)
      then started = w
      else stopped = w
           /\ timers started = <[next_timer w := Timer 10000 LiveScanTick]> (timers w)
           /\ fire (next_timer w) started = performLiveScan started
           /\ scanCount (realTimeScanner started) = 1).
Proof.
  cbv zeta.
  pose proof (run_control_ok events o c f ro) as Hw.
  generalize dependent (run events (boot o c f ro)). intros w Hw.
  pose proof (startRealTimeScanning_control_ok w Hw) as Hstarted.
  pose proof (stopRealTimeScanning_control_ok w Hw) as Hstopped.
  destruct (stopRealTimeScanning_inactive w Hw) as [Hn Hoff].
  pose proof (startRealTimeScanning_active w) as Hon.
  split; [exact (scan_timers_state w Hw)|].
  split; [exact (startRealTimeScanning_normal w)|].
  split; [exact Hon|].
  split; [exact (scan_timers_running _ Hstarted Hon)|].
  split; [exact Hn|].
  split; [exact Hoff|].
  split; [exact (scan_timers_stopped _ Hstopped Hoff)|].
  split.
  - intros later.
    pose proof (run_stopped later _ Hstopped Hoff) as Hr.
    split; [exact Hr|]. apply scan_timers_stopped.
    + exact (run_preserves control_ok handle_control_ok _ _ Hstopped).
    + rewrite Hr. exact Hoff.
  - destruct (isActive (realTimeScanner w)) eqn:Ha.
    + rewrite startRealTimeScanning_running by assumption. reflexivity.
    + split; [rewrite stopRealTimeScanning_stopped by assumption; reflexivity|].
      exact (startRealTimeScanning_timer w Hw Ha).
Qed.

End ServerProofs.

(* ===================================================================== *)
(** * Properties of the report files *)
(* ===================================================================== *)

Module ReportFileProofs.
Import Report.

#[local] Arguments String.append !s1 s2 : simpl nomatch.

Lemma weights_range (a b c d : Z) :
  0 <= login_weight a + process_weight b + scan_weight c + change_weight d <= 115
  /\ (login_weight a + process_weight b + scan_weight c + change_weight d) mod 5 = 0.
Proof.
  unfold login_weight, process_weight, scan_weight, change_weight.
  repeat match goal with
         | |- context [?x <? ?y] => destruct (x <? y)
         end; split; first [lia | reflexivity].
Qed.

(** X1. The threat score is a multiple of 5 between 0 and 115, and no
    level is CRITICAL without a suspicious process unless the three
    other sources are all in their highest band: more than 100 failed
    logins, more than 5 port scans and more than 20 recent changes. *)
Theorem threat_score_range (d : output_dir) :
  0 <= fst (calculate_threat_level d) <= 115
  /\ fst (calculate_threat_level d) mod 5 = 0
  /\ (snd (calculate_threat_level d) = CRITICAL ->
      0 < suspicious_process_count d
      \/ (100 < failed_login_volume d /\ 5 < port_scan_count d
          /\ 20 < recent_change_volume d)).
Proof.
  pose proof (ReportProofs.calculate_threat_level_score d) as Hs.
  assert (Hl : snd (calculate_threat_level d)
               = level_of_score (fst (calculate_threat_level d))) by reflexivity.
  rewrite Hl, Hs. unfold weighted_sum.
  destruct (weights_range (failed_login_volume d) (suspicious_process_count d)
              (port_scan_count d) (recent_change_volume d)) as [Hr Hm].
  split; [exact Hr | split; [exact Hm|]].
  unfold level_of_score, login_weight, process_weight, scan_weight, change_weight.
  clear Hr Hm Hl Hs.
  repeat match goal with
         | |- context [?x <? ?y] => destruct (Z.ltb_spec x y)
         end;
    repeat match goal with
           | |- context [?x <=? ?y] => destruct (Z.leb_spec x y)
           end;
    intros Hcrit; first [discriminate Hcrit | lia].
Qed.

(** ** Counts printed by grep -c and read back by the shell *)

Lemma strlong_acc (u : uint) (acc : positive) :
  strlong 10 (Z.pos acc) (NilEmpty.string_of_uint u) = Some (Z.pos (Pos.of_uint_acc u acc)).
Proof.
  revert acc. induction u; intros acc; cbn [NilEmpty.string_of_uint strlong Pos.of_uint_acc];
    [reflexivity | ..];
    cbn [digit_value is_digit nat_of_ascii]; simpl;
    match goal with
    | |- context [Z.of_nat (nat_of_ascii ?c)] =>
        let v := eval vm_compute in (Z.of_nat (nat_of_ascii c)) in
        change (Z.of_nat (nat_of_ascii c)) with v
    end;
    match goal with
    | |- strlong 10 ?z _ = Some (Z.pos (Pos.of_uint_acc _ ?p)) =>
        replace z with (Z.pos p) by lia; apply IHu
    end.
Qed.

Lemma strlong_of_uint (u : uint) :
  strlong 10 0 (NilEmpty.string_of_uint u) = Some (Z.of_N (N.of_uint u)).
Proof.
  induction u; cbn [NilEmpty.string_of_uint strlong]; [reflexivity | exact IHu | ..];
    cbn [digit_value is_digit nat_of_ascii]; simpl;
    match goal with
    | |- context [Z.of_nat (nat_of_ascii ?c)] =>
        let v := eval vm_compute in (Z.of_nat (nat_of_ascii c)) in
        change (Z.of_nat (nat_of_ascii c)) with v
    end; cbn [Z.mul Z.add Z.sub Z.opp Z.pos_sub Pos.pred_double];
    apply (strlong_acc u).
Qed.

Lemma wrap64_small (z : Z) : - 2 ^ 63 <= z < 2 ^ 63 -> wrap64 z = z.
Proof.
  intros H. unfold wrap64. rewrite Z.mod_small by lia. lia.
Qed.

(** The decimal text of a positive number does not start with 0. *)
Lemma to_uint_head (n : N) (l : uint) : (0 < n)%N -> N.to_uint n <> D0 l.
Proof.
  intros Hn Hu.
  pose proof (JsonProofs.unorm_to_uint n) as Hnorm. rewrite Hu in Hnorm.
  pose proof (DecimalN.Unsigned.of_to n) as Hof. rewrite Hu in Hof.
  destruct l as [|l|l|l|l|l|l|l|l|l|l]; [simpl in Hof; lia | ..];
    match type of Hnorm with
    | unorm (D0 ?x) = _ =>
        pose proof (DecimalFacts.nb_digits_unorm x) as Hd;
        change (unorm (D0 x)) with (unorm x) in Hnorm;
        rewrite Hnorm in Hd; simpl in Hd;
        specialize (Hd ltac:(discriminate)); lia
    end.
Qed.

Lemma constant_decimal (c : Z) : 0 < c < 2 ^ 63 -> constant (decimal c) = Some c.
Proof.
  intros Hc. unfold decimal.
  assert (Hn : (0 < Z.to_N c)%N) by lia.
  pose proof (to_uint_head (Z.to_N c)) as Hhead.
  pose proof (JsonProofs.to_uint_nonnil (Z.to_N c)) as Hnil.
  pose proof (strlong_of_uint (N.to_uint (Z.to_N c))) as Hs.
  rewrite DecimalN.Unsigned.of_to, Z2N.id in Hs by lia.
  destruct (N.to_uint (Z.to_N c)) as [|l|l|l|l|l|l|l|l|l|l];
    [congruence | exfalso; now apply (Hhead l) | ..];
    unfold NilZero.string_of_uint; cbn [NilEmpty.string_of_uint constant];
    cbn [NilEmpty.string_of_uint] in Hs; rewrite Hs; cbn [fmap option_fmap option_map];
    f_equal; apply wrap64_small; lia.
Qed.







(** ** Numbers read from a line of JSON text *)



Lemma strip_prefix_prefix (p s r : string) :
  strip_prefix p s = Some r -> String.prefix p s = true.
Proof.
  revert s. induction p as [|a p IH]; intros [|b s]; simpl; try discriminate; auto.
  destruct (Ascii.eqb_spec a b) as [->|Hne]; [|discriminate].
  intros H. destruct (ascii_dec b b); [eauto | congruence].
Qed.

Lemma key_matches_absent (key line : string) :
  contains (quoted key ++ ":") line = false -> key_matches key line = [].
Proof.
  induction line as [|c line IH]; cbn [contains key_matches]; intros H;
    apply orb_false_elim in H as [Hp Hc].
  - destruct (strip_prefix _ _) eqn:E; [|reflexivity].
    apply strip_prefix_prefix in E. congruence.
  - rewrite (IH Hc).
    destruct (strip_prefix _ _) eqn:E; [|reflexivity].
    apply strip_prefix_prefix in E. congruence.
Qed.

Lemma strip_prefix_cons (a b : ascii) (p s : string) :
  strip_prefix (String a p) (String b s)
  = if Ascii.eqb a b then strip_prefix p s else None.
Proof. reflexivity. Qed.

Lemma quoted_colon (key : string) :
  quoted key ++ ":" = String dquote (key ++ String dquote ":").
Proof.
  unfold quoted. cbn [String.append]. now rewrite JsonProofs.append_assoc.
Qed.

Lemma key_matches_skip (key : string) (c : ascii) (s : string) :
  Ascii.eqb c dquote = false -> key_matches key (String c s) = key_matches key s.
Proof.
  intros Hc. cbn [key_matches]. rewrite quoted_colon, strip_prefix_cons.
  rewrite Ascii.eqb_sym, Hc. reflexivity.
Qed.

Lemma key_matches_unquoted (key s t : string) :
  unquoted s = true -> key_matches key (s ++ t) = key_matches key t.
Proof.
  induction s as [|c s IH]; [reflexivity|]. unfold unquoted. cbn [list_ascii_of_string forallb].
  intros H. apply andb_prop in H as [Hc Hs]. apply negb_true_iff in Hc.
  cbn [String.append]. rewrite key_matches_skip by assumption. now apply IH.
Qed.

Lemma strip_prefix_app (p t : string) : strip_prefix p (p ++ t) = Some t.
Proof.
  induction p as [|a p IH]; [now destruct t|].
  cbn [String.append strip_prefix]. now rewrite Ascii.eqb_refl.
Qed.

Lemma plain_key_unquoted (key : string) : plain_key key = true -> unquoted key = true.
Proof.
  unfold plain_key, unquoted. induction (list_ascii_of_string key) as [|c l IH];
    [reflexivity|]. cbn [forallb]. intros H. apply andb_prop in H as [Hc Hl].
  apply andb_prop in Hc as [Hq _]. now rewrite Hq, IH.
Qed.

Lemma unquoted_spaces (n : nat) : unquoted (spaces n) = true.
Proof. induction n; [reflexivity | exact IHn]. Qed.

Lemma take_digits_uint (u : uint) (rest : string) :
  take_digits (NilEmpty.string_of_uint u ++ rest)
  = NilEmpty.string_of_uint u ++ take_digits rest.
Proof.
  induction u; cbn [NilEmpty.string_of_uint String.append]; [reflexivity | ..];
    cbn [take_digits]; rewrite IHu; reflexivity.
Qed.

Lemma unquoted_uint (u : uint) : unquoted (NilEmpty.string_of_uint u) = true.
Proof. induction u; [reflexivity | exact IHu ..]. Qed.

Lemma decimal_uint (n : Z) :
  decimal n = NilEmpty.string_of_uint (N.to_uint (Z.to_N n)).
Proof.
  unfold decimal, NilZero.string_of_uint.
  pose proof (JsonProofs.to_uint_nonnil (Z.to_N n)). now destruct (N.to_uint (Z.to_N n)).
Qed.

Lemma decimal_head (n : Z) :
  exists c r, decimal n = String c r /\ is_digit c = true.
Proof.
  rewrite decimal_uint. pose proof (JsonProofs.to_uint_nonnil (Z.to_N n)) as H.
  destruct (N.to_uint (Z.to_N n)); [congruence | ..]; cbn [NilEmpty.string_of_uint];
    eexists _, _; split; reflexivity.
Qed.

Lemma take_digits_first (rest : string) :
  no_digit_first rest = true -> take_digits rest = EmptyString.
Proof.
  destruct rest as [|c r]; [reflexivity|]. cbn [no_digit_first take_digits].
  intros H. apply negb_true_iff in H. now rewrite H.
Qed.

Lemma skip_spaces_spaces (n : nat) (s : string) :
  skip_spaces (spaces n ++ s) = skip_spaces s.
Proof. induction n; [reflexivity | exact IHn]. Qed.

Lemma append_empty (s : string) : s ++ "" = s.
Proof. induction s as [|c s IH]; simpl; congruence. Qed.

(** What the pipeline prints for a line with one key and its number. *)
Lemma key_matches_number_line (indent key : string) (gap : nat) (n : Z) (rest : string) :
  unquoted indent = true -> plain_key key = true ->
  no_digit_first rest = true -> contains (quoted key ++ ":") rest = false ->
  key_matches key (number_line indent key gap n rest) = [decimal n].
Proof.
  intros Hindent Hkey Hrest Habsent. unfold number_line.
  rewrite key_matches_unquoted by assumption.
  set (t := spaces gap ++ decimal n ++ rest).
  assert (Hdigits : take_digits (skip_spaces t) = decimal n).
  { subst t. rewrite skip_spaces_spaces.
    destruct (decimal_head n) as (c & r & Heq & Hc).
    assert (skip_spaces (decimal n ++ rest) = decimal n ++ rest) as ->.
    { rewrite Heq. cbn [String.append skip_spaces].
      destruct c as [[] [] [] [] [] [] [] []]; try discriminate; reflexivity. }
    rewrite decimal_uint, take_digits_uint, take_digits_first by assumption.
    apply append_empty. }
  assert (Htail : key_matches key t = []).
  { subst t. rewrite key_matches_unquoted by apply unquoted_spaces.
    rewrite decimal_uint, key_matches_unquoted by apply unquoted_uint.
    now apply key_matches_absent. }
  replace (quoted key ++ ":" ++ t) with ((quoted key ++ ":") ++ t)
    by (unfold quoted; cbn [String.append]; rewrite !JsonProofs.append_assoc; reflexivity).
  assert (Hstep : forall x, key_matches key ((quoted key ++ ":") ++ x)
            = take_digits (skip_spaces x) :: key_matches key (String ":" x)).
  { intros x.
    assert (Hshape : (quoted key ++ ":") ++ x
                     = String dquote (key ++ String dquote (String ":" x))).
    { rewrite quoted_colon. cbn [String.append]. now rewrite JsonProofs.append_assoc. }
    assert (Hhere : strip_prefix (quoted key ++ ":") ((quoted key ++ ":") ++ x) = Some x)
      by apply strip_prefix_app.
    rewrite Hshape in Hhere |- *. cbn [key_matches]. rewrite Hhere. cbn [app]. f_equal.
    rewrite key_matches_unquoted by now apply plain_key_unquoted.
    cbn [key_matches].
    assert (strip_prefix (quoted key ++ ":") (String dquote (String ":" x)) = None) as ->.
    { rewrite quoted_colon, strip_prefix_cons, Ascii.eqb_refl.
      unfold plain_key in Hkey. destruct key as [|k key'].
      - cbn [String.append]. now rewrite strip_prefix_cons.
      - cbn [list_ascii_of_string forallb] in Hkey.
        apply andb_prop in Hkey as [Hk _]. apply andb_prop in Hk as [_ Hk].
        apply negb_true_iff in Hk. cbn [String.append].
        now rewrite strip_prefix_cons, Hk. }
    reflexivity. }
  rewrite Hstep, Hdigits. rewrite key_matches_skip by reflexivity. now rewrite Htail.
Qed.

Lemma key_matches_without (key : string) (lines : text) :
  without key lines = true -> concat (map (key_matches key) lines) = [].
Proof.
  induction lines as [|l lines IH]; [reflexivity|]. cbn [without forallb map concat].
  intros H. apply andb_prop in H as [Hl Hr]. apply negb_true_iff in Hl.
  now rewrite key_matches_absent, IH.
Qed.

Lemma nonempty_decimal (n : Z) : nonempty (decimal n) = true.
Proof. destruct (decimal_head n) as (c & r & -> & _). reflexivity. Qed.

Lemma number_output_line (key indent rest : string) (gap : nat) (n : Z)
    (before after : text) :
  without key before = true -> without key after = true ->
  unquoted indent = true -> plain_key key = true ->
  no_digit_first rest = true -> contains (quoted key ++ ":") rest = false ->
  number_output key (before ++ number_line indent key gap n rest :: after)%list
  = [decimal n].
Proof.
  intros Hb Ha Hi Hk Hr Hc. unfold number_output.
  rewrite map_app, concat_app. cbn [map concat].
  rewrite (key_matches_without key before Hb), (key_matches_without key after Ha).
  rewrite key_matches_number_line by assumption.
  cbn [app List.filter]. now rewrite nonempty_decimal.
Qed.

Lemma constant_decimal_0 (n : Z) : 0 <= n < 2 ^ 63 -> constant (decimal n) = Some n.
Proof.
  intros H. destruct (Z.eq_dec n 0) as [->|Hn]; [reflexivity|].
  apply constant_decimal. lia.
Qed.



(** ** The SOC status file *)

Import Json ReportFiles.

Lemma escape_printable (c : ascii) (k : string) :
  (let n := nat_of_ascii c in
   (32 <=? n)%nat && (n <=? 126)%nat && negb (n =? 34)%nat && negb (n =? 92)%nat) = true ->
  escape c k = String c k.
Proof.
  destruct c as [[] [] [] [] [] [] [] []]; intros H; try discriminate H; reflexivity.
Qed.

Lemma quote_chars_printable (s k : string) :
  printable s = true -> quote_chars s k = s ++ k.
Proof.
  unfold printable. induction s as [|c s IH]; [reflexivity|].
  cbn [list_ascii_of_string forallb]. intros H. apply andb_prop in H as [Hc Hs].
  cbn [quote_chars String.append]. rewrite IH by assumption.
  now apply escape_printable.
Qed.

(** A value followed by white space is read back. *)
Lemma parse_serialize_newline (gap : nat) (v : json) :
  wf v = true -> parse (serialize gap 0 v (String newline EmptyString)) = Some v.
Proof.
  intros Hwf. unfold parse.
  rewrite (JsonProofs.parse_value_serialize v Hwf gap 0%nat _ (String newline EmptyString)
             eq_refl).
  - reflexivity.
  - pose proof (JsonProofs.length_serialize v gap 0%nat (String newline EmptyString)). lia.
Qed.

Lemma soc_status_cases (a : option text) :
  soc_status_of a = ("operational", "All systems operational")
  \/ soc_status_of a
     = ("critical", "Critical alerts detected - immediate attention required").
Proof.
  unfold soc_status_of. destruct a as [file|]; [|now left].
  destruct (test_gt _ _); [now right | now left].
Qed.

Lemma generate_soc_status_text (a : option text) (date : string) :
  printable date = true ->
  unlines (generate_soc_status a date)
  = serialize 4 0 (soc_status_json a date) (String newline EmptyString).
Proof.
  intros Hd. unfold generate_soc_status, soc_status_json.
  destruct (soc_status_cases a) as [-> | ->]; cbn [fst snd];
    cbn [serialize join_to]; unfold quote at 6;
    rewrite (quote_chars_printable date) by assumption;
    unfold quoted; cbn; rewrite ?JsonProofs.append_assoc; reflexivity.
Qed.

(** X4. Whatever alert_summary.json holds, the text that
    generate_soc_status writes to soc_status.json is JSON that the
    parser of the server reads back as an object with the keys status,
    message and timestamp, and the status is "operational" or
    "critical"; the date is printable text without quote or backslash,
    as date prints it. *)
Theorem soc_status_file_is_json (a : option text) (date : string) :
  printable date = true ->
  parse (unlines (generate_soc_status a date)) = Some (soc_status_json a date)
  /\ (get "status" (soc_status_json a date) = Some (JStr "operational")
      \/ get "status" (soc_status_json a date) = Some (JStr "critical")).
Proof.
  intros Hd. split.
  - rewrite generate_soc_status_text by assumption.
    apply parse_serialize_newline. reflexivity.
  - unfold soc_status_json. destruct (soc_status_cases a) as [-> | ->]; [now left | now right].
Qed.

Lemma soc_status_file_is_json_witness :
  printable ReportExamples.date = true
  /\ parse (unlines (generate_soc_status (Some ReportExamples.alert_lines)
                       ReportExamples.date))
     = Some (soc_status_json (Some ReportExamples.alert_lines) ReportExamples.date)
  /\ (get "status" (soc_status_json (Some ReportExamples.alert_lines) ReportExamples.date)
      = Some (JStr "operational")
      \/ get "status" (soc_status_json (Some ReportExamples.alert_lines)
                         ReportExamples.date)
         = Some (JStr "critical")).
Proof.
  split; [reflexivity|].
  apply (soc_status_file_is_json (Some ReportExamples.alert_lines) ReportExamples.date).
  reflexivity.
Defined.




(** ** The alert summary *)

Lemma add_var_no_match (a : Z) (needle : string) (file : text) :
  grep_c needle file = 0 -> add_var a (grep_c_output needle file) = None.
Proof. intros H. unfold add_var, grep_c_output. now rewrite H. Qed.

Lemma test_gt_no_match (needle : string) (file : text) (k : Z) :
  grep_c needle file = 0 -> test_gt (grep_c_output needle file) k = false.
Proof. intros H. unfold test_gt, grep_c_output. now rewrite H. Qed.

(** X6. When suspicious_processes.json is there and no line of it holds
    "process_name", or portscans.json is there and no line of it holds
    "source_ip", generate_alert_summary is given up before its
    here-document: the count that grep -c || echo "0" leaves is two
    lines, which the arithmetic expansion cannot add, and
    alert_summary.json is not written. *)
Theorem alert_summary_given_up (sp ps ls : option text) (date : string) :
  mentions_none (quoted "process_name") sp || mentions_none (quoted "source_ip") ps = true ->
  generate_alert_summary sp ps ls date = None.
Proof.
  intros H. unfold generate_alert_summary.
  assert (count_alerts sp ps ls = None) as ->; [|reflexivity].
  unfold count_alerts. apply orb_prop in H as [H | H].
  - destruct sp as [file|]; [|discriminate]. cbn [mentions_none] in H.
    apply Z.eqb_eq in H. now rewrite add_var_no_match.
  - destruct ps as [file|]; [|discriminate]. cbn [mentions_none] in H.
    apply Z.eqb_eq in H.
    destruct (match sp with Some _ => _ | None => _ end) as [h|]; [|reflexivity].
    cbn [mbind option_bind].
    now rewrite test_gt_no_match, add_var_no_match by assumption.
Qed.

Lemma alert_summary_given_up_witness :
  mentions_none (quoted "process_name") (Some ReportExamples.no_process)
  || mentions_none (quoted "source_ip") None = true
  /\ generate_alert_summary (Some ReportExamples.no_process) None None ReportExamples.date
     = None.
Proof.
  split; [reflexivity|].
  apply (alert_summary_given_up (Some ReportExamples.no_process) None None
           ReportExamples.date).
  reflexivity.
Defined.

Lemma shell_number_print (z : Z) : shell_number z = print_Z z.
Proof. destruct z; reflexivity. Qed.

Lemma generate_alert_summary_text (a : alerts) (date : string) :
  printable date = true ->
  unlines (alert_summary_lines a date)
  = serialize 4 0 (alert_summary_json a date) (String newline EmptyString).
Proof.
  intros Hd. unfold alert_summary_json, alert_summary_lines, JInt.
  cbn [serialize join_to]. unfold quote at 7.
  rewrite (quote_chars_printable date) by assumption.
  rewrite !shell_number_print. unfold print_num. cbn [mant expo Z.eqb].
  unfold quoted. cbn [unlines]. cbn [String.append].
  rewrite ?JsonProofs.append_assoc. cbn [String.append].
  rewrite ?JsonProofs.append_assoc. reflexivity.
Qed.

(** X7. When generate_alert_summary writes alert_summary.json, the text
    is JSON that the parser of the server reads back as the object of
    the four counters, their total and the timestamp; the total is the
    64-bit sum of the four counters. *)
Theorem alert_summary_file_is_json (sp ps ls : option text) (date : string) (lines : text) :
  printable date = true ->
  generate_alert_summary sp ps ls date = Some lines ->
  exists a : alerts,
    count_alerts sp ps ls = Some a
    /\ parse (unlines lines) = Some (alert_summary_json a date)
    /\ get "total_alerts" (alert_summary_json a date)
       = Some (JInt (wrap64 (critical_alerts a + high_alerts a + medium_alerts a
                             + low_alerts a))).
Proof.
  intros Hd H. unfold generate_alert_summary in H.
  destruct (count_alerts sp ps ls) as [a|]; [|discriminate].
  cbn [mbind option_bind] in H. injection H as <-.
  exists a. split; [reflexivity | split; [|reflexivity]].
  rewrite generate_alert_summary_text by assumption.
  apply parse_serialize_newline. reflexivity.
Qed.

Lemma alert_summary_file_is_json_witness :
  printable ReportExamples.date = true
  /\ generate_alert_summary (Some ReportExamples.process_lines) None
       (Some ReportExamples.login_lines) ReportExamples.date
     = Some ReportExamples.summary_lines
  /\ exists a : alerts,
       count_alerts (Some ReportExamples.process_lines) None
         (Some ReportExamples.login_lines) = Some a
       /\ parse (unlines ReportExamples.summary_lines)
          = Some (alert_summary_json a ReportExamples.date)
       /\ get "total_alerts" (alert_summary_json a ReportExamples.date)
          = Some (JInt (wrap64 (critical_alerts a + high_alerts a + medium_alerts a
                                + low_alerts a))).
Proof.
  split; [reflexivity | split; [vm_compute; reflexivity|]].
  apply (alert_summary_file_is_json (Some ReportExamples.process_lines) None
           (Some ReportExamples.login_lines) ReportExamples.date
           ReportExamples.summary_lines);
    [reflexivity | vm_compute; reflexivity].
Defined.

Lemma contains_skip (p : string) (c : ascii) (s : string) :
  Ascii.eqb c dquote = false ->
  contains (String dquote p) (String c s) = contains (String dquote p) s.
Proof.
  intros Hc. cbn [contains String.prefix].
  destruct (ascii_dec dquote c) as [<-|_]; [discriminate | reflexivity].
Qed.

Lemma contains_unquoted (p s t : string) :
  unquoted s = true -> contains (String dquote p) (s ++ t) = contains (String dquote p) t.
Proof.
  induction s as [|c s IH]; [reflexivity|]. unfold unquoted.
  cbn [list_ascii_of_string forallb]. intros H. apply andb_prop in H as [Hc Hs].
  apply negb_true_iff in Hc. cbn [String.append].
  rewrite contains_skip by assumption. now apply IH.
Qed.

Lemma unquoted_decimal (n : Z) : unquoted (decimal n) = true.
Proof. rewrite decimal_uint. apply unquoted_uint. Qed.

Lemma unquoted_shell_number (z : Z) : unquoted (shell_number z) = true.
Proof.
  unfold shell_number. destruct (z <? 0); [|apply unquoted_decimal].
  exact (unquoted_decimal (- z)).
Qed.

Lemma printable_unquoted (s : string) : printable s = true -> unquoted s = true.
Proof.
  unfold printable, unquoted. induction (list_ascii_of_string s) as [|c l IH];
    [reflexivity|]. cbn [forallb]. intros H. apply andb_prop in H as [Hc Hl].
  rewrite IH by assumption. rewrite andb_true_r.
  destruct c as [[] [] [] [] [] [] [] []]; try discriminate Hc; reflexivity.
Qed.


(** ** From the alert summary to the SOC status *)

Lemma prefix_closing (k date : string) :
  unquoted k = true -> unquoted date = true ->
  String.prefix (k ++ String dquote ":") (date ++ String dquote "") = false.
Proof.
  unfold unquoted. revert date. induction k as [|a k IH]; intros [|c date];
    cbn [list_ascii_of_string forallb String.append String.prefix]; intros Hk Hd.
  - destruct (ascii_dec dquote dquote); reflexivity.
  - apply andb_prop in Hd as [Hc _]. apply negb_true_iff in Hc.
    destruct (ascii_dec dquote c) as [<-|_]; [discriminate | reflexivity].
  - apply andb_prop in Hk as [Ha _]. apply negb_true_iff in Ha.
    destruct (ascii_dec a dquote) as [->|_]; [discriminate | reflexivity].
  - apply andb_prop in Hk as [_ Hk]. apply andb_prop in Hd as [_ Hd].
    destruct (ascii_dec a c); [now apply IH | reflexivity].
Qed.

Lemma contains_value (key date : string) :
  plain_key key = true -> unquoted date = true ->
  contains (quoted key ++ ":") (quoted date) = false.
Proof.
  intros Hk Hd. rewrite quoted_colon. unfold quoted. cbn [contains String.prefix].
  destruct (ascii_dec dquote dquote) as [_|]; [|congruence].
  rewrite prefix_closing
    by first [assumption | apply plain_key_unquoted; assumption].
  rewrite contains_unquoted by assumption. cbn [contains String.prefix orb].
  destruct (ascii_dec _ _); destruct key; reflexivity.
Qed.

Lemma alert_summary_lines_critical (a : alerts) (date : string) :
  printable date = true -> 0 <= critical_alerts a ->
  number_output "critical_alerts" (alert_summary_lines a date)
  = [decimal (critical_alerts a)].
Proof.
  intros Hd Hc.
  assert (Hq : unquoted date = true) by now apply printable_unquoted.
  assert (Hshape :
    alert_summary_lines a date
    = List.app
        ["{";
         "    " ++ quoted "total_alerts" ++ ": " ++ shell_number (total_alerts a) ++ ","]
        (number_line "    " "critical_alerts" 1 (critical_alerts a) ","
         :: ["    " ++ quoted "high_alerts" ++ ": " ++ shell_number (high_alerts a) ++ ",";
             "    " ++ quoted "medium_alerts" ++ ": " ++ shell_number (medium_alerts a) ++ ",";
             "    " ++ quoted "low_alerts" ++ ": " ++ shell_number (low_alerts a) ++ ",";
             "    " ++ quoted "timestamp" ++ ": " ++ quoted date;
             "}"])).
  { unfold alert_summary_lines, number_line, shell_number at 2.
    destruct (Z.ltb_spec (critical_alerts a) 0); [lia | reflexivity]. }
  rewrite Hshape. apply number_output_line; try reflexivity.
  - unfold without. cbn [forallb]. unfold quoted. cbn.
    rewrite contains_unquoted by apply unquoted_shell_number. reflexivity.
  - unfold without. cbn [forallb].
    pose proof (contains_value "critical_alerts" date eq_refl Hq) as Hv.
    unfold quoted in *. cbn in Hv |- *.
    rewrite !contains_unquoted by apply unquoted_shell_number.
    cbn. rewrite Hv. reflexivity.
Qed.

Lemma count_alerts_critical (d : output_dir) (a : alerts) :
  count_alerts (suspicious_processes_json d) (portscans_json d) (login_summary_json d)
  = Some a ->
  critical_alerts a
  = (if 5 <? port_scan_count d then 1 else 0)
    + (if 50 <? failed_login_volume d then 1 else 0).
Proof.
  unfold count_alerts, port_scan_count, failed_login_volume.
  destruct (match suspicious_processes_json d with Some _ => _ | None => _ end) as [h|];
    [|discriminate].
  cbn [mbind option_bind].
  destruct (portscans_json d) as [ps|]; destruct (login_summary_json d) as [ls|];
    cbn [fmap option_fmap option_map];
    rewrite ?ReportProofs.test_gt_volume by lia;
    change (volume None) with 0; cbn [Z.ltb Z.compare];
    repeat match goal with
           | |- context [?x <? volume ?o] => destruct (x <? volume o)
           | |- context [add_var ?x ?o] => destruct (add_var x o)
           end;
    cbn [mbind option_bind fmap option_fmap option_map];
    intros H; try discriminate H; injection H as <-; reflexivity.
Qed.

(** X8. When generate_alert_summary has written alert_summary.json from
    the files of the output directory, generate_soc_status, which runs
    next and reads that file, reports "critical" exactly when there are
    more than 5 port scans or more than 50 failed logins. *)
Theorem soc_status_after_alert_summary (d : output_dir) (date : string) (lines : text) :
  printable date = true ->
  generate_alert_summary (suspicious_processes_json d) (portscans_json d)
    (login_summary_json d) date = Some lines ->
  fst (soc_status_of (Some lines))
  = if (5 <? port_scan_count d) || (50 <? failed_login_volume d)
    then "critical" else "operational".
Proof.
  intros Hd H. unfold generate_alert_summary in H.
  destruct (count_alerts _ _ _) as [a|] eqn:Ha; [|discriminate].
  cbn [mbind option_bind] in H. injection H as <-.
  pose proof (count_alerts_critical d a Ha) as Hc.
  unfold soc_status_of.
  rewrite alert_summary_lines_critical
    by (try assumption; rewrite Hc; repeat destruct (_ <? _); lia).
  unfold test_gt. cbn [arith].
  rewrite constant_decimal_0
    by (rewrite Hc; repeat destruct (_ <? _); lia).
  rewrite Hc. destruct (5 <? port_scan_count d), (50 <? failed_login_volume d); reflexivity.
Qed.

Lemma soc_status_after_alert_summary_witness :
  printable ReportExamples.date = true
  /\ generate_alert_summary (suspicious_processes_json ReportExamples.report_dir)
       (portscans_json ReportExamples.report_dir)
       (login_summary_json ReportExamples.report_dir) ReportExamples.date
     = Some ReportExamples.summary_lines
  /\ fst (soc_status_of (Some ReportExamples.summary_lines))
     = if (5 <? port_scan_count ReportExamples.report_dir)
          || (50 <? failed_login_volume ReportExamples.report_dir)
       then "critical" else "operational".
Proof.
  split; [reflexivity | split; [vm_compute; reflexivity|]].
  apply (soc_status_after_alert_summary ReportExamples.report_dir ReportExamples.date
           ReportExamples.summary_lines);
    [reflexivity | vm_compute; reflexivity].
Defined.

(** ** The executive summary *)

Lemma score_range (d : output_dir) : 0 <= fst (calculate_threat_level d) <= 115.
Proof.
  rewrite ReportProofs.calculate_threat_level_score. unfold weighted_sum.
  apply weights_range.
Qed.

Lemma threat_info_values (d : output_dir) :
  let threat_info := strip_trailing_empty (calculate_threat_level_output d) in
  captured (concat (map (key_matches "threat_score") threat_info))
  = decimal (fst (calculate_threat_level d))
  /\ captured (concat (map (level_scan 0) threat_info))
     = level_name (snd (calculate_threat_level d)).
Proof.
  pose proof (ReportProofs.calculate_threat_level_score d) as Hs.
  assert (Hl : snd (calculate_threat_level d)
               = level_of_score (fst (calculate_threat_level d))) by reflexivity.
  destruct (weights_range (failed_login_volume d) (suspicious_process_count d)
              (port_scan_count d) (recent_change_volume d)) as [Hr Hm].
  fold (weighted_sum d) in Hr, Hm. rewrite <- Hs in Hr, Hm.
  unfold calculate_threat_level_output.
  destruct (calculate_threat_level d) as [s l]. cbn [fst snd] in *. subst l.
  pose proof (Z.div_mod s 5 ltac:(lia)) as Hd. rewrite Hm in Hd.
  assert (Hk : 0 <= s / 5 <= 23) by lia.
  set (k := s / 5) in *. clearbody k. assert (s = 5 * k) as -> by lia. clear Hd Hm Hr Hs.
  assert (k = 0 \/ k = 1 \/ k = 2 \/ k = 3 \/ k = 4 \/ k = 5 \/ k = 6 \/ k = 7 \/ k = 8
          \/ k = 9 \/ k = 10 \/ k = 11 \/ k = 12 \/ k = 13 \/ k = 14 \/ k = 15 \/ k = 16
          \/ k = 17 \/ k = 18 \/ k = 19 \/ k = 20 \/ k = 21 \/ k = 22 \/ k = 23) as Hcases
    by lia.
  repeat (destruct Hcases as [-> | Hcases]; [vm_compute; split; reflexivity|]).
  subst k. vm_compute. split; reflexivity.
Qed.

Lemma wrap64_range (z : Z) : - 2 ^ 63 <= wrap64 z < 2 ^ 63.
Proof.
  unfold wrap64. pose proof (Z.mod_pos_bound (z + 2 ^ 63) (2 ^ 64) ltac:(lia)). lia.
Qed.

Lemma wrap64_add_l (a b : Z) : wrap64 (wrap64 a + b) = wrap64 (a + b).
Proof.
  unfold wrap64.
  replace ((a + 2 ^ 63) mod 2 ^ 64 - 2 ^ 63 + b + 2 ^ 63)
    with ((a + 2 ^ 63) mod 2 ^ 64 + b) by lia.
  rewrite Zplus_mod_idemp_l. do 2 f_equal. lia.
Qed.

Lemma constant_range (w : string) (v : Z) :
  constant w = Some v -> - 2 ^ 63 <= v < 2 ^ 63.
Proof.
  unfold constant. intros H.
  assert (Hw : forall o : option Z, wrap64 <$> o = Some v -> - 2 ^ 63 <= v < 2 ^ 63).
  { intros [x|] Hx; [|discriminate]. injection Hx as <-. apply wrap64_range. }
  destruct w as [|c w]; [now apply Hw in H|].
  destruct (Ascii.eqb_spec c "0") as [->|Hc].
  - destruct w as [|c' w']; [injection H as <-; lia | now apply Hw in H].
  - destruct c as [[] [] [] [] [] [] [] []]; try (now apply Hw in H).
    now contradiction Hc.
Qed.

Lemma arith_range (out : words) (v : Z) :
  arith out = Some v -> - 2 ^ 63 <= v < 2 ^ 63.
Proof.
  destruct out as [|w [|w' out]]; cbn [arith]; intros H.
  - injection H as <-. lia.
  - now apply constant_range in H.
  - discriminate.
Qed.

(** What an addition of a captured count gives. *)
Lemma add_var_volume (a : Z) (var : words) (x : Z) :
  add_var a var = Some x ->
  x = wrap64 (a + volume (Some var)) /\ - 2 ^ 63 <= volume (Some var) < 2 ^ 63.
Proof.
  unfold add_var, volume. destruct (arith var) as [v|] eqn:Hv; [|discriminate].
  cbn. intros H. injection H as <-. split; [reflexivity | now apply arith_range in Hv].
Qed.

Lemma count_incidents_values (d : output_dir) (threat_level : string) (i : incidents) :
  count_incidents d threat_level = Some i ->
  total_incidents i
  = wrap64 (failed_login_volume d + port_scan_count d + suspicious_process_count d)
  /\ critical_incidents i = (if String.eqb threat_level "CRITICAL" then 1 else 0)
  /\ high_priority_incidents i = suspicious_process_count d.
Proof.
  unfold count_incidents, failed_login_volume, port_scan_count, suspicious_process_count.
  intros H.
  assert (Hl : exists t1,
    - 2 ^ 63 <= t1 < 2 ^ 63
    /\ t1 = volume (failed_logins_output <$> login_summary_json d)
    /\ match login_summary_json d with
       | Some file => add_var 0 (failed_logins_output file)
       | None => Some 0
       end = Some t1).
  { destruct (login_summary_json d) as [file|]; cbn [fmap option_fmap option_map].
    - destruct (add_var 0 (failed_logins_output file)) as [t1|] eqn:Ht; [|discriminate H].
      apply add_var_volume in Ht as [-> Hr]. exists (volume (Some (failed_logins_output file))).
      rewrite Z.add_0_l, wrap64_small by exact Hr. auto.
    - exists 0. cbn. split; [lia | auto]. }
  destruct Hl as (t1 & Hr1 & Ht1 & Heq1). rewrite Heq1 in H. cbn [mbind option_bind] in H.
  rewrite <- Ht1. clear Heq1 Ht1.
  assert (Hp : exists t2,
    t2 = wrap64 (t1 + volume (grep_c_output (quoted "source_ip") <$> portscans_json d))
    /\ match portscans_json d with
       | Some file => add_var t1 (grep_c_output (quoted "source_ip") file)
       | None => Some t1
       end = Some t2).
  { destruct (portscans_json d) as [file|]; cbn [fmap option_fmap option_map].
    - destruct (add_var t1 (grep_c_output (quoted "source_ip") file)) as [t2|] eqn:Ht;
        [|discriminate H].
      apply add_var_volume in Ht as [-> _]. eauto.
    - exists t1. cbn. rewrite Z.add_0_r, wrap64_small by exact Hr1. auto. }
  destruct Hp as (t2 & Ht2 & Heq2). rewrite Heq2 in H. cbn [mbind option_bind] in H.
  clear Heq2.
  destruct (suspicious_processes_json d) as [file|]; cbn [fmap option_fmap option_map].
  - destruct (add_var t2 (grep_c_output (quoted "process_name") file)) as [t3|] eqn:Ht3;
      [|discriminate H].
    cbn [mbind option_bind] in H.
    destruct (add_var 0 (grep_c_output (quoted "process_name") file)) as [h|] eqn:Hh;
      [|discriminate H].
    cbn [mbind option_bind] in H. injection H as <-. cbn [total_incidents critical_incidents
      high_priority_incidents].
    apply add_var_volume in Ht3 as [-> _]. apply add_var_volume in Hh as [-> Hr].
    rewrite Ht2, wrap64_add_l.
    split; [reflexivity | split].
    + destruct (String.eqb threat_level "CRITICAL"); reflexivity.
    + now rewrite Z.add_0_l, wrap64_small.
  - cbn [mbind option_bind] in H. injection H as <-. cbn [total_incidents critical_incidents
      high_priority_incidents].
    change (volume None) with 0. rewrite Ht2, Z.add_0_r.
    split; [reflexivity | split; [|reflexivity]].
    destruct (String.eqb threat_level "CRITICAL"); reflexivity.
Qed.

Lemma level_name_critical (l : threat_level) :
  (if String.eqb (level_name l) "CRITICAL" then 1 else 0)
  = match l with CRITICAL => 1 | _ => 0 end.
Proof. destruct l; reflexivity. Qed.

Lemma shell_number_decimal (z : Z) : 0 <= z -> decimal z = shell_number z.
Proof. intros H. unfold shell_number. now destruct (Z.ltb_spec z 0); [lia|]. Qed.

Lemma executive_summary_text (l : threat_level) (s : Z) (i : incidents) (date : string) :
  printable date = true ->
  unlines (executive_summary_lines (level_name l) (shell_number s) i date)
  = serialize 4 0
      (JObj [("overall_threat_level", JStr (level_name l));
             ("threat_score", JInt s);
             ("total_incidents", JInt (total_incidents i));
             ("critical_incidents", JInt (critical_incidents i));
             ("high_priority_incidents", JInt (high_priority_incidents i));
             ("last_updated", JStr date);
             ("recommendations",
                JArr [JStr "Monitor failed login attempts";
                      JStr "Review suspicious processes";
                      JStr "Check open ports";
                      JStr "Update security policies"])])
      (String newline EmptyString).
Proof.
  intros Hd. unfold executive_summary_lines, JInt.
  cbn [serialize join_to]. unfold quote at 8.
  rewrite (quote_chars_printable date) by assumption.
  rewrite !shell_number_print. unfold print_num. cbn [mant expo Z.eqb].
  destruct l; unfold quoted; cbn [unlines level_name]; cbn [String.append];
    rewrite ?JsonProofs.append_assoc; cbn [String.append];
    rewrite ?JsonProofs.append_assoc; reflexivity.
Qed.

(** X9. When portscans.json is there and no line of it holds
    "source_ip", or suspicious_processes.json is there and no line of it
    holds "process_name", generate_executive_summary is given up before
    its here-document, and executive_summary.json is not written: the
    count that grep -c || echo "0" leaves is two lines, which the
    arithmetic expansion cannot add to the incidents. *)
Theorem executive_summary_given_up (d : output_dir) (date : string) :
  mentions_none (quoted "source_ip") (portscans_json d)
  || mentions_none (quoted "process_name") (suspicious_processes_json d) = true ->
  generate_executive_summary d date = None.
Proof.
  intros H. unfold generate_executive_summary. cbv zeta.
  match goal with
  | |- (count_incidents d ?l ≫= _) = None => generalize l
  end.
  intros level. assert (count_incidents d level = None) as ->; [|reflexivity].
  unfold count_incidents.
  destruct (match login_summary_json d with Some _ => _ | None => _ end) as [t1|];
    [|reflexivity].
  cbn [mbind option_bind]. apply orb_prop in H as [H | H].
  - destruct (portscans_json d) as [file|]; [|discriminate]. cbn [mentions_none] in H.
    apply Z.eqb_eq in H. cbv beta iota. rewrite add_var_no_match by assumption. reflexivity.
  - destruct (suspicious_processes_json d) as [file|]; [|discriminate].
    cbn [mentions_none] in H. apply Z.eqb_eq in H.
    destruct (match portscans_json d with Some _ => _ | None => _ end) as [t2|];
      [|reflexivity].
    cbn [mbind option_bind]. cbv beta iota.
    rewrite (add_var_no_match t2) by assumption. reflexivity.
Qed.

Lemma executive_summary_given_up_witness :
  mentions_none (quoted "source_ip") (portscans_json ReportExamples.quiet_dir)
  || mentions_none (quoted "process_name")
       (suspicious_processes_json ReportExamples.quiet_dir) = true
  /\ generate_executive_summary ReportExamples.quiet_dir ReportExamples.date = None.
Proof.
  split; [reflexivity|].
  apply (executive_summary_given_up ReportExamples.quiet_dir ReportExamples.date).
  reflexivity.
Defined.

(** X10. When generate_executive_summary writes executive_summary.json,
    the text is JSON that the parser of the server reads back as an
    object that carries the level and the score of
    calculate_threat_level, read back from the line it prints; the
    64-bit sum of the failed logins, the port scans and the suspicious
    processes as the total of incidents; one critical incident exactly
    when the level is CRITICAL; the suspicious processes as the
    incidents of high priority; and the four recommendations. *)
Theorem executive_summary_file_is_json (d : output_dir) (date text : string) :
  printable date = true ->
  generate_executive_summary d date = Some text ->
  parse text = Some (executive_summary_json d date).
Proof.
  intros Hd H. unfold generate_executive_summary in H. cbv zeta in H.
  destruct (threat_info_values d) as [Hscore Hlevel]. cbv zeta in Hscore, Hlevel.
  rewrite Hscore, Hlevel in H.
  destruct (count_incidents d _) as [i|] eqn:Hi; [|discriminate].
  cbn [mbind option_bind] in H. apply (inj Some) in H. subst text.
  apply count_incidents_values in Hi as (Ht & Hc & Hh).
  rewrite level_name_critical in Hc.
  rewrite shell_number_decimal by apply score_range.
  rewrite executive_summary_text by exact Hd.
  rewrite Ht, Hc, Hh. apply parse_serialize_newline. reflexivity.
Qed.

Lemma executive_summary_file_is_json_witness :
  printable ReportExamples.date = true
  /\ generate_executive_summary ReportExamples.report_dir ReportExamples.date
     = Some ReportExamples.summary_text
  /\ parse ReportExamples.summary_text
     = Some (executive_summary_json ReportExamples.report_dir ReportExamples.date).
Proof.
  split; [reflexivity | split; [vm_compute; reflexivity|]].
  apply (executive_summary_file_is_json ReportExamples.report_dir ReportExamples.date
           ReportExamples.summary_text);
    [reflexivity | vm_compute; reflexivity].
Defined.

(** ** The report after a live scan *)







Lemma print_Z_decimal (z : Z) : 0 <= z -> print_Z z = decimal z.
Proof. intros H. destruct z; [reflexivity | reflexivity | lia]. Qed.






End ReportFileProofs.

(* ===================================================================== *)
(** * Properties of the endpoints, the start-up files and the live scan *)
(* ===================================================================== *)

Module EndpointProofs.
Import Json Server ServerProofs.

#[local] Arguments String.append !s1 s2 : simpl nomatch.

Lemma round53_nonneg (x : Z) : 0 <= x -> 0 <= round53 x.
Proof.
  intros Hx. unfold round53. cbv zeta.
  destruct (Z.leb_spec (Z.log2 x - 52) 0) as [He|He]; [exact Hx|].
  assert (Hp : 0 < 2 ^ (Z.log2 x - 52)) by (apply Z.pow_pos_nonneg; lia).
  assert (Hq : 0 <= x / 2 ^ (Z.log2 x - 52)) by (apply Z.div_pos; lia).
  repeat match goal with |- context [if ?b then _ else _] => destruct b end; nia.
Qed.

(** Rounding moves a number by half a unit of its last place at most. *)
Lemma round53_near (x : Z) :
  0 < Z.log2 x - 52 -> round53 x <= x + 2 ^ (Z.log2 x - 53).
Proof.
  intros He. unfold round53. cbv zeta.
  destruct (Z.leb_spec (Z.log2 x - 52) 0) as [He'|_]; [lia|].
  set (e := Z.log2 x - 52) in *.
  replace (Z.log2 x - 53) with (e - 1) by lia.
  assert (Hp : 2 ^ e = 2 * 2 ^ (e - 1)).
  { replace e with (Z.succ (e - 1)) at 1 by lia. apply Z.pow_succ_r. lia. }
  assert (Hh : 0 < 2 ^ (e - 1)) by (apply Z.pow_pos_nonneg; lia).
  pose proof (Z.div_mod x (2 ^ e) ltac:(lia)) as Hdm.
  pose proof (Z.mod_pos_bound x (2 ^ e) ltac:(lia)) as Hm.
  destruct (Z.ltb_spec (x mod 2 ^ e) (2 ^ (e - 1))) as [H1|H1]; [nia|].
  destruct (Z.ltb_spec (2 ^ (e - 1)) (x mod 2 ^ e)) as [H2|H2]; [nia|].
  destruct (Z.even (x / 2 ^ e)); nia.
Qed.

(** The product of a draw by [n] stays below [n], rounded as it is:
    the draw is at most 1 - 2^-53, and half a unit of the last place of
    the product is less than [n] * 2^-53. *)
Lemma round53_below (x n : Z) :
  0 < n -> 0 <= x <= n * 2 ^ 53 - n -> round53 x < n * 2 ^ 53.
Proof.
  intros Hn Hx.
  destruct (Z.leb_spec (Z.log2 x - 52) 0) as [He|He].
  - unfold round53. cbv zeta. apply Z.leb_le in He. rewrite He. lia.
  - pose proof (round53_near x He) as Hr.
    assert (H0 : 0 < x).
    { destruct (Z.eq_dec x 0) as [->|]; [simpl in He; lia | lia]. }
    pose proof (Z.log2_spec x H0) as [Hl _].
    assert (Hs : 2 ^ Z.log2 x = 2 ^ (Z.log2 x - 53) * 2 ^ 53).
    { rewrite <- Z.pow_add_r by lia. f_equal. lia. }
    assert (2 ^ (Z.log2 x - 53) < n) by nia.
    lia.
Qed.

Lemma scaled_of_scaled (x : Z) : scaled (of_scaled x) = x.
Proof.
  unfold scaled, of_scaled, floor, num_mul, num_of_Z. cbv [mant expo].
  change (0 <=? -53 + 0) with false. cbv iota. change (- (-53 + 0)) with 53.
  assert (H10 : (5 : Z) ^ 53 * 2 ^ 53 = 10 ^ 53) by (vm_compute; reflexivity).
  rewrite <- Z.mul_assoc, H10. apply Z.div_mul. intros E. discriminate E.
Qed.

Lemma floor_of_scaled (x : Z) : floor (of_scaled x) = x / 2 ^ 53.
Proof.
  unfold of_scaled, floor. cbv [mant expo].
  change (0 <=? -53) with false. cbv iota. change (- -53) with 53.
  assert (H10 : (10 : Z) ^ 53 = 2 ^ 53 * 5 ^ 53) by (vm_compute; reflexivity).
  rewrite H10. apply Z.div_mul_cancel_r; intros E; discriminate E.
Qed.

Lemma floor_draw (bits : N) (n : Z) :
  (bits < 2 ^ 53)%N -> 0 < n ->
  0 <= floor (double_mul (of_scaled (Z.of_N bits)) n) < n.
Proof.
  intros Hb Hn. unfold double_mul. rewrite scaled_of_scaled, floor_of_scaled.
  assert (Hbits : 0 <= Z.of_N bits <= 2 ^ 53 - 1).
  { split; [lia|]. change (2 ^ 53 - 1) with (Z.of_N (2 ^ 53 - 1)). lia. }
  assert (Hx : 0 <= Z.of_N bits * n <= n * 2 ^ 53 - n) by nia.
  pose proof (round53_nonneg _ (proj1 Hx)) as H0.
  pose proof (round53_below _ n Hn Hx) as H1.
  split.
  - apply Z.div_pos; [exact H0 | reflexivity].
  - apply Z.div_lt_upper_bound; [reflexivity | lia].
Qed.

(** The product is rounded before Math.floor is taken: the exact
    product of this draw by 50 is below 6, and the double is 6. *)
Lemma double_mul_rounds :
  floor (double_mul (of_scaled 1080863910568919) 50) = 6
  /\ floor (num_mul (of_scaled 1080863910568919) (num_of_Z 50)) = 5.
Proof. split; vm_compute; reflexivity. Qed.

Lemma random_int_bounds (n k : Z) :
  0 < n -> returns (random_int n k) (fun z => k <= z < k + n).
Proof.
  intros Hn w. unfold random_int.
  change (fst ((Math_random ≫= (fun r => ret (floor (double_mul r n) + k))) w))
    with (Normal (A := Z)
            (floor (double_mul
                      (of_scaled (Z.of_N (random_bits (env w) (randoms_drawn w) mod 2 ^ 53)))
                      n) + k)).
  pose proof (floor_draw (random_bits (env w) (randoms_drawn w) mod 2 ^ 53)%N n) as H.
  assert (Hm : (random_bits (env w) (randoms_drawn w) mod 2 ^ 53 < 2 ^ 53)%N).
  { apply N.mod_lt. intros E. discriminate E. }
  specialize (H Hm Hn). cbv beta iota. lia.
Qed.

Lemma pick_in (l : list string) (i : Z) :
  0 <= i < Z.of_nat (length l) -> In (pick l i) l.
Proof.
  intros Hi. unfold pick. apply nth_In. lia.
Qed.

(** An index drawn for an array is never out of its bounds. *)
Lemma pick_field_member (l : list string) :
  l <> [] -> returns (pick_field l) (fun v => exists s, v = JStr s /\ In s l).
Proof.
  intros Hl. unfold pick_field.
  assert (Hpos : 0 < Z.of_nat (length l)) by (destruct l; [congruence | simpl; lia]).
  eapply returns_bind; [exact (random_int_bounds (Z.of_nat (length l)) 0 Hpos)|].
  intros i Hi. cbv beta in Hi. apply returns_ret. eexists. split; [reflexivity|].
  apply pick_in. lia.
Qed.

Lemma returns_push_times (count : nat) (item : js json) (Q : json -> Prop) :
  returns item Q ->
  returns (push_times count item) (fun vs => length vs = count /\ Forall Q vs).
Proof.
  intros Hitem. induction count as [|n IH]; cbn [push_times].
  - apply returns_ret. split; [reflexivity | constructor].
  - eapply returns_bind; [exact Hitem|]. intros v Hv.
    eapply returns_bind; [exact IH|]. intros vs [Hlen Hvs].
    apply returns_ret. split; [simpl; congruence | now constructor].
Qed.

Lemma array_of_bounds (n k : Z) (item : js json) (Q : json -> Prop) :
  0 < n -> 0 <= k -> returns item Q ->
  returns (array_of n k item)
    (fun v => exists items, v = JArr items
                            /\ k <= Z.of_nat (length items) < k + n
                            /\ Forall Q items).
Proof.
  intros Hn Hk Hitem. unfold array_of.
  eapply returns_bind; [apply (random_int_bounds n k Hn)|]. intros count Hc.
  cbv beta in Hc.
  eapply returns_bind; [apply (returns_push_times _ _ Q Hitem)|]. intros vs [Hlen Hvs].
  apply returns_ret. exists vs. split; [reflexivity | split; [lia | exact Hvs]].
Qed.

(** ** The data cache *)

(** X11. The data cache: a value that is set is what the next get of its
    key returns if the clock has advanced by less than the time to live
    between the two, and null otherwise; setting a key leaves the other
    keys and the disk as they are; after clear, every get returns
    null. *)
Theorem cache_set_then_get (key other : string) (data : json) (w : world) :
  other <> key ->
  let w1 := snd (DataCache_set key data w) in
  let stored := millis (clock (env w) (clock_reads w)) in
  let asked := millis (clock (env w) (S (clock_reads w))) in
  fst (DataCache_get key w1) = Normal (if asked - stored <? ttl w then data else JNull)
  /\ cache w1 !! other = cache w !! other
  /\ files w1 = files w
  /\ (forall k, fst (DataCache_get k (snd (DataCache_clear w1))) = Normal JNull).
Proof.
  intros Hne w1 stored asked. split; [|split; [|split]].
  - unfold w1, DataCache_get, DataCache_set, Date_now, read_clock, modify, gets,
      mret, js_ret, ret, mbind, js_bind, bind. cbn.
    rewrite lookup_insert_eq. cbn. fold stored asked.
    destruct (asked - stored <? ttl w); reflexivity.
  - unfold w1, DataCache_set, Date_now, read_clock, modify,
      mret, js_ret, ret, mbind, js_bind, bind. cbn.
    now rewrite lookup_insert_ne by congruence.
  - reflexivity.
  - intros k. unfold DataCache_get, DataCache_clear, modify, gets,
      mret, js_ret, ret, mbind, js_bind, bind. cbn.
    now rewrite lookup_empty.
Qed.

Lemma cache_set_then_get_witness :
  "file_data" <> "login_data"
  /\ let w1 := snd (DataCache_set "login_data" ServerExamples.cached_logins Samples.bare) in
     let stored := millis (clock (env Samples.bare) (clock_reads Samples.bare)) in
     let asked := millis (clock (env Samples.bare) (S (clock_reads Samples.bare))) in
     fst (DataCache_get "login_data" w1)
     = Normal (if asked - stored <? ttl Samples.bare
               then ServerExamples.cached_logins else JNull)
     /\ cache w1 !! "file_data" = cache Samples.bare !! "file_data"
     /\ files w1 = files Samples.bare
     /\ (forall k, fst (DataCache_get k (snd (DataCache_clear w1))) = Normal JNull).
Proof.
  split; [discriminate|].
  apply (cache_set_then_get "login_data" "file_data" ServerExamples.cached_logins
           Samples.bare).
  discriminate.
Defined.

(** ** The routes that answer from the cache *)

Lemma run_DataCache_get (key : string) (w : world) :
  DataCache_get key w
  = (Normal (default JNull (cache_hit key w)),
     if bool_decide (is_Some (cache w !! key)) then tick w else w).
Proof.
  unfold DataCache_get, cache_hit, tick, Date_now, read_clock, gets,
    mret, js_ret, ret, mbind, js_bind, bind.
  cbn. destruct (cache w !! key) as [[d t]|]; cbn; [|reflexivity].
  destruct (_ <? _); reflexivity.
Qed.

Lemma run_DataCache_set (key : string) (data : json) (w : world) :
  DataCache_set key data w
  = (Normal tt,
     with_cache (<[key := (data, millis (clock (env w) (clock_reads w)))]> (cache w))
       (tick w)).
Proof. reflexivity. Qed.

Lemma cache_tick (w : world) : cache (tick w) = cache w.
Proof. reflexivity. Qed.

Lemma route_rebuild (key scriptName : string) (fields : list (string * js json))
    (w : world) :
  Forall (fun f => total (snd f)) fields ->
  exists body t w',
    (runMonitoringScript scriptName;;
     data ← object_literal fields;
     DataCache_set key data;;
     mret (Response 200 data)) w = (Normal (Response 200 body), w')
    /\ cache w' !! key = Some (body, t)
    /\ truthy body = true
    /\ keys body = map fst fields.
Proof.
  intros Hf. rewrite run_bind.
  destruct (runMonitoringScript_result scriptName w) as (m & w1 & -> & _).
  cbv beta iota. rewrite run_bind.
  pose proof (returns_members_literal (fun _ => True) fields Hf w1) as Hm.
  unfold object_literal. rewrite run_bind.
  destruct (members_literal fields w1) as [[ms|e] w2]; cbn [fst] in Hm; [|contradiction].
  destruct Hm as [Hkeys _]. cbv beta iota.
  change ((mret (JObj ms) : js json) w2) with (Normal (JObj ms), w2). cbv beta iota.
  rewrite run_bind, run_DataCache_set. cbv beta iota.
  eexists (JObj ms), _, _. split; [reflexivity|]. cbn [cache with_cache].
  rewrite lookup_insert_eq. auto.
Qed.

Lemma cached_route_answers (key scriptName : string) (fields : list (string * js json))
    (onerror : string -> js response) (w : world) :
  Forall (fun f => total (snd f)) fields ->
  exists body t w',
    cached_route key scriptName fields onerror w = (Normal (Response 200 body), w')
    /\ cache w' !! key = Some (body, t)
    /\ truthy body = true
    /\ match cache_hit key w with
       | Some d => if truthy d then body = d else keys body = map fst fields
       | None => keys body = map fst fields
       end.
Proof.
  intros Hf. unfold cached_route, try_catch. rewrite run_bind, run_DataCache_get.
  cbv beta iota.
  assert (Hmiss : forall w1,
    exists body t w',
      match
        (runMonitoringScript scriptName;;
         data ← object_literal fields;
         DataCache_set key data;;
         mret (Response 200 data)) w1
      with
      | (Normal a, w'0) => (Normal a, w'0)
      | (Thrown e, w'0) => onerror e w'0
      end = (Normal (Response 200 body), w')
      /\ cache w' !! key = Some (body, t)
      /\ truthy body = true
      /\ keys body = map fst fields).
  { intros w1. destruct (route_rebuild key scriptName fields w1 Hf)
      as (body & t & w' & -> & H). now exists body, t, w'. }
  destruct (cache_hit key w) as [d|] eqn:Hhit.
  - change (default JNull (Some d)) with d.
    destruct (truthy d) eqn:Ht.
    + unfold cache_hit in Hhit.
      destruct (cache w !! key) as [[d' t]|] eqn:Hc; [|discriminate].
      destruct (_ <? _); [|discriminate]. injection Hhit as ->.
      exists d, t, (tick w). cbn. rewrite Hc. auto.
    + apply Hmiss.
  - change (default JNull None) with JNull. cbn [truthy]. apply Hmiss.
Qed.

Ltac total_fields :=
  fields;
  first [ apply total_section;
          first [apply total_generateSampleData | apply total_const]
        | eapply total_returns, wf_timestamp_field ].

(** X12. Each of the six data routes (/api/dashboard, /api/logins,
    /api/network, /api/processes, /api/files, /api/threats) answers 200
    in every state of the server, never 500, and leaves its answer in
    the cache under its own key; the answer is the cached one when that
    one is fresh, and otherwise an object built anew, with the keys of
    the route. *)
Theorem route_answers (r : route) (w : world) :
  exists body t w',
    handler r w = (Normal (Response 200 body), w')
    /\ cache w' !! cacheKey r = Some (body, t)
    /\ truthy body = true
    /\ match cache_hit (cacheKey r) w with
       | Some d => if truthy d then body = d else keys body = answer_keys r
       | None => keys body = answer_keys r
       end.
Proof.
  destruct r; cbn [handler cacheKey answer_keys].
  - refine (cached_route_answers "dashboard_data" "generate_report.sh" _ _ w _).
    total_fields.
  - refine (cached_route_answers "login_data" "monitor_logins.sh" _ _ w _). total_fields.
  - refine (cached_route_answers "network_data" "detect_portscans.sh" _ _ w _). total_fields.
  - refine (cached_route_answers "process_data" "check_processes.sh" _ _ w _). total_fields.
  - refine (cached_route_answers "file_data" "monitor_files.sh" _ _ w _). total_fields.
  - refine (cached_route_answers "threat_data" "geolocate_ips.sh" _ _ w _). total_fields.
Qed.

Lemma cached_route_hit (key scriptName : string) (fields : list (string * js json))
    (onerror : string -> js response) (w : world) (body : json) (t : Z) :
  cache w !! key = Some (body, t) -> truthy body = true ->
  millis (clock (env w) (clock_reads w)) - t < ttl w ->
  cached_route key scriptName fields onerror w = (Normal (Response 200 body), tick w).
Proof.
  intros Hc Ht Hfresh. unfold cached_route, try_catch.
  rewrite run_bind, run_DataCache_get. unfold cache_hit. rewrite Hc.
  apply Z.ltb_lt in Hfresh. rewrite Hfresh.
  change (default JNull (Some body)) with body. cbv beta iota. rewrite Ht.
  rewrite bool_decide_eq_true_2 by eauto. reflexivity.
Qed.

Lemma only_clock_tick (w : world) : only_clock w (tick w).
Proof. split; [reflexivity | cbn; lia]. Qed.

(** X13. A data route whose key has a cached answer that is younger
    than the time to live gives that answer again, and leaves the
    server as it was but for readings of the clock: no number is drawn,
    no child process is started, the disk, the timers, the sockets and
    the scanner are what they were, and the cache keeps the answer with
    its old time. *)
Theorem route_cache_hit (r : route) (w : world) (body : json) (t : Z) :
  cache w !! cacheKey r = Some (body, t) ->
  truthy body = true ->
  millis (clock (env w) (clock_reads w)) - t < ttl w ->
  fst (handler r w) = Normal (Response 200 body)
  /\ only_clock w (snd (handler r w))
  /\ cache (snd (handler r w)) !! cacheKey r = Some (body, t).
Proof.
  intros Hc Ht Hf.
  assert (H : handler r w = (Normal (Response 200 body), tick w)).
  { destruct r; cbn [handler cacheKey] in Hc |- *.
    - exact (cached_route_hit "dashboard_data" "generate_report.sh" _ _ w body t Hc Ht Hf).
    - exact (cached_route_hit "login_data" "monitor_logins.sh" _ _ w body t Hc Ht Hf).
    - exact (cached_route_hit "network_data" "detect_portscans.sh" _ _ w body t Hc Ht Hf).
    - exact (cached_route_hit "process_data" "check_processes.sh" _ _ w body t Hc Ht Hf).
    - exact (cached_route_hit "file_data" "monitor_files.sh" _ _ w body t Hc Ht Hf).
    - exact (cached_route_hit "threat_data" "geolocate_ips.sh" _ _ w body t Hc Ht Hf). }
  rewrite H. split; [reflexivity|]. split; [apply only_clock_tick | exact Hc].
Qed.

Lemma route_cache_hit_witness :
  cache ServerExamples.warm !! cacheKey ApiLogins
  = Some (ServerExamples.cached_logins, 1700000000000)
  /\ truthy ServerExamples.cached_logins = true
  /\ millis (clock (env ServerExamples.warm) (clock_reads ServerExamples.warm))
     - 1700000000000 < ttl ServerExamples.warm
  /\ fst (handler ApiLogins ServerExamples.warm)
     = Normal (Response 200 ServerExamples.cached_logins)
  /\ only_clock ServerExamples.warm (snd (handler ApiLogins ServerExamples.warm))
  /\ cache (snd (handler ApiLogins ServerExamples.warm)) !! cacheKey ApiLogins
     = Some (ServerExamples.cached_logins, 1700000000000).
Proof.
  split; [vm_compute; reflexivity | split; [reflexivity | split; [vm_compute; reflexivity|]]].
  apply (route_cache_hit ApiLogins ServerExamples.warm ServerExamples.cached_logins
           1700000000000);
    [vm_compute; reflexivity | reflexivity | vm_compute; reflexivity].
Defined.

(** X14. POST /api/scan/run answers 200 with the message "Manual scan
    completed" in every state of the server, starts at most one child
    process, and leaves the cache empty, so that no data route has a
    cached answer afterwards. *)
Theorem manual_scan_clears_cache (w : world) :
  exists w',
    post_api_scan_run w
    = (Normal (Response 200 (JObj [("status", JStr "success");
                                   ("message", JStr "Manual scan completed")])), w')
    /\ cache w' = ∅
    /\ (forall r : route, cache_hit (cacheKey r) w' = None)
    /\ (children_run w <= children_run w' <= S (children_run w))%nat.
Proof.
  unfold post_api_scan_run, try_catch. rewrite run_bind.
  destruct (runMonitoringScript_result "generate_report.sh" w) as (m & w1 & -> & Hr).
  cbv beta iota. rewrite run_bind. unfold DataCache_clear at 1, modify at 1. cbv beta iota.
  eexists. split; [reflexivity|]. cbn [cache with_cache].
  split; [reflexivity|]. split.
  - intros r. unfold cache_hit. cbn [cache with_cache]. now rewrite lookup_empty.
  - cbn [children_run with_cache]. destruct Hr as [->| ->]; lia.
Qed.

(** ** The files of a live scan *)

Lemma path_join_inj (c : config) (dir a b : string) :
  path_join c dir a = path_join c dir b -> a = b.
Proof.
  unfold path_join. intros H.
  apply (String.app_inj dir) in H. now apply (String.app_inj (sep c)) in H.
Qed.

Lemma path_join_not_dir (c : config) (dir name : string) :
  name <> EmptyString -> path_join c dir name <> dir.
Proof.
  unfold path_join. intros Hn H.
  assert (Hlen : String.length (dir ++ sep c ++ name) = String.length dir) by now rewrite H.
  rewrite !JsonProofs.length_append in Hlen.
  destruct name; [congruence | simpl in Hlen; lia].
Qed.

Lemma run_write_all (liveData : json) (l : list (string * string)) (w : world) :
  read_only w = false ->
  forallb (fun file : string * string =>
             negb (is_dir (files w !! path_join (cfg w) (OUTPUT_DIR (cfg w)) (fst file))))
    l = true ->
  forallb (fun file : string * string => has_key (snd file) liveData) l = true ->
  write_all liveData l w
  = (Normal tt, with_files (saved (cfg w) liveData l (files w)) w).
Proof.
  revert w. induction l as [|[name property] l IH]; intros w Hro Hd Hk.
  - destruct w; reflexivity.
  - cbn [forallb fst snd] in Hd, Hk.
    apply andb_prop in Hd as [Hd1 Hd]. apply andb_prop in Hk as [Hk1 Hk].
    cbn [write_all]. rewrite run_bind. unfold output_path at 1, gets at 1.
    cbv beta iota. rewrite run_bind.
    unfold has_key in Hk1. destruct (get property liveData) as [data|] eqn:Hg;
      [|discriminate].
    unfold writeFileSync at 1. rewrite Hro.
    set (path := path_join (cfg w) (OUTPUT_DIR (cfg w)) name) in *.
    assert (Hw : match files w !! path with
                 | Some Dir =>
                     (Thrown (A := unit) "EISDIR: illegal operation on a directory, open", w)
                 | _ => (Normal tt, with_files (<[path := Text (stringify_pretty data)]> (files w)) w)
                 end
                 = (Normal tt,
                    with_files (<[path := Text (stringify_pretty data)]> (files w)) w)).
    { destruct (files w !! path) as [[]|]; try reflexivity. discriminate. }
    rewrite Hw. cbv beta iota.
    rewrite IH.
    + cbn [saved fold_left fst snd cfg with_files files]. rewrite Hg.
      destruct w; reflexivity.
    + exact Hro.
    + cbn [cfg with_files files].
      rewrite <- Hd. apply forallb_same. intros [n p]. cbn [fst].
      destruct (decide (path_join (cfg w) (OUTPUT_DIR (cfg w)) n = path)) as [->|Hne].
      * rewrite lookup_insert_eq. cbn. unfold is_dir in Hd1.
        destruct (files w !! path) as [[]|]; try reflexivity. discriminate.
      * now rewrite lookup_insert_ne by congruence.
    + exact Hk.
Qed.

Lemma forallb_same_in {A} (f g : A -> bool) (l : list A) :
  (forall x, In x l -> f x = g x) -> forallb f l = forallb g l.
Proof.
  induction l as [|x l IH]; intros H; [reflexivity|]. cbn [forallb].
  rewrite (H x) by now left. rewrite IH; [reflexivity|]. intros y Hy. apply H. now right.
Qed.

Lemma filesToSave_names (file : string * string) :
  In file filesToSave -> fst file <> EmptyString.
Proof.
  unfold filesToSave. cbn [In].
  intros H. repeat (destruct H as [<- | H]; [discriminate|]). contradiction.
Qed.

Lemma run_saveLiveData (liveData : json) (w : world) :
  writable w = true ->
  forallb (fun file : string * string => has_key (snd file) liveData) filesToSave = true ->
  saveLiveData liveData w
  = (Normal tt, with_files (saved (cfg w) liveData filesToSave (with_output_dir w)) w).
Proof.
  unfold writable. intros Hw Hk.
  apply andb_prop in Hw as [Hw Hfiles]. apply andb_prop in Hw as [Hro Hdir].
  apply negb_true_iff in Hro.
  unfold saveLiveData, try_catch. rewrite run_bind. unfold gets at 1. cbv beta iota.
  rewrite run_bind. unfold existsSync at 1, gets at 1. cbv beta iota.
  rewrite run_bind. unfold with_output_dir.
  destruct (files w !! OUTPUT_DIR (cfg w)) as [n|] eqn:Hd.
  - rewrite bool_decide_eq_true_2 by eauto. cbn [negb].
    change ((mret tt : js unit) w) with (Normal tt, w). cbv beta iota.
    now rewrite run_write_all.
  - rewrite bool_decide_eq_false_2 by (intros [x Hx]; discriminate). cbn [negb].
    unfold mkdirSync. rewrite Hro, Hd. cbv beta iota.
    rewrite run_write_all.
    + destruct w; reflexivity.
    + exact Hro.
    + cbn [cfg with_files files]. rewrite <- Hfiles. apply forallb_same_in.
      intros file Hin. rewrite lookup_insert_ne; [reflexivity|].
      intros E. symmetry in E. revert E. apply path_join_not_dir.
      now apply filesToSave_names.
    + exact Hk.
Qed.

Lemma saved_cons (c : config) (liveData : json) (file : string * string)
    (l : list (string * string)) (f : gmap string node) :
  saved c liveData (file :: l) f
  = saved c liveData l
      match get (snd file) liveData with
      | Some data =>
          <[path_join c (OUTPUT_DIR c) (fst file) := Text (stringify_pretty data)]> f
      | None => f
      end.
Proof. reflexivity. Qed.

Lemma saved_other (c : config) (liveData : json) (l : list (string * string))
    (f : gmap string node) (path : string) :
  (forall file, In file l -> path_join c (OUTPUT_DIR c) (fst file) <> path) ->
  saved c liveData l f !! path = f !! path.
Proof.
  revert f. induction l as [|file l IH]; intros f H; [reflexivity|].
  rewrite saved_cons.
  rewrite IH by (intros x Hx; apply H; now right).
  destruct (get (snd file) liveData); [|reflexivity].
  apply lookup_insert_ne, H. now left.
Qed.

Lemma saved_lookup (c : config) (liveData : json) (l : list (string * string))
    (f : gmap string node) (name property : string) (data : json) :
  NoDup (map fst l) -> In (name, property) l -> get property liveData = Some data ->
  saved c liveData l f !! path_join c (OUTPUT_DIR c) name
  = Some (Text (stringify_pretty data)).
Proof.
  revert f. induction l as [|file l IH]; intros f Hnd Hin Hg; [contradiction|].
  cbn [map] in Hnd. apply NoDup_cons in Hnd as [Hfresh Hnd].
  rewrite saved_cons.
  destruct Hin as [-> | Hin].
  - cbn [fst snd]. rewrite Hg. rewrite saved_other.
    + apply lookup_insert_eq.
    + intros file Hfile E. apply path_join_inj in E.
      cbn [fst] in Hfresh. apply Hfresh. rewrite <- E.
      apply list_elem_of_In, in_map, Hfile.
  - now apply IH.
Qed.

Lemma wf_member (ms : list (string * json)) (k : string) (v : json) :
  wf (JObj ms) = true -> assoc k ms = Some v -> wf v = true.
Proof.
  cbn [wf]. intros H Hk. apply andb_prop in H as [_ H].
  induction ms as [|[k' x] ms IH]; [discriminate|].
  cbn [forallb] in H. apply andb_prop in H as [Hx Hms]. cbn [assoc] in Hk.
  destruct (String.eqb k k'); [now injection Hk as <- | now apply IH].
Qed.

Lemma wf_get (v : json) (k : string) (x : json) :
  wf v = true -> get k v = Some x -> wf x = true.
Proof. destruct v; try discriminate. apply wf_member. Qed.

Lemma keeps_files_gatherLiveData : keeps files gatherLiveData.
Proof. keeps. Qed.

Lemma keeps_read_only_gatherLiveData : keeps read_only gatherLiveData.
Proof. keeps. Qed.

Lemma keeps_cfg_gatherLiveData : keeps cfg gatherLiveData.
Proof. keeps. Qed.

Lemma keeps_files_broadcastLiveUpdate (liveData : json) :
  keeps files (broadcastLiveUpdate liveData).
Proof. keeps2. Qed.

Lemma run_performLiveScan (w : world) :
  performLiveScan w
  = try_catch
      (liveData ← gatherLiveData; saveLiveData liveData;; broadcastLiveUpdate liveData)
      (fun error => mret tt) (scan_started w).
Proof.
  unfold performLiveScan, try_catch.
  rewrite run_bind, run_now_iso. cbv beta iota.
  rewrite run_bind, run_update_scanner. cbv beta iota.
  rewrite run_bind, run_update_scanner. cbv beta iota.
  reflexivity.
Qed.

Lemma snd_try_catch_ret (m : js unit) (w : world) :
  snd (try_catch m (fun error => mret tt) w) = snd (m w).
Proof. unfold try_catch. destruct (m w) as [[a|e] w']; reflexivity. Qed.

Lemma NoDup_filesToSave : NoDup (map fst filesToSave).
Proof.
  apply (bool_decide_unpack (NoDup (map fst filesToSave))). vm_compute. exact I.
Qed.

Lemma live_scan_file (w : world) (name property : string) :
  writable w = true ->
  In (name, property) filesToSave ->
  exists liveData data w1,
    gatherLiveData (scan_started w) = (Normal liveData, w1)
    /\ get property liveData = Some data
    /\ files (snd (performLiveScan w)) !! path_join (cfg w) (OUTPUT_DIR (cfg w)) name
       = Some (Text (stringify_pretty data))
    /\ wf data = true.
Proof.
  intros Hw Hin. rewrite run_performLiveScan, snd_try_catch_ret, run_bind.
  pose proof (gatherLiveData_snapshot (scan_started w)) as Hsnap.
  pose proof (keeps_files_gatherLiveData (scan_started w)) as Hfiles.
  pose proof (keeps_read_only_gatherLiveData (scan_started w)) as Hro.
  pose proof (keeps_cfg_gatherLiveData (scan_started w)) as Hcfg.
  destruct (gatherLiveData (scan_started w)) as [[liveData|e] w1];
    cbn [fst snd] in *; [|contradiction].
  destruct Hsnap as [Hwf Hkeys].
  assert (Hprops : forallb (fun file : string * string => has_key (snd file) liveData)
                     filesToSave = true).
  { rewrite (forallb_same _ (fun file => existsb (String.eqb (snd file)) (keys liveData)))
      by (intros; apply has_key_keys).
    now rewrite Hkeys. }
  assert (Hw1 : writable w1 = true).
  { unfold writable in *. now rewrite Hfiles, Hro, Hcfg. }
  assert (Hdata : exists data, get property liveData = Some data).
  { assert (Hk : has_key property liveData = true).
    { rewrite forallb_forall in Hprops. exact (Hprops (name, property) Hin). }
    unfold has_key in Hk. destruct (get property liveData) as [data|]; [eauto|discriminate]. }
  destruct Hdata as [data Hdata].
  exists liveData, data, w1. split; [reflexivity | split; [exact Hdata | split]].
  - cbv beta iota. rewrite run_bind, (run_saveLiveData liveData w1 Hw1 Hprops).
    cbv beta iota. rewrite keeps_files_broadcastLiveUpdate. cbn [files with_files].
    rewrite Hcfg. change (cfg (scan_started w)) with (cfg w).
    exact (saved_lookup (cfg w) liveData filesToSave _ name property data
             NoDup_filesToSave Hin Hdata).
  - exact (wf_get liveData property data Hwf Hdata).
Qed.

(** X15. On a disk that can be written, a live scan leaves in each of
    the ten files of saveLiveData the section of the snapshot it has
    just gathered, as text that parses back to that section. *)
Theorem live_scan_saves_snapshot (w : world) (name property : string) :
  writable w = true ->
  In (name, property) filesToSave ->
  exists liveData data w1,
    gatherLiveData (scan_started w) = (Normal liveData, w1)
    /\ get property liveData = Some data
    /\ files (snd (performLiveScan w)) !! path_join (cfg w) (OUTPUT_DIR (cfg w)) name
       = Some (Text (stringify_pretty data))
    /\ parse (stringify_pretty data) = Some data.
Proof.
  intros Hw Hin.
  destruct (live_scan_file w name property Hw Hin)
    as (liveData & data & w1 & Hg & Hdata & Hfile & Hwf).
  exists liveData, data, w1. split; [exact Hg | split; [exact Hdata | split; [exact Hfile|]]].
  apply (JsonProofs.parse_serialize 2), Hwf.
Qed.

Lemma live_scan_saves_snapshot_witness :
  writable Samples.bare = true
  /\ In ("alert_summary.json", "alert_summary") filesToSave
  /\ exists liveData data w1,
       gatherLiveData (scan_started Samples.bare) = (Normal liveData, w1)
       /\ get "alert_summary" liveData = Some data
       /\ files (snd (performLiveScan Samples.bare))
            !! path_join (cfg Samples.bare) (OUTPUT_DIR (cfg Samples.bare))
                 "alert_summary.json"
          = Some (Text (stringify_pretty data))
       /\ parse (stringify_pretty data) = Some data.
Proof.
  split; [vm_compute; reflexivity | split; [do 8 right; left; reflexivity|]].
  apply (live_scan_saves_snapshot Samples.bare "alert_summary.json" "alert_summary");
    [vm_compute; reflexivity | do 8 right; left; reflexivity].
Defined.

(** ** Broadcasts *)

Lemma run_ws_send_open (ws : nat) (text : string) (w : world) (c : client) :
  clients w !! ws = Some c -> readyState c = OPEN ->
  ws_send ws text w
  = (Normal tt,
     with_clients (<[ws := Client OPEN (updateInterval c) (inbox c ++ [text])]> (clients w))
       w).
Proof. intros Hc Hr. unfold ws_send. now rewrite Hc, Hr. Qed.

Lemma broadcast_from_S (liveData : json) (n ws : nat) (w : world) :
  broadcast_from liveData ws (S n) w
  = match clients w !! ws with
    | Some (Client OPEN u inb) =>
        broadcast_from liveData (S ws) n
          (with_clients
             (<[ws := Client OPEN u
                        (inb ++ [stringify (live_update_message liveData
                                              (iso (clock (env w) (clock_reads w))))])]>
                (clients w))
             (tick w))
    | _ => broadcast_from liveData (S ws) n w
    end.
Proof.
  cbn [broadcast_from]. rewrite run_bind. unfold gets at 1. cbv beta iota.
  rewrite run_bind.
  destruct (clients w !! ws) as [[[] u inb]|] eqn:Hc; try reflexivity.
  rewrite run_bind, run_now_iso. cbv beta iota.
  match goal with
  | |- context [ws_send ws ?t ?w1] =>
      rewrite (run_ws_send_open ws t w1 (Client OPEN u inb) Hc eq_refl)
  end.
  reflexivity.
Qed.

Lemma bool_decide_shift (ws n i : nat) :
  i <> ws ->
  bool_decide (ws <= i < ws + S n)%nat = bool_decide (S ws <= i < S ws + n)%nat.
Proof. intros H. apply bool_decide_ext. lia. Qed.

Lemma broadcast_from_clients (liveData : json) (count ws : nat) (w : world) :
  fst (broadcast_from liveData ws count w) = Normal tt
  /\ length (clients (snd (broadcast_from liveData ws count w))) = length (clients w)
  /\ clock_reads (snd (broadcast_from liveData ws count w))
     = (clock_reads w
        + length (List.filter is_open (take count (drop ws (clients w)))))%nat
  /\ forall i c,
       clients w !! i = Some c ->
       exists c',
         clients (snd (broadcast_from liveData ws count w)) !! i = Some c'
         /\ if bool_decide (ws <= i < ws + count)%nat then updated liveData c c'
            else c' = c.
Proof.
  revert ws w. induction count as [|n IH]; intros ws w.
  - cbn [broadcast_from]. split; [reflexivity | split; [reflexivity | split]].
    + change (take 0 (drop ws (clients w))) with (@nil client).
      change (clock_reads w = (clock_reads w + 0)%nat). lia.
    + intros i c Hc. exists c. split; [exact Hc|].
      rewrite bool_decide_eq_false_2 by lia. reflexivity.
  - rewrite broadcast_from_S.
    destruct (clients w !! ws) as [c0|] eqn:Hc0.
    + assert (Hother : forall w2,
        clients w2 = clients w ->
        clock_reads w2 = clock_reads w ->
        readyState c0 <> OPEN ->
        fst (broadcast_from liveData (S ws) n w2) = Normal tt
        /\ length (clients (snd (broadcast_from liveData (S ws) n w2))) = length (clients w)
        /\ clock_reads (snd (broadcast_from liveData (S ws) n w2))
           = (clock_reads w
              + length (List.filter is_open (take (S n) (drop ws (clients w)))))%nat
        /\ forall i c,
             clients w !! i = Some c ->
             exists c',
               clients (snd (broadcast_from liveData (S ws) n w2)) !! i = Some c'
               /\ if bool_decide (ws <= i < ws + S n)%nat then updated liveData c c'
                  else c' = c).
      { intros w2 Hcl Hck Hr. destruct (IH (S ws) w2) as (Hn & Hlen & Hclock & Hpt).
        rewrite Hcl, ?Hck in *.
        split; [exact Hn | split; [exact Hlen | split]].
        - rewrite Hclock, (drop_S _ _ _ Hc0). cbn [take List.filter].
          unfold is_open at 2. destruct (readyState c0); try reflexivity. congruence.
        - intros i c Hc. destruct (Hpt i c Hc) as (c' & Hc' & Hrel).
          exists c'. split; [exact Hc'|].
          destruct (decide (i = ws)) as [->|Hne].
          + rewrite bool_decide_eq_false_2 in Hrel by lia.
            rewrite bool_decide_eq_true_2 by lia. subst c'.
            rewrite Hc0 in Hc. injection Hc as <-. unfold updated.
            destruct (readyState c0); try reflexivity. congruence.
          + now rewrite bool_decide_shift. }
      destruct c0 as [r u inb]. destruct r;
        try (apply Hother; [reflexivity | reflexivity | discriminate]).
      match goal with |- context [broadcast_from liveData (S ws) n ?w2] =>
        set (w2' := w2);
        destruct (IH (S ws) w2') as (Hn & Hlen & Hclock & Hpt);
        assert (Hcl : clients w2'
                      = <[ws := Client OPEN u
                                  (inb ++ [stringify (live_update_message liveData
                                     (iso (clock (env w) (clock_reads w))))])]> (clients w))
          by reflexivity;
        assert (Hck : clock_reads w2' = S (clock_reads w)) by reflexivity
      end.
      clearbody w2'. rewrite Hcl in Hlen, Hclock, Hpt. rewrite Hck in Hclock.
      rewrite length_insert in Hlen.
      split; [exact Hn | split; [exact Hlen | split]].
      * rewrite Hclock, (drop_S _ _ _ Hc0). cbn [take List.filter is_open readyState].
        rewrite drop_insert_lt by lia. cbn [length]. lia.
      * intros i c Hc. destruct (decide (i = ws)) as [->|Hne].
        -- destruct (Hpt ws (Client OPEN u (inb ++ [stringify (live_update_message liveData
                       (iso (clock (env w) (clock_reads w))))])))
             as (c' & Hc' & Hrel).
           { apply list_lookup_insert_eq. now apply lookup_lt_Some in Hc0. }
           rewrite bool_decide_eq_false_2 in Hrel by lia. subst c'.
           eexists. split; [exact Hc'|]. rewrite bool_decide_eq_true_2 by lia.
           rewrite Hc0 in Hc. injection Hc as <-. unfold updated. cbn [readyState].
           eexists. reflexivity.
        -- destruct (Hpt i c) as (c' & Hc' & Hrel).
           { rewrite list_lookup_insert_ne by congruence. exact Hc. }
           exists c'. split; [exact Hc'|]. now rewrite bool_decide_shift.
    + destruct (IH (S ws) w) as (Hn & Hlen & Hclock & Hpt).
      split; [exact Hn | split; [exact Hlen | split]].
      * rewrite Hclock. rewrite (drop_ge (clients w) ws), (drop_ge (clients w) (S ws)).
        -- now rewrite !take_nil.
        -- apply lookup_ge_None in Hc0. lia.
        -- now apply lookup_ge_None in Hc0.
      * intros i c Hc. destruct (Hpt i c Hc) as (c' & Hc' & Hrel).
        exists c'. split; [exact Hc'|].
        assert (i < ws)%nat.
        { apply lookup_lt_Some in Hc. apply lookup_ge_None in Hc0. lia. }
        rewrite bool_decide_eq_false_2 in Hrel by lia.
        rewrite bool_decide_eq_false_2 by lia. exact Hrel.
Qed.

Lemma broadcast_updates (liveData : json) (w : world) :
  let w' := snd (broadcastLiveUpdate liveData w) in
  fst (broadcastLiveUpdate liveData w) = Normal tt
  /\ Forall2 (updated liveData) (clients w) (clients w')
  /\ clock_reads w' = (clock_reads w + length (List.filter is_open (clients w)))%nat.
Proof.
  assert (Heq : broadcastLiveUpdate liveData w
                = broadcast_from liveData 0 (length (clients w)) w) by reflexivity.
  rewrite Heq. cbv zeta.
  destruct (broadcast_from_clients liveData (length (clients w)) 0 w)
    as (Hn & Hlen & Hclock & Hpt).
  split; [exact Hn | split].
  - apply Forall2_same_length_lookup_2; [symmetry; exact Hlen|].
    intros i c c' Hc Hc'. destruct (Hpt i c Hc) as (c'' & Hc'' & Hrel).
    rewrite Hc' in Hc''. injection Hc'' as <-.
    rewrite bool_decide_eq_true_2 in Hrel; [exact Hrel|].
    apply lookup_lt_Some in Hc. lia.
  - rewrite Hclock. cbn [drop]. now rewrite firstn_all.
Qed.

(** X16. broadcastLiveUpdate never throws; every socket that is open
    gets one more text, the live_update message with the snapshot, and
    every other socket is left as it was; the clock is read once for
    each open socket. *)
Theorem broadcast_reaches_open_sockets (liveData : json) (w : world) :
  let w' := snd (broadcastLiveUpdate liveData w) in
  fst (broadcastLiveUpdate liveData w) = Normal tt
  /\ Forall2 (updated liveData) (clients w) (clients w')
  /\ clock_reads w' = (clock_reads w + length (List.filter is_open (clients w)))%nat.
Proof. exact (broadcast_updates liveData w). Qed.

(** ** A closed socket *)

Section Closed.
Variables (i : nat) (c : client).
Hypothesis Hclosed : readyState c = CLOSED.

Lemma keeps_socket {A} (m : js A) : keeps clients m -> preserves (socket_is i c) m.
Proof. intros H w Hw. unfold socket_is. now rewrite H. Qed.

Lemma ws_send_socket (ws : nat) (text : string) :
  preserves (socket_is i c) (ws_send ws text).
Proof.
  intros w Hw. unfold ws_send, socket_is in *.
  destruct (clients w !! ws) as [c0|] eqn:Hc0; [|exact Hw].
  destruct (readyState c0) eqn:Hr; try exact Hw.
  cbn [snd clients with_clients].
  destruct (decide (ws = i)) as [->|Hne]; [congruence|].
  now rewrite list_lookup_insert_ne.
Qed.

Lemma add_client_socket (new : client) :
  preserves (socket_is i c) (modify (fun w => with_clients (clients w ++ [new]) w)).
Proof. intros w Hw. unfold socket_is in *. cbn. now apply lookup_app_l_Some. Qed.

Lemma alter_other_socket (f : client -> client) (ws : nat) :
  ws <> i ->
  preserves (socket_is i c) (modify (fun w => with_clients (alter f ws (clients w)) w)).
Proof. intros Hne w Hw. unfold socket_is in *. cbn. now rewrite list_lookup_alter_ne. Qed.

Lemma close_socket (ws : nat) :
  preserves (socket_is i c)
    (modify (fun w =>
       with_clients
         (alter (fun c => Client CLOSED (updateInterval c) (inbox c)) ws (clients w)) w)).
Proof.
  intros w Hw. unfold socket_is in *. cbn.
  destruct (decide (ws = i)) as [->|Hne]; [|now rewrite list_lookup_alter_ne].
  rewrite list_lookup_alter_eq, Hw. cbn. f_equal.
  destruct c as [r u inb]. cbn in *. now subst r.
Qed.

Lemma broadcast_from_socket (liveData : json) (ws count : nat) :
  preserves (socket_is i c) (broadcast_from liveData ws count).
Proof.
  revert ws. induction count as [|n IH]; intros ws; cbn [broadcast_from];
    [apply preserves_ret|].
  apply preserves_bind; [apply preserves_gets | intros c0].
  apply preserves_bind; [|intros; apply IH].
  destruct c0 as [[[] u inb]|]; try apply preserves_ret.
  apply preserves_bind; [apply keeps_socket; keeps | intros now].
  apply ws_send_socket.
Qed.

Lemma on_connection_socket : preserves (socket_is i c) on_connection.
Proof.
  intros w Hw. unfold on_connection. rewrite run_bind. unfold gets at 1. cbv beta iota.
  assert (Hne : length (clients w) <> i).
  { unfold socket_is in Hw. apply lookup_lt_Some in Hw. lia. }
  revert w Hw Hne.
  change (forall w, socket_is i c w -> length (clients w) <> i ->
            socket_is i c (snd (
              (modify (fun w0 => with_clients (clients w0 ++ [Client OPEN None []]) w0);;
               now ← now_iso;
               ws_send (length (clients w)) (stringify (connection_message now));;
               id ← setInterval (UpdateTick (length (clients w))) 30000;
               modify (fun w0 =>
                 with_clients
                   (alter (fun c => Client (readyState c) (Some id) (inbox c))
                      (length (clients w)) (clients w0)) w0)) w))).
  intros w Hw Hne. generalize dependent (length (clients w)). intros ws Hne.
  revert w Hw.
  change (preserves (socket_is i c)
            (modify (fun w0 => with_clients (clients w0 ++ [Client OPEN None []]) w0);;
             now ← now_iso;
             ws_send ws (stringify (connection_message now));;
             id ← setInterval (UpdateTick ws) 30000;
             modify (fun w0 =>
               with_clients
                 (alter (fun c => Client (readyState c) (Some id) (inbox c)) ws (clients w0))
                 w0))).
  apply preserves_bind; [apply add_client_socket | intros _].
  apply preserves_bind; [apply keeps_socket; keeps | intros now].
  apply preserves_bind; [apply ws_send_socket | intros _].
  apply preserves_bind; [apply keeps_socket; keeps | intros id].
  now apply alter_other_socket.
Qed.

Ltac socket_step :=
  idtac;
  lazymatch goal with
  | |- preserves _ (ws_send _ _) => apply ws_send_socket
  | |- preserves _ (broadcast_from _ _ _) => apply broadcast_from_socket
  | |- preserves _ on_connection => apply on_connection_socket
  | |- preserves _ (modify (fun w => with_clients (alter _ _ (clients w)) w)) =>
      apply close_socket
  | |- preserves _ gatherLiveData => apply keeps_socket, keeps_gatherLiveData_clients
  | |- preserves _ (saveLiveData _) => apply keeps_socket; keeps2
  | |- preserves _ (get_api_dashboard) =>
      apply keeps_socket, keeps_get_api_dashboard_clients
  | |- preserves _ (post_api_scan_run) =>
      apply keeps_socket, keeps_post_api_scan_run_clients
  | |- preserves _ (stopRealTimeScanning) =>
      apply keeps_socket, keeps_stopRealTimeScanning_clients
  | |- preserves _ (readJSONFile _) => apply keeps_socket; keeps2
  | |- preserves _ (setInterval _ _) => apply keeps_socket; keeps_call
  | |- preserves _ (clearInterval _) => apply keeps_socket; keeps_call
  | |- preserves _ (update_scanner _) => apply keeps_socket; keeps_call
  | |- preserves _ read_clock => apply keeps_socket; keeps_call
  | |- preserves _ (modify (fun w => World _ _ _ _ _ _ _ _ _ _ _ (clients w) _)) =>
      apply keeps_socket; keeps_call
  end.

Lemma handle_socket (e : event) : preserves (socket_is i c) (handle e).
Proof. destruct e; cbn [handle]; pres_with socket_step. Qed.

End Closed.

(** X17. A socket that is closed stays as it is through every sequence
    of events: no broadcast, no periodic update and no later connection
    sends it a text or changes its state. *)
Theorem closed_socket_stays (events : list event) (w : world) (i : nat) (c : client) :
  clients w !! i = Some c -> readyState c = CLOSED ->
  clients (run events w) !! i = Some c.
Proof.
  intros Hc Hr.
  exact (run_preserves (socket_is i c) (handle_socket i c Hr) events w Hc).
Qed.

Lemma closed_socket_stays_witness :
  clients ServerExamples.closed_world !! 0%nat = Some ServerExamples.closed_socket
  /\ readyState ServerExamples.closed_socket = CLOSED
  /\ clients (run [Boot; Connect; TimerFires 0; PostScanRun] ServerExamples.closed_world)
       !! 0%nat
     = Some ServerExamples.closed_socket.
Proof.
  split; [vm_compute; reflexivity | split; [vm_compute; reflexivity|]].
  apply (closed_socket_stays [Boot; Connect; TimerFires 0; PostScanRun]
           ServerExamples.closed_world 0 ServerExamples.closed_socket);
    vm_compute; reflexivity.
Defined.

(** ** The greeting *)

Lemma keeps_greeted {A} (m : js A) : keeps clients m -> preserves greeted m.
Proof. intros H w Hw. unfold greeted. now rewrite H. Qed.

Lemma ws_send_greeted (ws : nat) (text : string) : preserves greeted (ws_send ws text).
Proof.
  intros w Hw. unfold ws_send.
  destruct (clients w !! ws) as [c|] eqn:Hc; [|exact Hw].
  destruct (readyState c) eqn:Hr; try exact Hw.
  unfold greeted in *. cbn. apply Forall_insert; [exact Hw|].
  destruct (Forall_lookup_1 _ _ _ _ Hw Hc) as (now & rest & Hi).
  exists now, (rest ++ [text])%list. cbn. now rewrite Hi.
Qed.

Lemma alter_greeted (f : client -> client) (ws : nat) :
  (forall c, inbox (f c) = inbox c) ->
  preserves greeted (modify (fun w => with_clients (alter f ws (clients w)) w)).
Proof.
  intros Hf w Hw. unfold greeted in *. cbn.
  apply Forall_alter; [exact Hw|]. intros c Hc. now rewrite Hf.
Qed.

Lemma broadcast_from_greeted (liveData : json) (ws count : nat) :
  preserves greeted (broadcast_from liveData ws count).
Proof.
  revert ws. induction count as [|n IH]; intros ws; cbn [broadcast_from];
    [apply preserves_ret|].
  apply preserves_bind; [apply preserves_gets | intros c0].
  apply preserves_bind; [|intros; apply IH].
  destruct c0 as [[[] u inb]|]; try apply preserves_ret.
  apply preserves_bind; [apply keeps_greeted; keeps | intros now].
  apply ws_send_greeted.
Qed.

Lemma start_update_loop_greeted (ws : nat) :
  preserves greeted
    (id ← setInterval (UpdateTick ws) 30000;
     modify (fun w =>
       with_clients
         (alter (fun c => Client (readyState c) (Some id) (inbox c)) ws (clients w)) w)).
Proof.
  apply preserves_bind; [apply keeps_greeted; keeps | intros id].
  apply alter_greeted. reflexivity.
Qed.

Lemma on_connection_greeted : preserves greeted on_connection.
Proof.
  intros w Hw. unfold on_connection. rewrite run_bind. unfold gets at 1. cbv beta iota.
  rewrite run_bind. unfold modify at 1. cbv beta iota.
  rewrite run_bind, run_now_iso. cbv beta iota. rewrite run_bind.
  match goal with
  | |- context [ws_send ?ws ?t ?w1] =>
      rewrite (run_ws_send_open ws t w1 (Client OPEN None []))
        by first [apply list_lookup_middle; reflexivity | reflexivity]
  end.
  cbv beta iota. apply start_update_loop_greeted.
  unfold greeted in *. cbn [clients with_clients].
  rewrite insert_app_r_alt by lia. rewrite Nat.sub_diag. cbn [insert list_insert].
  apply Forall_app. split; [exact Hw|]. constructor; [|constructor].
  eexists _, _. reflexivity.
Qed.

Ltac greeted_step :=
  idtac;
  lazymatch goal with
  | |- preserves _ (ws_send _ _) => apply ws_send_greeted
  | |- preserves _ (broadcast_from _ _ _) => apply broadcast_from_greeted
  | |- preserves _ on_connection => apply on_connection_greeted
  | |- preserves _ (modify (fun w => with_clients (alter _ _ (clients w)) w)) =>
      apply alter_greeted; reflexivity
  | |- preserves _ gatherLiveData => apply keeps_greeted, keeps_gatherLiveData_clients
  | |- preserves _ (saveLiveData _) => apply keeps_greeted; keeps2
  | |- preserves _ (get_api_dashboard) =>
      apply keeps_greeted, keeps_get_api_dashboard_clients
  | |- preserves _ (post_api_scan_run) =>
      apply keeps_greeted, keeps_post_api_scan_run_clients
  | |- preserves _ (stopRealTimeScanning) =>
      apply keeps_greeted, keeps_stopRealTimeScanning_clients
  | |- preserves _ (readJSONFile _) => apply keeps_greeted; keeps2
  | |- preserves _ (setInterval _ _) => apply keeps_greeted; keeps_call
  | |- preserves _ (clearInterval _) => apply keeps_greeted; keeps_call
  | |- preserves _ (update_scanner _) => apply keeps_greeted; keeps_call
  | |- preserves _ read_clock => apply keeps_greeted; keeps_call
  | |- preserves _ (modify (fun w => World _ _ _ _ _ _ _ _ _ _ _ (clients w) _)) =>
      apply keeps_greeted; keeps_call
  end.

Lemma handle_greeted (e : event) : preserves greeted (handle e).
Proof. destruct e; cbn [handle]; pres_with greeted_step. Qed.

(** X18. After every sequence of events from the start of the server,
    the first text sent to each socket is the connection message: no
    update and no broadcast reaches a socket before its greeting. *)
Theorem every_socket_is_greeted_first (events : list event) (o : oracle) (c : config)
    (f : gmap string node) (ro : bool) :
  Forall
    (fun socket =>
       exists now rest, inbox socket = stringify (connection_message now) :: rest)
    (clients (run events (boot o c f ro))).
Proof.
  apply (run_preserves greeted handle_greeted). constructor.
Qed.

(** ** ensureRequiredFiles *)

Lemma wf_array_literal (items : list (js json)) :
  Forall (fun e => returns e (fun v => wf v = true)) items ->
  returns (array_literal items) (fun vs => forallb wf vs = true).
Proof.
  induction 1 as [|e items He Hitems IH]; cbn [array_literal].
  - now apply returns_ret.
  - eapply returns_bind; [exact He|]. intros v Hv.
    eapply returns_bind; [exact IH|]. intros vs Hvs.
    apply returns_ret. simpl. now rewrite Hv, Hvs.
Qed.

Lemma wf_jarr (items : list (js json)) :
  Forall (fun e => returns e (fun v => wf v = true)) items ->
  returns (jarr items) (fun v => wf v = true).
Proof.
  intros H. unfold jarr. eapply returns_bind; [apply wf_array_literal, H|].
  intros vs Hvs. now apply returns_ret.
Qed.

Lemma wf_jstr (s : string) : returns (jstr s) (fun v => wf v = true).
Proof. now apply returns_ret. Qed.

Lemma wf_jint (z : Z) : returns (jint z) (fun v => wf v = true).
Proof. now apply returns_ret. Qed.

Lemma wf_jdec (m e : Z) : returns (jdec m e) (fun v => wf v = true).
Proof. now apply returns_ret. Qed.

Ltac written :=
  first
    [ apply wf_jstr | apply wf_jint | apply wf_jdec | apply wf_timestamp_field
    | apply wf_jarr; fields; written
    | apply wf_of_object_literal; [reflexivity | fields; written]
    | unfold Date_now; leaf ].

Lemma wf_required_content (filename : string) :
  returns (required_content filename) (fun v => wf v = true).
Proof.
  unfold required_content.
  repeat match goal with
         | |- returns (if ?b then _ else _) _ => destruct b
         end; written.
Qed.

Lemma keeps_array_literal {X} (f : world -> X) (items : list (js json)) :
  Forall (fun e => keeps f e) items -> keeps f (array_literal items).
Proof.
  induction 1 as [|e items He Hitems IH]; cbn [array_literal].
  - apply keeps_ret.
  - apply keeps_bind; [exact He | intros v].
    apply keeps_bind; [exact IH | intros vs]. apply keeps_ret.
Qed.

Ltac keeps_literal :=
  keeps_with ltac:(idtac;
    lazymatch goal with
    | |- keeps _ (array_literal _) => apply keeps_array_literal; fields; keeps_literal
    end).

Lemma keeps_files_required_content (filename : string) :
  keeps files (required_content filename).
Proof. keeps_literal. Qed.

Lemma keeps_read_only_required_content (filename : string) :
  keeps read_only (required_content filename).
Proof. keeps_literal. Qed.

Lemma keeps_cfg_required_content (filename : string) :
  keeps cfg (required_content filename).
Proof. keeps_literal. Qed.

Lemma ensure_each_cons (filename : string) (rest : list string) (w : world) :
  ensure_each (filename :: rest) w
  = if present w filename then ensure_each rest w
    else
      match required_content filename w with
      | (Normal content, w1) =>
          match
            writeFileSync (path_join (cfg w) (OUTPUT_DIR (cfg w)) filename)
              (stringify_pretty content) w1
          with
          | (Normal _, w2) => ensure_each rest w2
          | (Thrown e, w2) => (Thrown e, w2)
          end
      | (Thrown e, w1) => (Thrown e, w1)
      end.
Proof.
  cbn [ensure_each]. rewrite run_bind. unfold output_path at 1, gets at 1. cbv beta iota.
  rewrite run_bind. unfold existsSync at 1, gets at 1. cbv beta iota.
  rewrite run_bind. unfold present.
  destruct (bool_decide _); cbn [negb]; [reflexivity|].
  rewrite run_bind.
  destruct (required_content filename w) as [[content|e] w1]; [|reflexivity].
  cbv beta iota.
  destruct (writeFileSync _ _ w1) as [[[]|e] w2]; reflexivity.
Qed.

(** What the function does for one file that is missing. *)
Lemma create_missing (filename : string) (w : world) :
  present w filename = false ->
  exists content w1,
    required_content filename w = (Normal content, w1)
    /\ wf content = true /\ files w1 = files w /\ read_only w1 = read_only w
    /\ cfg w1 = cfg w
    /\ writeFileSync (path_join (cfg w) (OUTPUT_DIR (cfg w)) filename)
         (stringify_pretty content) w1
       = if read_only w then (Thrown "EROFS: read-only file system, open", w1)
         else (Normal tt,
               with_files
                 (<[path_join (cfg w) (OUTPUT_DIR (cfg w)) filename
                    := Text (stringify_pretty content)]> (files w)) w1).
Proof.
  intros Hp.
  pose proof (wf_required_content filename w) as Hwf.
  pose proof (keeps_files_required_content filename w) as Hf.
  pose proof (keeps_read_only_required_content filename w) as Hro.
  pose proof (keeps_cfg_required_content filename w) as Hc.
  destruct (required_content filename w) as [[content|e] w1]; cbn [fst snd] in *;
    [|contradiction].
  exists content, w1. repeat (split; [first [reflexivity | assumption]|]).
  unfold writeFileSync. rewrite Hro, Hf. destruct (read_only w); [reflexivity|].
  unfold present in Hp. apply bool_decide_eq_false_1 in Hp.
  destruct (files w !! _) as [n|]; [exfalso; apply Hp; eauto | reflexivity].
Qed.

Lemma ensure_each_keeps (names : list string) (w : world) (p : string) (n : node) :
  files w !! p = Some n -> files (snd (ensure_each names w)) !! p = Some n.
Proof.
  revert w. induction names as [|filename rest IH]; intros w Hp; [exact Hp|].
  rewrite ensure_each_cons. destruct (present w filename) eqn:Hpres; [now apply IH|].
  destruct (create_missing filename w Hpres)
    as (content & w1 & -> & _ & Hf & _ & _ & ->).
  destruct (read_only w); [cbn [snd]; now rewrite Hf|].
  apply IH. cbn [files with_files]. rewrite lookup_insert_ne; [exact Hp|].
  intros <-. unfold present in Hpres. apply bool_decide_eq_false_1 in Hpres.
  apply Hpres. eauto.
Qed.

Lemma ensure_each_present (names : list string) (w : world) :
  forallb (present w) names = true -> ensure_each names w = (Normal tt, w).
Proof.
  induction names as [|filename rest IH]; intros H; [reflexivity|].
  cbn [forallb] in H. apply andb_prop in H as [H1 H2].
  rewrite ensure_each_cons, H1. now apply IH.
Qed.

Lemma ensure_each_creates (names : list string) (w : world) :
  read_only w = false ->
  exists w',
    ensure_each names w = (Normal tt, w')
    /\ read_only w' = false /\ cfg w' = cfg w
    /\ forall filename, In filename names ->
         present w' filename = true
         /\ (present w filename = false ->
             exists content,
               wf content = true
               /\ files w' !! path_join (cfg w) (OUTPUT_DIR (cfg w)) filename
                  = Some (Text (stringify_pretty content))).
Proof.
  revert w. induction names as [|filename rest IH]; intros w Hro.
  - exists w. repeat split; try assumption; contradiction.
  - rewrite ensure_each_cons. destruct (present w filename) eqn:Hpres.
    + destruct (IH w Hro) as (w' & Hrun & Hro' & Hcfg & Hall).
      exists w'. repeat (split; [assumption|]).
      intros name [<- | Hin]; [|now apply Hall]. split; [|congruence].
      unfold present in *. rewrite Hcfg.
      apply bool_decide_eq_true_1 in Hpres as [n Hn].
      apply bool_decide_eq_true_2. exists n.
      pose proof (ensure_each_keeps rest w _ n Hn) as Hk. now rewrite Hrun in Hk.
    + destruct (create_missing filename w Hpres)
        as (content & w1 & -> & Hwf & Hf & Hro1 & Hcfg1 & ->).
      rewrite Hro.
      set (path := path_join (cfg w) (OUTPUT_DIR (cfg w)) filename) in *.
      set (w2 := with_files (<[path := Text (stringify_pretty content)]> (files w)) w1).
      assert (Hro2 : read_only w2 = false) by (cbn; congruence).
      assert (Hcfg2 : cfg w2 = cfg w) by (cbn; congruence).
      destruct (IH w2 Hro2) as (w' & Hrun & Hro' & Hcfg & Hall).
      exists w'. split; [exact Hrun | split; [exact Hro' | split; [congruence|]]].
      assert (Hhere : files w' !! path = Some (Text (stringify_pretty content))).
      { pose proof (ensure_each_keeps rest w2 path (Text (stringify_pretty content))) as Hk.
        rewrite Hrun in Hk. apply Hk. cbn [files with_files w2]. apply lookup_insert_eq. }
      intros name [<- | Hin].
      * split; [|intros _; exists content; now split].
        unfold present. rewrite Hcfg, Hcfg2. fold path. rewrite Hhere.
        apply bool_decide_eq_true_2. eauto.
      * destruct (Hall name Hin) as [Hp Hnew]. split; [exact Hp|].
        intros Hmiss. rewrite <- Hcfg2.
        destruct (present w2 name) eqn:Hp2; [|now apply Hnew].
        (* the file was written for an earlier name of the list *)
        unfold present in Hp2, Hmiss. rewrite Hcfg2 in Hp2.
        cbn [files with_files w2] in Hp2.
        destruct (decide (path_join (cfg w) (OUTPUT_DIR (cfg w)) name = path)) as [E|Hne].
        -- rewrite Hcfg2, E. exists content. now split.
        -- rewrite lookup_insert_ne in Hp2 by congruence. congruence.
Qed.

Lemma ensure_each_read_only (names : list string) (w : world) :
  read_only w = true -> forallb (present w) names = false ->
  exists w',
    ensure_each names w = (Thrown "EROFS: read-only file system, open", w')
    /\ files w' = files w.
Proof.
  intros Hro. induction names as [|filename rest IH]; intros H; [discriminate|].
  cbn [forallb] in H. rewrite ensure_each_cons.
  destruct (present w filename) eqn:Hpres; [now apply IH|].
  destruct (create_missing filename w Hpres)
    as (content & w1 & -> & _ & Hf & _ & _ & ->).
  rewrite Hro. now exists w1.
Qed.

(** X19. ensureRequiredFiles, with the output directory in place: when
    the fourteen files are all there it changes nothing; otherwise, on a
    disk that cannot be written, it throws and leaves the disk as it
    was; otherwise it returns with all fourteen files there, and a
    second call changes nothing. *)
Theorem ensureRequiredFiles_cases (w : world) :
  has_output_dir w = true ->
  if forallb (present w) requiredFiles
  then ensureRequiredFiles w = (Normal tt, w)
  else if read_only w
  then exists w',
         ensureRequiredFiles w = (Thrown "EROFS: read-only file system, open", w')
         /\ files w' = files w
  else exists w',
         ensureRequiredFiles w = (Normal tt, w')
         /\ forallb (present w') requiredFiles = true
         /\ ensureRequiredFiles w' = (Normal tt, w').
Proof.
  intros _. unfold ensureRequiredFiles.
  destruct (forallb (present w) requiredFiles) eqn:Hall;
    [now apply ensure_each_present|].
  destruct (read_only w) eqn:Hro; [now apply ensure_each_read_only|].
  destruct (ensure_each_creates requiredFiles w Hro) as (w' & Hrun & _ & _ & Hpres).
  exists w'. split; [exact Hrun|].
  assert (Hall' : forallb (present w') requiredFiles = true).
  { apply forallb_forall. intros name Hin. now apply Hpres. }
  split; [exact Hall' | now apply ensure_each_present].
Qed.

Lemma ensureRequiredFiles_cases_witness :
  has_output_dir ServerExamples.fresh_dir = true
  /\ if forallb (present ServerExamples.fresh_dir) requiredFiles
     then ensureRequiredFiles ServerExamples.fresh_dir
          = (Normal tt, ServerExamples.fresh_dir)
     else if read_only ServerExamples.fresh_dir
     then exists w',
            ensureRequiredFiles ServerExamples.fresh_dir
            = (Thrown "EROFS: read-only file system, open", w')
            /\ files w' = files ServerExamples.fresh_dir
     else exists w',
            ensureRequiredFiles ServerExamples.fresh_dir = (Normal tt, w')
            /\ forallb (present w') requiredFiles = true
            /\ ensureRequiredFiles w' = (Normal tt, w').
Proof.
  split; [vm_compute; reflexivity|].
  apply (ensureRequiredFiles_cases ServerExamples.fresh_dir).
  vm_compute; reflexivity.
Defined.

(** X20. ensureRequiredFiles never writes over what is on the disk:
    every path that holds something before the call holds the same
    after it, however the call ends. *)
Theorem ensureRequiredFiles_never_overwrites (w : world) (path : string) (n : node) :
  files w !! path = Some n ->
  files (snd (ensureRequiredFiles w)) !! path = Some n.
Proof. apply ensure_each_keeps. Qed.

Lemma ensureRequiredFiles_never_overwrites_witness :
  files ServerExamples.fresh_dir !! "/tmp/soc_data" = Some Dir
  /\ files (snd (ensureRequiredFiles ServerExamples.fresh_dir)) !! "/tmp/soc_data"
     = Some Dir.
Proof.
  split; [vm_compute; reflexivity|].
  apply (ensureRequiredFiles_never_overwrites ServerExamples.fresh_dir "/tmp/soc_data" Dir).
  vm_compute; reflexivity.
Defined.

(** X21. With the output directory in place and a disk that can be
    written, every required file that is missing is created by
    ensureRequiredFiles with text that parses, as JSON, to the value
    that was written. *)
Theorem ensureRequiredFiles_writes_json (w : world) (filename : string) :
  has_output_dir w = true ->
  read_only w = false ->
  In filename requiredFiles ->
  present w filename = false ->
  exists content,
    files (snd (ensureRequiredFiles w)) !! path_join (cfg w) (OUTPUT_DIR (cfg w)) filename
    = Some (Text (stringify_pretty content))
    /\ parse (stringify_pretty content) = Some content.
Proof.
  intros _ Hro Hin Hmiss. unfold ensureRequiredFiles.
  destruct (ensure_each_creates requiredFiles w Hro) as (w' & -> & _ & _ & Hall).
  destruct (Hall filename Hin) as [_ Hnew].
  destruct (Hnew Hmiss) as (content & Hwf & Hfile).
  exists content. split; [exact Hfile|]. now apply (JsonProofs.parse_serialize 2).
Qed.

Lemma ensureRequiredFiles_writes_json_witness :
  has_output_dir ServerExamples.fresh_dir = true
  /\ read_only ServerExamples.fresh_dir = false
  /\ In "soc_status.json" requiredFiles
  /\ present ServerExamples.fresh_dir "soc_status.json" = false
  /\ exists content,
       files (snd (ensureRequiredFiles ServerExamples.fresh_dir))
         !! path_join (cfg ServerExamples.fresh_dir)
              (OUTPUT_DIR (cfg ServerExamples.fresh_dir)) "soc_status.json"
       = Some (Text (stringify_pretty content))
       /\ parse (stringify_pretty content) = Some content.
Proof.
  split; [vm_compute; reflexivity|].
  split; [reflexivity|].
  split; [left; reflexivity|].
  split; [vm_compute; reflexivity|].
  apply (ensureRequiredFiles_writes_json ServerExamples.fresh_dir "soc_status.json");
    [vm_compute; reflexivity | reflexivity | left; reflexivity | vm_compute; reflexivity].
Defined.

(** ** A live scan *)

Lemma write_all_read_only (liveData : json) (l : list (string * string)) (w : world) :
  read_only w = true -> snd (write_all liveData l w) = w.
Proof.
  intros Hro. destruct l as [|[name property] l]; [reflexivity|].
  cbn [write_all]. rewrite run_bind. unfold output_path at 1, gets at 1. cbv beta iota.
  rewrite run_bind.
  destruct (get property liveData) as [data|]; [|reflexivity].
  unfold writeFileSync. now rewrite Hro.
Qed.

Lemma saveLiveData_read_only (liveData : json) (w : world) :
  read_only w = true -> saveLiveData liveData w = (Normal tt, w).
Proof.
  intros Hro. unfold saveLiveData, try_catch.
  rewrite run_bind. unfold gets at 1. cbv beta iota.
  rewrite run_bind. unfold existsSync at 1, gets at 1. cbv beta iota.
  rewrite run_bind.
  destruct (bool_decide _); cbn [negb].
  - change ((mret tt : js unit) w) with (Normal tt, w). cbv beta iota.
    pose proof (write_all_read_only liveData filesToSave w Hro) as Hw.
    destruct (write_all liveData filesToSave w) as [[[]|e] w']; cbn [snd] in Hw; now subst.
  - unfold mkdirSync. now rewrite Hro.
Qed.

Lemma keeps_clients_saveLiveData (liveData : json) : keeps clients (saveLiveData liveData).
Proof. keeps2. Qed.

Lemma keeps_clock_saveLiveData (liveData : json) : keeps clock_reads (saveLiveData liveData).
Proof. keeps2. Qed.

Lemma total_saveLiveData (liveData : json) (w : world) :
  fst (saveLiveData liveData w) = Normal tt.
Proof.
  unfold saveLiveData, try_catch.
  match goal with |- context [match ?b with _ => _ end] => destruct b as [[[]|e] w'] end;
    reflexivity.
Qed.

(** X22. A live scan never throws: it gathers a snapshot with the
    eleven keys of a live scan and broadcasts that snapshot to the
    sockets that are open, whether or not the files could be saved; and
    on a disk that cannot be written it leaves the disk as it was. *)
Theorem live_scan_broadcasts (w : world) :
  exists liveData w1,
    gatherLiveData (scan_started w) = (Normal liveData, w1)
    /\ keys liveData = live_keys
    /\ fst (performLiveScan w) = Normal tt
    /\ Forall2 (updated liveData) (clients w) (clients (snd (performLiveScan w)))
    /\ (read_only w = false \/ files (snd (performLiveScan w)) = files w).
Proof.
  pose proof (gatherLiveData_snapshot (scan_started w)) as Hsnap.
  pose proof (keeps_gatherLiveData_clients (scan_started w)) as Hcl.
  pose proof (keeps_files_gatherLiveData (scan_started w)) as Hfiles.
  pose proof (keeps_read_only_gatherLiveData (scan_started w)) as Hro.
  destruct (gatherLiveData (scan_started w)) as [[liveData|e] w1] eqn:Hg;
    cbn [fst snd] in *; [|contradiction].
  destruct Hsnap as [_ Hkeys].
  exists liveData, w1. split; [reflexivity | split; [exact Hkeys|]].
  split; [apply performLiveScan_normal|].
  rewrite run_performLiveScan, snd_try_catch_ret, run_bind, Hg. cbv beta iota.
  rewrite run_bind.
  pose proof (total_saveLiveData liveData w1) as Hs.
  pose proof (keeps_clients_saveLiveData liveData w1) as Hsc.
  destruct (saveLiveData liveData w1) as [[[]|e] w2] eqn:Hsave; cbn [fst snd] in *;
    [|discriminate].
  cbv beta iota.
  destruct (broadcast_updates liveData w2) as (_ & Hb & _).
  cbv zeta in Hb. rewrite Hsc, Hcl in Hb. split; [exact Hb|].
  destruct (read_only w) eqn:Hr; [right | now left].
  rewrite keeps_files_broadcastLiveUpdate.
  change (read_only (scan_started w)) with (read_only w) in Hro. rewrite Hr in Hro.
  rewrite (saveLiveData_read_only liveData w1 Hro) in Hsave. injection Hsave as <-.
  exact Hfiles.
Qed.

(** ** The numbers of a live scan *)

Lemma random_field_range (n k : Z) :
  0 < n -> returns (random_field n k) (fun v => exists z, v = JInt z /\ k <= z < k + n).
Proof.
  intros Hn. unfold random_field.
  eapply returns_bind; [apply (random_int_bounds n k Hn)|].
  intros z Hz. apply returns_ret. now exists z.
Qed.

Lemma timestamp_field_string : returns timestamp_field (fun v => exists s, v = JStr s).
Proof.
  unfold timestamp_field.
  eapply (returns_bind _ _ (fun _ => True)); [apply total_now_iso | intros t _].
  apply returns_ret. now exists t.
Qed.

Lemma returns_members_each (specs : list (string * js json * (json -> Prop))) :
  Forall (fun s => returns (snd (fst s)) (snd s)) specs ->
  returns (members_literal (map fst specs))
    (fun ms => Forall2 (fun m s => fst m = fst (fst s) /\ snd s (snd m)) ms specs).
Proof.
  induction 1 as [|[[k e] Q] specs He Hspecs IH]; cbn [map fst members_literal].
  - apply returns_ret. constructor.
  - eapply returns_bind; [exact He|]. intros v Hv.
    eapply returns_bind; [exact IH|]. intros vs Hvs.
    apply returns_ret. constructor; [now split | exact Hvs].
Qed.

Lemma returns_object_each (specs : list (string * js json * (json -> Prop))) :
  Forall (fun s => returns (snd (fst s)) (snd s)) specs ->
  returns (object_literal (map fst specs))
    (fun v => exists ms,
       v = JObj ms
       /\ Forall2 (fun m s => fst m = fst (fst s) /\ snd s (snd m)) ms specs).
Proof.
  intros H. unfold object_literal.
  eapply returns_bind; [apply returns_members_each, H|].
  intros ms Hms. apply returns_ret. now exists ms.
Qed.

Lemma random_field_is_int (n k : Z) :
  0 < n -> returns (random_field n k) (is_int k (k + n - 1)).
Proof.
  intros Hn. eapply returns_weaken; [apply (random_field_range n k Hn)|].
  intros v (z & -> & Hz). exists z. split; [reflexivity | lia].
Qed.

Ltac members :=
  repeat match goal with
         | H : Forall2 _ _ (_ :: _) |- _ =>
             apply Forall2_cons_inv_r in H; destruct H as ([? ?] & ? & [? ?] & ? & ->)
         | H : Forall2 _ _ [] |- _ => apply Forall2_nil_inv_r in H as ->
         end;
  cbn [fst snd] in *; subst.

Lemma getLiveAlertSummary_shape :
  returns getLiveAlertSummary
    (fun v => exists total critical high medium low now,
       v = JObj [("total_alerts", JInt total); ("critical_alerts", JInt critical);
                 ("high_alerts", JInt high); ("medium_alerts", JInt medium);
                 ("low_alerts", JInt low); ("timestamp", JStr now)]
       /\ 5 <= total <= 24 /\ 1 <= critical <= 5 /\ 2 <= high <= 9
       /\ 3 <= medium <= 12 /\ 5 <= low <= 19).
Proof.
  eapply returns_weaken.
  - apply (returns_object_each
      [("total_alerts", random_field 20 5, is_int 5 24);
       ("critical_alerts", random_field 5 1, is_int 1 5);
       ("high_alerts", random_field 8 2, is_int 2 9);
       ("medium_alerts", random_field 10 3, is_int 3 12);
       ("low_alerts", random_field 15 5, is_int 5 19);
       ("timestamp", timestamp_field, is_string)]).
    fields; cbn [fst snd];
      first [ apply (random_field_is_int 20 5); lia | apply (random_field_is_int 5 1); lia
            | apply (random_field_is_int 8 2); lia | apply (random_field_is_int 10 3); lia
            | apply (random_field_is_int 15 5); lia | apply timestamp_field_string ].
  - intros v (ms & -> & H). members.
    repeat match goal with
           | H : is_int _ _ _ |- _ => destruct H as (? & -> & ?)
           | H : is_string _ |- _ => destruct H as (? & ->)
           end.
    eexists _, _, _, _, _, _. split; [reflexivity|]. lia.
Qed.

(** X23. The alert summary of a live scan has a total of 5 to 24 alerts
    and at least one alert of each severity: 1 to 5 critical, 2 to 9
    high, 3 to 12 medium and 5 to 19 low; its executive summary has a
    threat level of Low, Medium or High, 1 to 10 active threats, a
    system health of 60 to 99 and a security score of 70 to 99. *)
Theorem live_summaries_in_range :
  returns getLiveAlertSummary
    (fun v => exists total critical high medium low now,
       v = JObj [("total_alerts", JInt total); ("critical_alerts", JInt critical);
                 ("high_alerts", JInt high); ("medium_alerts", JInt medium);
                 ("low_alerts", JInt low); ("timestamp", JStr now)]
       /\ 5 <= total <= 24 /\ 1 <= critical <= 5 /\ 2 <= high <= 9
       /\ 3 <= medium <= 12 /\ 5 <= low <= 19)
  /\ returns getLiveExecutiveSummary
       (fun v => exists level threats health score,
          get "overall_threat_level" v = Some (JStr level)
          /\ In level ["Low"; "Medium"; "High"]
          /\ get "active_threats" v = Some (JInt threats) /\ 1 <= threats <= 10
          /\ get "system_health" v = Some (JInt health) /\ 60 <= health <= 99
          /\ get "security_score" v = Some (JInt score) /\ 70 <= score <= 99).
Proof.
  split; [exact getLiveAlertSummary_shape|].
  eapply returns_weaken.
  - apply (returns_object_each
      [("overall_threat_level", pick_field ["Low"; "Medium"; "High"],
        is_one_of ["Low"; "Medium"; "High"]);
       ("active_threats", random_field 10 1, is_int 1 10);
       ("system_health", random_field 40 60, is_int 60 99);
       ("security_score", random_field 30 70, is_int 70 99);
       ("recommendations",
        const (JArr [JStr "Monitor failed login attempts";
                     JStr "Review suspicious processes";
                     JStr "Check open ports";
                     JStr "Update security policies"]), fun _ => True);
       ("timestamp", timestamp_field, is_string)]).
    fields; cbn [fst snd];
      first [ apply (random_field_is_int 10 1); lia | apply (random_field_is_int 40 60); lia
            | apply (random_field_is_int 30 70); lia | apply timestamp_field_string
            | apply pick_field_member; discriminate | apply returns_ret; exact I ].
  - intros v (ms & -> & H). members.
    repeat match goal with
           | H : is_int _ _ _ |- _ => destruct H as (? & -> & ?)
           | H : is_string _ |- _ => destruct H as (? & ->)
           | H : is_one_of _ _ |- _ => destruct H as (? & -> & ?)
           end.
    eexists _, _, _, _. cbn [get assoc String.eqb Ascii.eqb Bool.eqb].
    repeat split; first [reflexivity | assumption | lia].
Qed.

(** ** The lists of a live scan *)

Lemma total_any (m : js json) (Q : json -> Prop) : returns m Q -> returns m any_value.
Proof. intros H. apply (returns_weaken m Q); [exact H | intros; exact I]. Qed.

Ltac field_specs :=
  fields; cbn [fst snd];
  first [ apply timestamp_field_string
        | apply (total_any _ _ wf_random_ip)
        | apply (total_any _ _ wf_random_user)
        | apply (total_any _ _ wf_timestamp_field)
        | apply pick_field_member; discriminate
        | apply returns_ret; exact I
        | apply returns_ret; eexists; reflexivity
        | idtac ].

Ltac open_specs :=
  members;
  repeat match goal with
         | H : is_int _ _ _ |- _ => destruct H as (? & -> & ?)
         | H : is_string _ |- _ => destruct H as (? & ->)
         | H : is_one_of _ _ |- _ => destruct H as (? & -> & ?)
         end.

Lemma array_bounds (n k : Z) (item : js json) (Q : json -> Prop) :
  0 < n -> 0 <= k -> returns item Q ->
  returns (array_of n k item) (array_within k (k + n - 1) Q).
Proof.
  intros Hn Hk Hi. eapply returns_weaken; [apply (array_of_bounds n k item Q Hn Hk Hi)|].
  intros v (items & -> & Hl & Ha). exists items. split; [reflexivity | split; [lia | exact Ha]].
Qed.

Lemma live_failed_logins_range :
  returns getLiveFailedLogins (array_within 1 5 failed_login_item).
Proof.
  unfold getLiveFailedLogins. apply (array_bounds 5 1); [lia | lia |].
  eapply returns_weaken.
  - apply (returns_object_each
      [("timestamp", timestamp_field, is_string);
       ("ip", random_ip, any_value);
       ("username", random_user, any_value);
       ("attempts", random_field 10 1, is_int 1 10);
       ("status", const (JStr "failed"), fun v => v = JStr "failed")]).
    field_specs; first [apply (random_field_is_int 10 1); lia | apply returns_ret; reflexivity].
  - intros v (ms & -> & H). open_specs.
    eexists. cbn [get assoc String.eqb Ascii.eqb Bool.eqb].
    split; [reflexivity | split; [assumption | reflexivity]].
Qed.

Ltac unconstrained :=
  first [ apply (total_any _ _ wf_random_ip)
        | apply (total_any _ _ wf_random_user)
        | apply (total_any _ _ wf_timestamp_field)
        | eapply (returns_bind _ _ (fun _ => True));
          [first [apply total_random_scaled | apply total_random_int]
          | intros ? _; apply returns_ret; exact I] ].

Lemma live_top_attackers_range :
  returns getLiveTopAttackers (array_within 1 5 top_attacker_item).
Proof.
  unfold getLiveTopAttackers. apply (array_bounds 5 1); [lia | lia |].
  eapply returns_weaken.
  - apply (returns_object_each
      [("ip", random_ip, any_value);
       ("attempts", random_field 50 10, is_int 10 59);
       ("country", pick_field ["US"; "CN"; "RU"; "DE"; "FR"],
        is_one_of ["US"; "CN"; "RU"; "DE"; "FR"]);
       ("last_seen", timestamp_field, is_string)]).
    fields; cbn [fst snd];
      first [ unconstrained | apply (random_field_is_int 50 10); lia
            | apply pick_field_member; discriminate | apply timestamp_field_string ].
  - intros v (ms & -> & H). open_specs.
    eexists _, _. cbn [get assoc String.eqb Ascii.eqb Bool.eqb].
    split; [reflexivity | split; [assumption | split; [reflexivity | assumption]]].
Qed.

Lemma target_ports_range :
  returns (n ← random_int 3 1; mret (JArr (take (Z.to_nat n) scanned_ports)))
    (fun v => exists ports : list json,
       v = JArr ports /\ (1 <= length ports <= 3)%nat
       /\ ports = take (length ports) scanned_ports).
Proof.
  eapply returns_bind; [apply (random_int_bounds 3 1); lia|].
  intros n Hn. cbv beta in Hn. apply returns_ret.
  assert (n = 1 \/ n = 2 \/ n = 3) as [-> | [-> | ->]] by lia;
    eexists; (split; [reflexivity | split; [vm_compute; lia | vm_compute; reflexivity]]).
Qed.

Lemma live_port_scans_range :
  returns getLivePortScans (array_within 1 3 port_scan_item).
Proof.
  unfold getLivePortScans. apply (array_bounds 3 1); [lia | lia |].
  eapply returns_weaken.
  - apply (returns_object_each
      [("timestamp", timestamp_field, is_string);
       ("source_ip", random_ip, any_value);
       ("target_ports",
        n ← random_int 3 1; mret (JArr (take (Z.to_nat n) scanned_ports)),
        fun v => exists ports : list json,
           v = JArr ports /\ (1 <= length ports <= 3)%nat
           /\ ports = take (length ports) scanned_ports);
       ("scan_type", pick_field ["TCP"; "UDP"], is_one_of ["TCP"; "UDP"]);
       ("duration", random_field 300 60, is_int 60 359)]).
    fields; cbn [fst snd];
      first [ unconstrained | apply (random_field_is_int 300 60); lia
            | apply pick_field_member; discriminate | apply timestamp_field_string
            | apply target_ports_range ].
  - intros v (ms & -> & H). open_specs.
    match goal with
    | H : exists ports : list json, _ |- _ => destruct H as (ports & -> & Hl & Hp)
    end.
    exists ports. eexists _, _. cbn [get assoc String.eqb Ascii.eqb Bool.eqb].
    split; [reflexivity | split; [exact Hl | split; [exact Hp |]]].
    split; [reflexivity | split; [assumption | split; [reflexivity | assumption]]].
Qed.

Lemma live_suspicious_processes_range :
  returns getLiveSuspiciousProcesses (array_within 0 1 suspicious_process_item).
Proof.
  unfold getLiveSuspiciousProcesses. apply (array_bounds 2 0); [lia | lia |].
  eapply returns_weaken.
  - apply (returns_object_each
      [("process_name", pick_field suspiciousNames, is_one_of suspiciousNames);
       ("pid", random_field 10000 1000, is_int 1000 10999);
       ("cpu_usage", x ← random_scaled 10 0; mret (JStr (toFixed2 x)), any_value);
       ("memory_usage", x ← random_scaled 5 0; mret (JStr (toFixed2 x)), any_value);
       ("command",
        i ← random_int (Z.of_nat (length suspiciousNames)) 0;
        mret (JStr ("/usr/bin/" ++ pick suspiciousNames i)), any_value);
       ("severity", const (JStr "high"), fun v => v = JStr "high");
       ("timestamp", timestamp_field, is_string)]).
    fields; cbn [fst snd];
      first [ unconstrained | apply (random_field_is_int 10000 1000); lia
            | apply pick_field_member; discriminate | apply timestamp_field_string
            | apply returns_ret; reflexivity ].
  - intros v (ms & -> & H). open_specs.
    eexists _, _. cbn [get assoc String.eqb Ascii.eqb Bool.eqb].
    split; [reflexivity | split; [assumption | split; [reflexivity | split;
      [assumption | reflexivity]]]].
Qed.

Lemma common_port (i : Z) :
  0 <= i < 7 ->
  exists p, commonPorts !! Z.to_nat i = Some p /\ In p commonPorts.
Proof.
  intros Hi.
  assert (i = 0 \/ i = 1 \/ i = 2 \/ i = 3 \/ i = 4 \/ i = 5 \/ i = 6)
    as [-> | [-> | [-> | [-> | [-> | [-> | ->]]]]]] by lia;
    eexists; (split; [reflexivity | cbn; tauto]).
Qed.

Lemma live_open_ports_range :
  returns getLiveOpenPorts (array_within 2 6 open_port_item).
Proof.
  unfold getLiveOpenPorts. apply (array_bounds 5 2); [lia | lia |].
  eapply returns_weaken.
  - apply (returns_object_each
      [("port",
        i ← random_int (Z.of_nat (length commonPorts)) 0;
        mret (match commonPorts !! Z.to_nat i with
              | Some p => JInt p
              | None => JNull
              end),
        fun v => exists p, v = JInt p /\ In p commonPorts);
       ("service",
        pick_field ["SSH"; "HTTP"; "HTTPS"; "HTTP-Proxy"; "MySQL"; "PostgreSQL"; "MongoDB"],
        any_value);
       ("state", const (JStr "LISTEN"), fun v => v = JStr "LISTEN");
       ("process", a ← random_int 1000 0; mret (JStr ("process_" ++ print_Z a)), any_value);
       ("timestamp", timestamp_field, is_string)]).
    fields; cbn [fst snd].
    + eapply returns_bind; [apply (random_int_bounds 7 0); lia|].
      intros i Hi. cbv beta in Hi. apply returns_ret.
      destruct (common_port i) as (p & -> & Hp); [lia|]. now exists p.
    + apply (total_any _ _ (wf_pick_field _)).
    + apply returns_ret; reflexivity.
    + unconstrained.
    + apply timestamp_field_string.
  - intros v (ms & -> & H). open_specs.
    match goal with
    | H : exists p : Z, _ |- _ => destruct H as (p & -> & Hp)
    end.
    exists p. cbn [get assoc String.eqb Ascii.eqb Bool.eqb].
    split; [reflexivity | split; [exact Hp | reflexivity]].
Qed.

(** X24. The lists of a live scan: one to five failed logins with 1 to
    10 attempts each, one to five attackers with 10 to 59 attempts and
    a country of the list, one to three port scans on the first one to
    three of the five ports, at most one suspicious process, with a name
    of the list, and two to six open ports, each one of the seven common
    ports, never an empty slot. *)
Theorem live_lists_in_range :
  returns getLiveFailedLogins (array_within 1 5 failed_login_item)
  /\ returns getLiveTopAttackers (array_within 1 5 top_attacker_item)
  /\ returns getLivePortScans (array_within 1 3 port_scan_item)
  /\ returns getLiveSuspiciousProcesses (array_within 0 1 suspicious_process_item)
  /\ returns getLiveOpenPorts (array_within 2 6 open_port_item).
Proof.
  split; [exact live_failed_logins_range|].
  split; [exact live_top_attackers_range|].
  split; [exact live_port_scans_range|].
  split; [exact live_suspicious_processes_range | exact live_open_ports_range].
Qed.

(** ** The report after a live scan *)




End EndpointProofs.


(* ===================================================================== *)
(** * The dashboard, section by section *)
(* ===================================================================== *)

Module DashboardProofs.
Import Json Server ServerProofs EndpointProofs.


Lemma later_refl (w : world) : later w w.
Proof. repeat split; lia. Qed.

Lemma later_trans (w1 w2 w3 : world) : later w1 w2 -> later w2 w3 -> later w1 w3.
Proof.
  intros (He & Hr & Hc) (He' & Hr' & Hc'). repeat split; [congruence | lia | lia].
Qed.

(** A step of the environment moves the server to a later world. *)
Ltac later_call :=
  let w := fresh "w" in
  intros w;
  cbv [Math_random read_clock readFileSync modify with_cache later];
  repeat case_match; cbn; repeat split; lia.

Lemma moves_on_ret {A} (a : A) : moves_on (mret a).
Proof. intros w. apply later_refl. Qed.

Lemma moves_on_throw {A} (e : string) : moves_on (A := A) (throw e).
Proof. intros w. apply later_refl. Qed.

Lemma moves_on_gets {A} (f : world -> A) : moves_on (gets f).
Proof. intros w. apply later_refl. Qed.

Lemma moves_on_bind {A B} (m : js A) (k : A -> js B) :
  moves_on m -> (forall a, moves_on (k a)) -> moves_on (m ≫= k).
Proof.
  intros Hm Hk w. rewrite run_bind. specialize (Hm w).
  destruct (m w) as [[a|e] w1]; cbn [snd] in *; [|exact Hm].
  eapply later_trans; [exact Hm | apply Hk].
Qed.

Lemma moves_on_catch {A} (body : js A) (handler : string -> js A) :
  moves_on body -> (forall e, moves_on (handler e)) -> moves_on (try_catch body handler).
Proof.
  intros Hb Hh w. unfold try_catch. specialize (Hb w).
  destruct (body w) as [[a|e] w1]; cbn [snd] in *; [exact Hb|].
  eapply later_trans; [exact Hb | apply Hh].
Qed.

Lemma moves_on_members_literal (fields : list (string * js json)) :
  Forall (fun x => moves_on (snd x)) fields -> moves_on (members_literal fields).
Proof.
  induction 1 as [|[k e] fields He Hfields IH]; cbn [members_literal].
  - apply moves_on_ret.
  - apply moves_on_bind; [exact He | intros v].
    apply moves_on_bind; [exact IH | intros vs]. apply moves_on_ret.
Qed.

Lemma moves_on_object_literal (fields : list (string * js json)) :
  Forall (fun x => moves_on (snd x)) fields -> moves_on (object_literal fields).
Proof.
  intros H. unfold object_literal.
  apply moves_on_bind; [now apply moves_on_members_literal | intros; apply moves_on_ret].
Qed.

Ltac moves_on :=
  cbv beta;
  lazymatch goal with
  | |- moves_on (mret _) => apply moves_on_ret
  | |- moves_on (ret _) => apply moves_on_ret
  | |- moves_on (throw _) => apply moves_on_throw
  | |- moves_on (gets _) => apply moves_on_gets
  | |- moves_on (mbind _ _) => apply moves_on_bind; [moves_on | intros; moves_on]
  | |- moves_on (try_catch _ _) => apply moves_on_catch; [moves_on | intros; moves_on]
  | |- moves_on (object_literal _) => apply moves_on_object_literal; fields; moves_on
  | |- moves_on (match ?x with _ => _ end) => destruct x; moves_on
  | |- moves_on Math_random => later_call
  | |- moves_on read_clock => later_call
  | |- moves_on (readFileSync _) => later_call
  | |- moves_on (modify (fun w => with_cache _ w)) => later_call
  | |- moves_on ?m => let h := head m in unfold h; moves_on
  end.


Lemma moves_on_generateSampleData (dataType : string) :
  moves_on (generateSampleData dataType).
Proof. moves_on. Qed.
























End DashboardProofs.
